(** * Plasma G-code preprocessor (qtpyvcp/tools/plasma_gcode_preprocessor.py)

    A shallow embedding of the three passes of the preprocessor -- the line
    classifier [CodeLine], the whole-program hole detector
    [PreProcessor.flag_holes] with its collaborators [HiDefHole] and
    [HoleBuilder], and the serializer [PreProcessor.dump_parsed] -- followed
    by the properties of the specification that were checked against it.

    Conventions of the embedding:
    - program text is a [string] of 8-bit characters; the Python string
      methods and the [re] patterns of the source are run by the small engine
      of module [Re], on ASCII text (a character above 127 is an ordinary
      symbol: neither a space, a digit, nor a letter with a case);
    - a Python [float] is a binary64 [float] of the kernel, so [+], [*], [/],
      [sqrt] and the comparisons round exactly as the interpreter's do; a
      power [x ** 2] is computed by the interpreter with [pow] of the C
      library, which is not bound to round correctly: [pow], like [cos] and
      [sin], is an item of the environment;
    - a Python exception is a value [Raise e] of the result type [exn_or];
    - a [dict] whose order matters (the parameters of a line) is an
      association list, the modal-group dictionaries are [gmap]s. *)

From Stdlib Require Import ZArith String Ascii Floats Lia.
From stdpp Require Import base option list strings gmap.

Local Open Scope string_scope.
Local Open Scope Z_scope.

(** ** Python exceptions as results *)

Inductive pyexn :=
  | IndexError | KeyError | ValueError | TypeError | AttributeError
  | NameError | ZeroDivisionError | OverflowError.

Inductive exn_or (A : Type) :=
  | Ok (a : A)
  | Raise (e : pyexn).
Arguments Ok {A} a.
Arguments Raise {A} e.

(** Sequencing stops at the first exception; [x ← m; k] is stdpp's notation
    for it. *)
#[global] Instance exn_ret : MRet exn_or := fun A a => Ok a.
#[global] Instance exn_bind : MBind exn_or := fun A B k m =>
  match m with
  | Ok a => k a
  | Raise e => Raise e
  end.

Definition of_option {A} (e : pyexn) (o : option A) : exn_or A :=
  match o with
  | Some a => Ok a
  | None => Raise e
  end.

Definition is_ok {A} (m : exn_or A) : bool :=
  match m with Ok _ => true | Raise _ => false end.

(** ** Text: the [str] methods the source uses *)

Module Str.

Definition code (c : ascii) : Z := Z.of_nat (nat_of_ascii c).

Definition is_digit (c : ascii) : bool := (48 <=? code c) && (code c <=? 57).

(** [str.isspace] on one ASCII character: TAB..CR, FS..US and the blank. *)
Definition is_space (c : ascii) : bool :=
  let n := code c in
  ((9 <=? n) && (n <=? 13)) || ((28 <=? n) && (n <=? 32)).

Definition upper_char (c : ascii) : ascii :=
  let n := code c in
  if (97 <=? n) && (n <=? 122) then ascii_of_nat (Z.to_nat (n - 32)) else c.

Definition lower_char (c : ascii) : ascii :=
  let n := code c in
  if (65 <=? n) && (n <=? 90) then ascii_of_nat (Z.to_nat (n + 32)) else c.

Fixpoint map (f : ascii -> ascii) (s : string) : string :=
  match s with
  | EmptyString => EmptyString
  | String c s' => String (f c) (map f s')
  end.

Definition upper : string -> string := map upper_char.
Definition lower : string -> string := map lower_char.

Fixpoint lstrip (s : string) : string :=
  match s with
  | String c s' => if is_space c then lstrip s' else s
  | EmptyString => EmptyString
  end.

(** [rstrip] keeps a character when it is not a space or when something
    that is kept follows it. *)
Fixpoint rstrip (s : string) : string :=
  match s with
  | String c s' =>
      match rstrip s' with
      | EmptyString => if is_space c then EmptyString else String c EmptyString
      | r => String c r
      end
  | EmptyString => EmptyString
  end.

Definition strip (s : string) : string := lstrip (rstrip s).

Fixpoint take (n : nat) (s : string) : string :=
  match n, s with
  | S k, String c s' => String c (take k s')
  | _, _ => EmptyString
  end.

Fixpoint drop (n : nat) (s : string) : string :=
  match n, s with
  | S k, String _ s' => drop k s'
  | _, _ => s
  end.

Fixpoint startswith (p s : string) : bool :=
  match p, s with
  | EmptyString, _ => true
  | String a p', String b s' => if Ascii.eqb a b then startswith p' s' else false
  | String _ _, EmptyString => false
  end.

(** [s.split(sep, 1)] for a non-empty [sep]: the text before the first
    occurrence of [sep] and the text after it, or [s] alone. *)
Fixpoint split1_aux (sep s acc : string) : list string :=
  if startswith sep s then [acc; drop (String.length sep) s]
  else match s with
       | String c s' => split1_aux sep s' (acc +:+ String c EmptyString)
       | EmptyString => [acc]
       end.

Definition split1 (sep s : string) : list string := split1_aux sep s EmptyString.

Fixpoint contains_char (p : ascii -> bool) (s : string) : bool :=
  match s with
  | String c s' => p c || contains_char p s'
  | EmptyString => false
  end.

Fixpoint repeat (c : ascii) (n : nat) : string :=
  match n with
  | O => EmptyString
  | S k => String c (repeat c k)
  end.

End Str.

(** ** The regular expressions of the source

    Every pattern of the source is an ordered alternation of sequences of
    one-character sets, each taken once, [*] or [+] times. [match_seq] is the
    backtracking matcher of such a sequence (greedy, as Python's), and the
    alternatives are tried from left to right. *)

Module Re.

Inductive atom :=
  | One (cs : ascii -> bool)
  | Star (cs : ascii -> bool)
  | Plus (cs : ascii -> bool).

Definition regex := list (list atom).

Definition chr (c : ascii) : ascii -> bool := Ascii.eqb c.
Definition digit : ascii -> bool := Str.is_digit.
Definition space : ascii -> bool := Str.is_space.
(** [.] : any character but a newline. *)
Definition dot (c : ascii) : bool := negb (Ascii.eqb c "010"%char).
(** [[\d\+\.-]] *)
Definition numch (c : ascii) : bool :=
  Str.is_digit c || Ascii.eqb c "+" || Ascii.eqb c "." || Ascii.eqb c "-".

(** A literal word, each character taken once. *)
Fixpoint lit (s : string) : list atom :=
  match s with
  | EmptyString => []
  | String c s' => One (chr c) :: lit s'
  end.

(** Greedy repetition with backtracking: the longest run first. The result
    is what is left of the text after the whole match. *)
Fixpoint match_star (cs : ascii -> bool) (k : string -> option string)
    (s : string) : option string :=
  match s with
  | String c s' =>
      if cs c then
        match match_star cs k s' with
        | Some r => Some r
        | None => k s
        end
      else k s
  | EmptyString => k s
  end.

Fixpoint match_seq (p : list atom) (s : string) : option string :=
  match p with
  | [] => Some s
  | One cs :: p' =>
      match s with
      | String c s' => if cs c then match_seq p' s' else None
      | EmptyString => None
      end
  | Star cs :: p' => match_star cs (match_seq p') s
  | Plus cs :: p' =>
      match s with
      | String c s' => if cs c then match_star cs (match_seq p') s' else None
      | EmptyString => None
      end
  end.

(** The length of the match of [re] at the start of [s], if any. *)
Fixpoint match_here (re : regex) (s : string) : option nat :=
  match re with
  | [] => None
  | p :: re' =>
      match match_seq p s with
      | Some r => Some (String.length s - String.length r)%nat
      | None => match_here re' s
      end
  end.

(** [re.search]: the position of the leftmost match and its length. *)
Fixpoint search_from (re : regex) (s : string) (pos : nat) : option (nat * nat) :=
  match match_here re s with
  | Some n => Some (pos, n)
  | None =>
      match s with
      | String _ s' => search_from re s' (S pos)
      | EmptyString => None
      end
  end.

Definition search (re : regex) (s : string) : option (nat * nat) :=
  search_from re s 0%nat.

(** [re.findall] / [re.finditer] for a pattern without groups: the texts of
    the non-overlapping matches, leftmost first. [skip] counts the
    characters of the last match still to be passed over. *)
Fixpoint findall_from (re : regex) (s : string) (skip : nat) : list string :=
  match skip with
  | S k =>
      match s with
      | String _ s' => findall_from re s' k
      | EmptyString => []
      end
  | O =>
      match match_here re s with
      | Some n =>
          Str.take n s ::
            match s with
            | String _ s' => findall_from re s' (Nat.pred n)
            | EmptyString => []
            end
      | None =>
          match s with
          | String _ s' => findall_from re s' 0%nat
          | EmptyString => []
          end
      end
  end.

Definition findall (re : regex) (s : string) : list string :=
  findall_from re s 0%nat.

(** [re.split(re, s, 1)]: cut at the leftmost match, or [s] alone. *)
Definition split1 (re : regex) (s : string) : list string :=
  match search re s with
  | Some (i, n) => [Str.take i s; Str.drop (i + n) s]
  | None => [s]
  end.

End Re.

(** ** The Python built-ins the source calls: [int], [float], [str] of a
    number, [{:.4f}] *)

Module Py.

Definition digit_val (c : ascii) : Z := Str.code c - 48.

(** A run of decimal digits, single underscores allowed between two digits
    (the grammar of Python numeric literals in [int] and [float]); the
    digits read, most significant first, and the rest of the text. *)
Fixpoint read_digits (s : string) : list Z * string :=
  match s with
  | String c s' =>
      if Str.is_digit c then
        match s' with
        | String "_" (String c2 _ as s'') =>
            if Str.is_digit c2
            then let '(ds, r) := read_digits s'' in (digit_val c :: ds, r)
            else ([digit_val c], s')
        | _ => let '(ds, r) := read_digits s' in (digit_val c :: ds, r)
        end
      else ([], s)
  | EmptyString => ([], s)
  end.

Definition digits_value (ds : list Z) : Z :=
  fold_left (fun a d => 10 * a + d) ds 0.

Definition read_sign (s : string) : bool * string :=
  match s with
  | String "-" r => (true, r)
  | String "+" r => (false, r)
  | _ => (false, s)
  end.

(** [int(s)] *)
Definition to_int (s : string) : exn_or Z :=
  let '(neg, r) := read_sign (Str.strip s) in
  match read_digits r with
  | (d :: ds, EmptyString) =>
      let v := digits_value (d :: ds) in Ok (if neg then - v else v)
  | _ => Raise ValueError
  end.

(** The binary64 number nearest to [n * 10^e10] (ties to even), [n >= 0]. *)
Definition dec_to_float (neg : bool) (n e10 : Z) : float :=
  match n with
  | Zpos p =>
      SF2Prim
        (if 0 <=? e10
         then binary_normalize prec emax (cond_Zopp neg (n * 10 ^ e10)) 0 false
         else SFdiv prec emax (S754_finite neg p 0)
                (S754_finite false (Z.to_pos (10 ^ (- e10))) 0))
  | _ => if neg then neg_zero else zero
  end.

(** [float(s)] *)
Definition to_float (s : string) : exn_or float :=
  let '(neg, r) := read_sign (Str.strip s) in
  let lr := Str.lower r in
  if String.eqb lr "inf" || String.eqb lr "infinity"
  then Ok (if neg then neg_infinity else infinity)
  else if String.eqb lr "nan" then Ok nan
  else
    let '(ip, r1) := read_digits r in
    let '(fp, r2) :=
      match r1 with
      | String "." r' => read_digits r'
      | _ => ([], r1)
      end in
    match (ip ++ fp)%list with
    | [] => Raise ValueError
    | ds =>
        let n := digits_value ds in
        let shift := Z.of_nat (length fp) in
        match r2 with
        | EmptyString => Ok (dec_to_float neg n (- shift))
        | String c r' =>
            if Ascii.eqb (Str.lower_char c) "e" then
              let '(eneg, r3) := read_sign r' in
              match read_digits r3 with
              | (d :: es, EmptyString) =>
                  let e := digits_value (d :: es) in
                  Ok (dec_to_float neg n ((if eneg then - e else e) - shift))
              | _ => Raise ValueError
              end
            else Raise ValueError
        end
    end.

(** Decimal digits of a natural number, most significant first. *)
Fixpoint digits_fuel (fuel : nat) (n : Z) (acc : string) : string :=
  match fuel with
  | O => acc
  | S k =>
      let acc' := String (ascii_of_nat (Z.to_nat (48 + n mod 10))) acc in
      if n <? 10 then acc' else digits_fuel k (n / 10) acc'
  end.

Definition digits (n : Z) : string :=
  digits_fuel (S (Z.to_nat (Z.log2 n))) n EmptyString.

(** [str(n)] of an [int] *)
Definition str_int (n : Z) : string :=
  if n <? 0 then String "-" (digits (- n)) else digits n.

(** [10^x <= a/b] *)
Definition le_pow10 (x a b : Z) : bool :=
  if 0 <=? x then 10 ^ x * b <=? a else b <=? a * 10 ^ (- x).

Fixpoint dec_exp_up (fuel : nat) (x a b : Z) : Z :=
  match fuel with
  | O => x
  | S k => if le_pow10 (x + 1) a b then dec_exp_up k (x + 1) a b else x
  end.

(** The decimal exponent [x] of the positive fraction [a/b]:
    [10^x <= a/b < 10^(x+1)]. *)
Definition dec_exp (a b : Z) : Z :=
  dec_exp_up 8 ((Z.log2 a - Z.log2 b) * 30103 / 100000 - 3) a b.

(** [a/b] in units of [10^q], as a fraction. *)
Definition scaled (a b q : Z) : Z * Z :=
  if 0 <=? q then (a, b * 10 ^ q) else (a * 10 ^ (- q), b).

(** The shortest decimal [c * 10^q] that reads back as [f], and among the
    shortest the nearest to [f]: what [repr] prints. [a/b] is the exact
    value of the positive finite [f], [x] its decimal exponent. *)
Fixpoint shortest (fuel : nat) (k : Z) (f : float) (a b x : Z) : Z * Z :=
  let q := x - k + 1 in
  let '(n, d) := scaled a b q in
  let lo := n / d in
  let hi := lo + 1 in
  let ok c := PrimFloat.eqb (dec_to_float false c q) f in
  let near_hi :=
    match 2 * (n mod d) ?= d with
    | Lt => false
    | Gt => true
    | Eq => Z.odd lo
    end in
  let first := if near_hi then hi else lo in
  let second := if near_hi then lo else hi in
  match fuel with
  | O => (first, q)
  | S fuel' =>
      if ok first then (first, q)
      else if ok second then (second, q)
      else shortest fuel' (k + 1) f a b x
  end.

Fixpoint strip_zeros_fuel (fuel : nat) (c q : Z) : Z * Z :=
  match fuel with
  | O => (c, q)
  | S k => if (c mod 10 =? 0) && (0 <? c) then strip_zeros_fuel k (c / 10) (q + 1) else (c, q)
  end.

Definition exact_fraction (m : positive) (e : Z) : Z * Z :=
  if 0 <=? e then (Zpos m * 2 ^ e, 1) else (Zpos m, 2 ^ (- e)).

Definition exp_digits (e : Z) : string :=
  let a := Z.abs e in
  String (if e <? 0 then "-"%char else "+"%char)
    (if a <? 10 then String "0" (digits a) else digits a).

(** [repr(f)] = [str(f)] = the text of [f] in an f-string. *)
Definition repr (f : float) : string :=
  match Prim2SF f with
  | S754_nan => "nan"
  | S754_infinity s => if s then "-inf" else "inf"
  | S754_zero s => if s then "-0.0" else "0.0"
  | S754_finite s m e =>
      let '(a, b) := exact_fraction m e in
      let x := dec_exp a b in
      let '(c0, q0) := shortest 17 1 (PrimFloat.abs f) a b x in
      let '(c, q) := strip_zeros_fuel 20 c0 q0 in
      let ds := digits c in
      let nd := Z.of_nat (String.length ds) in
      let decpt := nd + q in
      let body :=
        if (decpt <=? -4) || (16 <? decpt) then
          Str.take 1 ds
            +:+ (if 1 <? nd then String "." (Str.drop 1 ds) else EmptyString)
            +:+ String "e" (exp_digits (decpt - 1))
        else if decpt <=? 0 then
          "0." +:+ Str.repeat "0" (Z.to_nat (- decpt)) +:+ ds
        else if nd <=? decpt then
          ds +:+ Str.repeat "0" (Z.to_nat (decpt - nd)) +:+ ".0"
        else
          Str.take (Z.to_nat decpt) ds +:+ String "." (Str.drop (Z.to_nat decpt) ds)
      in
      if s then String "-" body else body
  end.

(** ['{:.<p>f}'.format(f)]: [p] decimals, the exact value rounded to the
    nearest, ties to even. *)
Definition format_fixed (p : Z) (f : float) : string :=
  let render (s : bool) (r : Z) :=
    let ip := digits (r / 10 ^ p) in
    let fp := digits (r mod 10 ^ p) in
    let pad := Str.repeat "0" (Z.to_nat p - String.length fp) in
    (if s then "-" else "") +:+ ip +:+ "." +:+ pad +:+ fp in
  match Prim2SF f with
  | S754_nan => "nan"
  | S754_infinity s => if s then "-inf" else "inf"
  | S754_zero s => render s 0
  | S754_finite s m e =>
      let '(a, b) := exact_fraction m e in
      let n := a * 10 ^ p in
      let lo := n / b in
      let r :=
        match 2 * (n mod b) ?= b with
        | Lt => lo
        | Gt => lo + 1
        | Eq => if Z.odd lo then lo + 1 else lo
        end in
      render s r
  end.

(** [errno.ERANGE] *)
Definition ERANGE : Z := 34.

(** [v ** 2] for a float [v], as [float_pow] of the interpreter computes it
    with the exponent 2.0. A NaN is returned as it is, an infinity gives the
    positive infinity and a zero the positive zero; a negative base is
    replaced by its opposite (the exponent is even, the result is not
    negated), and the base 1.0 gives 1.0. Every other base is handed to
    [pow] of the C library -- [libm_pow], with the value it returns and the
    [errno] it leaves, 0 for none --: an infinite result counts as a range
    error, a range error on a zero result is dropped, and an [errno] left is
    raised, [ERANGE] as an [OverflowError] and any other as a
    [ValueError]. *)
Definition sq (libm_pow : float -> float -> float * Z) (v : float) : exn_or float :=
  if is_nan v then Ok v
  else if is_infinity v then Ok (abs v)
  else if is_zero v then Ok 0%float
  else
    let iv := if PrimFloat.ltb v 0%float then PrimFloat.opp v else v in
    if PrimFloat.eqb iv 1%float then Ok 1%float
    else
      let '(ix, errno) := libm_pow iv 2%float in
      let errno :=
        if errno =? 0 then (if is_infinity ix then ERANGE else 0)
        else if (errno =? ERANGE) && is_zero ix then 0
        else errno in
      if errno =? 0 then Ok ix
      else if errno =? ERANGE then Raise OverflowError
      else Raise ValueError.

(** [x / y]: a zero divisor is a [ZeroDivisionError]. *)
Definition div (x y : float) : exn_or float :=
  if is_zero y then Raise ZeroDivisionError else Ok (PrimFloat.div x y).

End Py.


(** ** Collaborators: configuration pins, process database, [math]

    The preprocessor reads its settings from HAL pins, its cut processes and
    HiDef hole tables from the [PlasmaProcesses] plugin, and takes [cos] and
    [sin] from the C library. None of them is code of this file: they are the
    environment [Env] every pass runs in. *)

Module Hal.
(** [hal.get_value('qtpyvcp.<pin>')], one field per pin read. *)
Record pins := {
  plasma_hole_detect_enable : bool;
  plasma_hole_thickness_ratio : float;
  plasma_max_hole_size : float;
  plasma_arc1_percent : float;
  plasma_arc2_distance : float;
  plasma_arc2_percent : float;
  plasma_arc3_distance : float;
  plasma_arc3_percent : float;
  plasma_leadin_percent : float;
  plasma_leadin_radius : float;
  param_kirfwidth : float;
  plasma_torch_off_distance : float;
  plasma_small_hole_detect : bool;
  plasma_small_hole_threshold : float;
  spot_threshold : float;
  spot_delay : float
}.
End Hal.

Module DB.
(** A row of the cut chart: [cut_process[0]] in [parse_toolchange]. *)
Record cut := {
  cut_speed : float;
  thickness : float;
  machineid : Z;
  thicknessid : Z;
  materialid : Z
}.

(** A row of the HiDef hole table: [d] in [HiDefHole.__init__]. *)
Record hole := {
  hole_size : float;
  leadin_radius : float;
  kerf : float;
  cut_height : float;
  speed1 : float;
  speed2 : float;
  speed2_distance : float;
  plasma_off_distance : float;
  over_cut : float;
  amps : float
}.

Record plasmadb := {
  cut_by_id : Z -> list cut;
  hidef_holes : option Z -> option Z -> option Z -> list hole
}.
End DB.

Record Env := {
  (** [INI.find('TRAJ', 'LINEAR_UNITS') == 'inch'] *)
  ini_inch : bool;
  PLASMADB : DB.plasmadb;
  hal : Hal.pins;
  math_cos : float -> float;
  math_sin : float -> float;
  (** [pow] of the C library, which [**] on floats calls: the value it
      returns and the [errno] it leaves, 0 when it sets none. *)
  libm_pow : float -> float -> float * Z
}.

(** [UNITS, PRECISION, UNITS_PER_MM] as the module sets them at import. *)
Definition PRECISION (env : Env) : Z := if ini_inch env then 6 else 4.
Definition UNITS_PER_MM_init (env : Env) : float :=
  if ini_inch env then 0x1.9666666666666p+4%float (* 25.4 *) else 1%float.

Definition DEBUG_COMMENTS : bool := false.

Definition math_pi : float := 0x1.921fb54442d18p+1%float.

Definition G_MODAL_GROUPS : list (Z * list string) :=
  [ (1, ["G0";"G1";"G2";"G3";"G33";"G38.n";"G73";"G76";"G80";"G81";
         "G82";"G83";"G84";"G85";"G86";"G87";"G88";"G89"]);
    (2, ["G17";"G18";"G19";"G17.1";"G18.1";"G19.1"]);
    (3, ["G90";"G91"]);
    (4, ["G90.1";"G91.1"]);
    (5, ["G93";"G94";"G95"]);
    (6, ["G20";"G21"]);
    (7, ["G40";"G41";"G42";"G41.1";"G42.1"]);
    (8, ["G43";"G43.1";"G49"]);
    (10, ["G98";"G99"]);
    (12, ["G54";"G55";"G56";"G57";"G58";"G59";"G59.1";"G59.2";"G59.3"]);
    (13, ["G61";"G61.1";"G64"]);
    (14, ["G96";"G97"]);
    (15, ["G7";"G8"]) ].

(** ** Data model *)

Inductive Commands :=
  | COMMENT | CONTAINS_COMMENT | MOVE_LINEAR | MOVE_ARC | ARC_RELATIVE
  | ARC_ABSOLUTE | TOOLCHANGE | PASSTHROUGH | OTHER | XY | MAGIC_MATERIAL
  | MATERIAL_CHANGE | BEGIN_CUT | END_CUT | BEGIN_SCRIBE | END_SCRIBE
  | BEGIN_SPOT | END_SPOT | BEGIN_MARK | END_MARK | END_ALL | SELECT_PROCESS
  | WAIT_PROCESS | FEEDRATE_MATERIAL | FEEDRATE_LINE
  | ENABLE_IGNORE_ARC_OK_SYNCH | ENABLE_IGNORE_ARC_OK_IMMED
  | DISABLE_IGNORE_ARC_OK_SYNCH | DISABLE_IGNORE_ARC_OK_IMMED
  | DISABLE_THC_SYNCH | DISABLE_THC_IMMED | ENABLE_THC_SYNCH | ENABLE_THC_IMMED
  | DISABLE_TORCH_SYNCH | DISABLE_TORCH_IMMED | ENABLE_TORCH_SYNCH
  | ENABLE_TORCH_IMMED | FEED_VEL_PERCENT_SYNCH | FEED_VEL_PERCENT_IMMED
  | CUTTER_COMP_LEFT | CUTTER_COMP_RIGHT | CUTTER_COMP_OFF | HOLE_MODE
  | HOLE_DIAM | HOLE_VEL | HOLE_OVERCUT | PIERCE_MODE | KEEP_Z | UNITS
  | PATH_BLENDING | ADAPTIVE_FEED | SPINDLE_ON | SPINDLE_OFF | DIGITAL_IN
  | REMOVE.

(** The second component of [CodeLine.command]: an [int] (G and T lines), a
    [float] (feed lines) or [None] (comment lines). *)
Inductive cmdarg :=
  | AInt (n : Z)
  | AFloat (f : float)
  | ANone.

(** An element of [HoleBuilder.elements]: a dictionary with the key ["code"]
    and, for moves, ["x"], ["y"] and, for arcs, ["i"], ["j"]. *)
Record element := {
  e_code : option string;
  e_xy : option (float * float);
  e_ij : option (float * float)
}.

(** [torch_on] is not set before the first [create_cut_on_off_gcode]. *)
Record HoleBuilder := {
  torch_on : option bool;
  elements : list element
}.

Record CodeLine := {
  command : option (string * cmdarg);      (** [()] is [None] *)
  params : list (string * float);          (** in insertion order *)
  comment : string;
  raw : string;
  errors : gmap string string;
  type : option Commands;
  is_hole : bool;
  token : string;
  active_g_modal_groups : gmap Z string;
  cutchart_id : option Z;
  hole_builder : option HoleBuilder
}.

(** The fields of [PreProcessor] the passes use, with the two pieces of
    process-wide state the classifier writes: the module global
    [UNITS_PER_MM] and, in [stderr], the lines the program itself prints on
    the error stream with [print(..., file=sys.stderr)]. What the logger
    [LOG] of qtpyvcp writes, and where, is not part of it. *)
Record PreProcessor := {
  _parsed : list CodeLine;
  active_g_modal_grps : gmap Z string;
  active_m_modal_grps : gmap Z string;
  active_cutchart : option Z;
  active_feedrate : option float;
  active_thickness : option float;
  active_machineid : option Z;
  active_thicknessid : option Z;
  active_materialid : option Z;
  UNITS_PER_MM : float;
  stderr : list string
}.

(** *** Field updates *)

Definition set_command (c : option (string * cmdarg)) (l : CodeLine) : CodeLine :=
  {| command := c; params := params l; comment := comment l; raw := raw l;
     errors := errors l; type := type l; is_hole := is_hole l; token := token l;
     active_g_modal_groups := active_g_modal_groups l;
     cutchart_id := cutchart_id l; hole_builder := hole_builder l |}.

Definition set_params (p : list (string * float)) (l : CodeLine) : CodeLine :=
  {| command := command l; params := p; comment := comment l; raw := raw l;
     errors := errors l; type := type l; is_hole := is_hole l; token := token l;
     active_g_modal_groups := active_g_modal_groups l;
     cutchart_id := cutchart_id l; hole_builder := hole_builder l |}.

Definition set_comment (c : string) (l : CodeLine) : CodeLine :=
  {| command := command l; params := params l; comment := c; raw := raw l;
     errors := errors l; type := type l; is_hole := is_hole l; token := token l;
     active_g_modal_groups := active_g_modal_groups l;
     cutchart_id := cutchart_id l; hole_builder := hole_builder l |}.

Definition set_raw (r : string) (l : CodeLine) : CodeLine :=
  {| command := command l; params := params l; comment := comment l; raw := r;
     errors := errors l; type := type l; is_hole := is_hole l; token := token l;
     active_g_modal_groups := active_g_modal_groups l;
     cutchart_id := cutchart_id l; hole_builder := hole_builder l |}.

Definition set_errors (e : gmap string string) (l : CodeLine) : CodeLine :=
  {| command := command l; params := params l; comment := comment l; raw := raw l;
     errors := e; type := type l; is_hole := is_hole l; token := token l;
     active_g_modal_groups := active_g_modal_groups l;
     cutchart_id := cutchart_id l; hole_builder := hole_builder l |}.

Definition set_type (t : Commands) (l : CodeLine) : CodeLine :=
  {| command := command l; params := params l; comment := comment l; raw := raw l;
     errors := errors l; type := Some t; is_hole := is_hole l; token := token l;
     active_g_modal_groups := active_g_modal_groups l;
     cutchart_id := cutchart_id l; hole_builder := hole_builder l |}.

Definition set_hole (h : bool) (b : option HoleBuilder) (l : CodeLine) : CodeLine :=
  {| command := command l; params := params l; comment := comment l; raw := raw l;
     errors := errors l; type := type l; is_hole := h; token := token l;
     active_g_modal_groups := active_g_modal_groups l;
     cutchart_id := cutchart_id l; hole_builder := b |}.

Definition set_token (k : string) (l : CodeLine) : CodeLine :=
  {| command := command l; params := params l; comment := comment l; raw := raw l;
     errors := errors l; type := type l; is_hole := is_hole l; token := k;
     active_g_modal_groups := active_g_modal_groups l;
     cutchart_id := cutchart_id l; hole_builder := hole_builder l |}.

Definition set_cutchart_id (t : Z) (l : CodeLine) : CodeLine :=
  {| command := command l; params := params l; comment := comment l; raw := raw l;
     errors := errors l; type := type l; is_hole := is_hole l; token := token l;
     active_g_modal_groups := active_g_modal_groups l;
     cutchart_id := Some t; hole_builder := hole_builder l |}.

(** [save_g_modal_group]: the line keeps a copy of the dictionary. *)
Definition save_g_modal_group (grp : gmap Z string) (l : CodeLine) : CodeLine :=
  {| command := command l; params := params l; comment := comment l; raw := raw l;
     errors := errors l; type := type l; is_hole := is_hole l; token := token l;
     active_g_modal_groups := grp;
     cutchart_id := cutchart_id l; hole_builder := hole_builder l |}.

Definition set_units (u : float) (p : PreProcessor) : PreProcessor :=
  {| _parsed := _parsed p; active_g_modal_grps := active_g_modal_grps p;
     active_m_modal_grps := active_m_modal_grps p;
     active_cutchart := active_cutchart p; active_feedrate := active_feedrate p;
     active_thickness := active_thickness p;
     active_machineid := active_machineid p;
     active_thicknessid := active_thicknessid p;
     active_materialid := active_materialid p;
     UNITS_PER_MM := u; stderr := stderr p |}.

Definition print_stderr (s : string) (p : PreProcessor) : PreProcessor :=
  {| _parsed := _parsed p; active_g_modal_grps := active_g_modal_grps p;
     active_m_modal_grps := active_m_modal_grps p;
     active_cutchart := active_cutchart p; active_feedrate := active_feedrate p;
     active_thickness := active_thickness p;
     active_machineid := active_machineid p;
     active_thicknessid := active_thicknessid p;
     active_materialid := active_materialid p;
     UNITS_PER_MM := UNITS_PER_MM p; stderr := (stderr p ++ [s])%list |}.

Definition set_active_process (tool : Z) (c : DB.cut) (p : PreProcessor) : PreProcessor :=
  {| _parsed := _parsed p; active_g_modal_grps := active_g_modal_grps p;
     active_m_modal_grps := active_m_modal_grps p;
     active_cutchart := Some tool;
     active_feedrate := Some (DB.cut_speed c);
     active_thickness := Some (DB.thickness c);
     active_machineid := Some (DB.machineid c);
     active_thicknessid := Some (DB.thicknessid c);
     active_materialid := Some (DB.materialid c);
     UNITS_PER_MM := UNITS_PER_MM p; stderr := stderr p |}.

Definition set_g_modal_grps (g : gmap Z string) (p : PreProcessor) : PreProcessor :=
  {| _parsed := _parsed p; active_g_modal_grps := g;
     active_m_modal_grps := active_m_modal_grps p;
     active_cutchart := active_cutchart p; active_feedrate := active_feedrate p;
     active_thickness := active_thickness p;
     active_machineid := active_machineid p;
     active_thicknessid := active_thicknessid p;
     active_materialid := active_materialid p;
     UNITS_PER_MM := UNITS_PER_MM p; stderr := stderr p |}.

Definition set_parsed (ls : list CodeLine) (p : PreProcessor) : PreProcessor :=
  {| _parsed := ls; active_g_modal_grps := active_g_modal_grps p;
     active_m_modal_grps := active_m_modal_grps p;
     active_cutchart := active_cutchart p; active_feedrate := active_feedrate p;
     active_thickness := active_thickness p;
     active_machineid := active_machineid p;
     active_thicknessid := active_thicknessid p;
     active_materialid := active_materialid p;
     UNITS_PER_MM := UNITS_PER_MM p; stderr := stderr p |}.

(** *** Dictionaries in insertion order *)

Fixpoint dict_get {A} (k : string) (d : list (string * A)) : option A :=
  match d with
  | [] => None
  | (k', v) :: d' => if String.eqb k k' then Some v else dict_get k d'
  end.

(** [d[k] = v]: an existing key keeps its place. *)
Fixpoint dict_set {A} (k : string) (v : A) (d : list (string * A)) : list (string * A) :=
  match d with
  | [] => [(k, v)]
  | (k', v') :: d' =>
      if String.eqb k k' then (k, v) :: d' else (k', v') :: dict_set k v d'
  end.

Definition dict_has {A} (k : string) (d : list (string * A)) : bool :=
  match dict_get k d with Some _ => true | None => false end.

(** [xs[i]] of a list: an [IndexError] out of range. *)
Definition item {A} (xs : list A) (i : nat) : exn_or A :=
  of_option IndexError (xs !! i).

(** ** The line classifier: class [CodeLine]

    A method of [CodeLine] reads and writes the line and its parent
    [PreProcessor] (the active process, [UNITS_PER_MM], [sys.stderr]): it is
    a function on the pair of them. The [LOG] calls hand a record to the
    logger of qtpyvcp, which is no code of this file and writes where it is
    configured to: they are not modelled. *)

Definition state : Type := CodeLine * PreProcessor.

(** [";|\("] *)
Definition re_comment : Re.regex := [[Re.One (Re.chr ";")]; [Re.One (Re.chr "(")]].
(** [r"G\d+|T\s*\d+|M\d+"] *)
Definition re_multi_codes : Re.regex :=
  [ [Re.One (Re.chr "G"); Re.Plus Re.digit];
    [Re.One (Re.chr "T"); Re.Star Re.space; Re.Plus Re.digit];
    [Re.One (Re.chr "M"); Re.Plus Re.digit] ].
(** ["T\s*\d+|M6"] *)
Definition re_tool_m6 : Re.regex :=
  [ [Re.One (Re.chr "T"); Re.Star Re.space; Re.Plus Re.digit]; Re.lit "M6" ].
(** [r"X[\d\+\.-]*|Y[\d\+\.-]*"] *)
Definition re_xy : Re.regex :=
  [ [Re.One (Re.chr "X"); Re.Star Re.numch];
    [Re.One (Re.chr "Y"); Re.Star Re.numch] ].
(** [r"X|Y|[\d\+\.-]+"] *)
Definition re_xy_parts : Re.regex :=
  [ [Re.One (Re.chr "X")]; [Re.One (Re.chr "Y")]; [Re.Plus Re.numch] ].
(** [r"X[\d\+\.-]*|Y[\d\+\.-]*|I[\d\+\.-]*|J[\d\+\.-]*|P[\d\+\.-]*"] *)
Definition re_arc : Re.regex :=
  [ [Re.One (Re.chr "X"); Re.Star Re.numch];
    [Re.One (Re.chr "Y"); Re.Star Re.numch];
    [Re.One (Re.chr "I"); Re.Star Re.numch];
    [Re.One (Re.chr "J"); Re.Star Re.numch];
    [Re.One (Re.chr "P"); Re.Star Re.numch] ].
(** [r"X|Y|I|J|P|[\d\+\.-]+"] *)
Definition re_arc_parts : Re.regex :=
  [ [Re.One (Re.chr "X")]; [Re.One (Re.chr "Y")]; [Re.One (Re.chr "I")];
    [Re.One (Re.chr "J")]; [Re.One (Re.chr "P")]; [Re.Plus Re.numch] ].

(** [r"^" + k + r"{1}"], matched at the start of the text: the characters of
    the key [k] one by one, a [.] of the key standing for any character; the
    key ["("] is escaped by the source. *)
Fixpoint key_atoms (k : string) : list Re.atom :=
  match k with
  | EmptyString => []
  | String c k' =>
      Re.One (if Ascii.eqb c "." then Re.dot else Re.chr c) :: key_atoms k'
  end.

Definition token_pattern (k : string) : Re.regex :=
  if String.eqb k "(" then [[Re.One (Re.chr "(")]] else [key_atoms k].

Definition token_matches (k line : string) : bool :=
  match Re.match_here (token_pattern k) line with
  | Some _ => true
  | None => false
  end.

Definition strip_inline_comment (line : string) : string :=
  match Re.split1 re_comment line with
  | s0 :: _ => Str.strip s0
  | [] => line
  end.

Definition parse_comment (st : state) : exn_or state :=
  let '(self, parent) := st in
  Ok (set_params [] (set_command (Some (";", ANone)) (set_comment (raw self) self)),
      parent).

Definition parse_inline_comment (st : state) : exn_or state :=
  let '(self, parent) := st in
  let rest := Str.drop 1 (raw self) in
  let s := Re.split1 re_comment rest in
  match Re.search re_comment rest with
  | Some (start, _) =>
      found_c ← of_option IndexError (String.get (S start) (raw self));
      s1 ← item s 1;
      Ok (set_comment (String found_c s1) self, parent)
  | None => Ok (set_comment "" self, parent)
  end.

Definition parse_passthrough (st : state) : exn_or state :=
  let '(self, parent) := st in Ok (set_type PASSTHROUGH self, parent).

(** The loop shared by the parameter readers: every word found is cut in
    its letter and its number, and stored when it has both. *)
Fixpoint store_params (parts : Re.regex) (tokens : list string) (self : CodeLine)
    : exn_or CodeLine :=
  match tokens with
  | [] => Ok self
  | tok :: rest =>
      match Re.findall parts tok with
      | [p0; p1] =>
          v ← Py.to_float p1;
          store_params parts rest (set_params (dict_set p0 v (params self)) self)
      | _ => store_params parts rest self
      end
  end.

Definition parse_linear (st : state) : exn_or state :=
  let '(self, parent) := st in
  n ← Py.to_int (Str.drop 1 (token self));
  let self := set_command (Some ("G", AInt n)) self in
  after ← item (Str.split1 (token self) (Str.upper (raw self))) 1;
  let line := Str.strip after in
  self ← store_params re_xy_parts (Re.findall re_xy line) self;
  Ok (self, parent).

(** As [store_params], the line becoming an [XY] line at every word found. *)
Fixpoint store_params_xy (tokens : list string) (self : CodeLine) : exn_or CodeLine :=
  match tokens with
  | [] => Ok self
  | tok :: rest =>
      self ←
        match Re.findall re_xy_parts tok with
        | [p0; p1] =>
            v ← Py.to_float p1;
            Ok (set_params (dict_set p0 v (params self)) self)
        | _ => Ok self
        end;
      store_params_xy rest (set_type XY self)
  end.

Definition parse_XY_line (st : state) : exn_or state :=
  let '(self, parent) := st in
  let line := Str.strip (Str.upper (raw self)) in
  self ← store_params_xy (Re.findall re_xy line) self;
  Ok (self, parent).

Definition parse_arc (st : state) : exn_or state :=
  let '(self, parent) := st in
  n ← Py.to_int (Str.drop 1 (token self));
  let self := set_command (Some ("G", AInt n)) self in
  after ← item (Str.split1 (token self)
                  (Str.upper (strip_inline_comment (raw self)))) 1;
  let line := Str.strip after in
  self ← store_params re_arc_parts (Re.findall re_arc line) self;
  Ok (self, parent).

Definition invalid_cutchart : string :=
  "; ERROR: Invalid Cutchart ID in Tx. Check CAM Tools: ".

Definition parse_toolchange (env : Env) (combo : bool) (st : state) : exn_or state :=
  let '(self, parent) := st in
  let line := strip_inline_comment (raw self) in
  '(tool, self) ←
    (if combo then
       f0 ← item (Re.findall re_tool_m6 (Str.strip (Str.upper line))) 0;
       num ← item (Re.split1 [Re.lit "T"] f0) 1;
       tool ← Py.to_int num;
       Ok (tool, set_type PASSTHROUGH self)
     else
       num ← item (Re.split1 [Re.lit "T"] line) 1;
       tool ← Py.to_int num;
       Ok (tool, set_type TOOLCHANGE (set_command (Some ("T", AInt tool)) self)));
  match DB.cut_by_id (PLASMADB env) tool with
  | [] => Ok (set_raw (invalid_cutchart +:+ raw self) self, parent)
  | cut_process0 :: _ =>
      Ok (set_cutchart_id tool self, set_active_process tool cut_process0 parent)
  end.

Definition parse_feedrate (st : state) : exn_or state :=
  let '(self, parent) := st in
  let line := strip_inline_comment (raw self) in
  num ← item (Re.split1 [Re.lit "F"] line) 1;
  feed ← Py.to_float num;
  let feed :=
    match active_feedrate parent with
    | Some active => active
    | None => feed
    end in
  Ok (set_command (Some ("F", AFloat feed)) self, parent).

Definition set_inches (st : state) : exn_or state :=
  let '(self, parent) := st in
  Ok (set_command (Some ("G", AInt 20)) self,
      set_units 0x1.9666666666666p+4%float parent).

Definition set_mms (st : state) : exn_or state :=
  let '(self, parent) := st in
  Ok (set_command (Some ("G", AInt 21)) self, set_units 1%float parent).

(** The message is one string literal continued over two source lines: the
    indentation of the second line is part of it. *)
Definition comp_error_text : string :=
  "Cutter compensation detected. " +:+ Str.repeat " " 36
    +:+ "Ensure all compensation is baked into the tool path.".

Definition cutter_comp_error (st : state) : exn_or state :=
  let '(self, parent) := st in
  Ok (set_type REMOVE (set_errors (<["compError" := comp_error_text]> (errors self)) self),
      print_stderr "ERROR:CUTTER_COMP:INVALID GCODE FOUND" parent).

Definition get_active_feedrate (parent : PreProcessor) : option float :=
  active_feedrate parent.

Definition placeholder (st : state) : exn_or state := Ok st.

(** The table [tokens] of [__init__], in the order of the source. *)
Definition tokens (env : Env) : list (string * (Commands * (state -> exn_or state))) :=
  [ ("G0", (MOVE_LINEAR, parse_linear));
    ("G1", (MOVE_LINEAR, parse_linear));
    ("G20", (UNITS, set_inches));
    ("G21", (UNITS, set_mms));
    ("G2", (MOVE_ARC, parse_arc));
    ("G3", (MOVE_ARC, parse_arc));
    ("G41", (CUTTER_COMP_LEFT, cutter_comp_error));
    ("G42", (CUTTER_COMP_RIGHT, cutter_comp_error));
    ("G41.1", (CUTTER_COMP_LEFT, cutter_comp_error));
    ("G42.1", (CUTTER_COMP_RIGHT, cutter_comp_error));
    ("G40", (CUTTER_COMP_OFF, placeholder));
    ("G64", (PATH_BLENDING, parse_passthrough));
    ("M52", (ADAPTIVE_FEED, parse_passthrough));
    ("M3", (SPINDLE_ON, parse_passthrough));
    ("M5", (SPINDLE_OFF, parse_passthrough));
    ("M190", (MATERIAL_CHANGE, parse_passthrough));
    ("M66", (DIGITAL_IN, parse_passthrough));
    ("G91.1", (ARC_RELATIVE, parse_passthrough));
    ("G90.1", (ARC_ABSOLUTE, parse_passthrough));
    ("F#", (FEEDRATE_MATERIAL, parse_passthrough));
    ("F", (FEEDRATE_LINE, parse_feedrate));
    ("#<holes>", (HOLE_MODE, placeholder));
    ("#<h_diameter>", (HOLE_DIAM, placeholder));
    ("#<h_velocity>", (HOLE_VEL, placeholder));
    ("#<oclength>", (HOLE_OVERCUT, placeholder));
    ("#<pierce-only>", (PIERCE_MODE, placeholder));
    (";", (COMMENT, parse_comment));
    ("(", (COMMENT, parse_comment));
    ("T", (TOOLCHANGE, parse_toolchange env false)) ].

Definition is_COMMENT (t : option Commands) : bool :=
  match t with Some COMMENT => true | _ => false end.
Definition is_PASSTHROUGH (t : option Commands) : bool :=
  match t with Some PASSTHROUGH => true | _ => false end.

(** [for k in tokens: ...]: the first key whose pattern matches the
    upper-cased line sets the type and the token, runs its handler and ends
    the loop; a key that does not match marks the line [PASSTHROUGH]. *)
Fixpoint scan_tokens (toks : list (string * (Commands * (state -> exn_or state))))
    (line : string) (st : state) : exn_or state :=
  match toks with
  | [] => Ok st
  | (k, (ty, handler)) :: rest =>
      if token_matches k (Str.upper line) then
        st ← handler (set_token k (set_type ty st.1), st.2);
        if is_COMMENT (type st.1) then Ok st else parse_inline_comment st
      else scan_tokens rest line (set_type PASSTHROUGH st.1, st.2)
  end.

Definition is_comp_code (code : string) : bool :=
  String.eqb code "G41" || String.eqb code "G42"
  || String.eqb code "G41.1" || String.eqb code "G42.1".

(** [for code in multi_codes: if code in (...): self.cutter_comp_error()] *)
Fixpoint scan_bad_codes (codes : list string) (st : state) : exn_or state :=
  match codes with
  | [] => Ok st
  | code :: rest =>
      st ← (if is_comp_code code then cutter_comp_error st else Ok st);
      scan_bad_codes rest st
  end.

Definition new_CodeLine (line : string) : CodeLine :=
  {| command := None; params := []; comment := ""; raw := line; errors := ∅;
     type := None; is_hole := false; token := "";
     active_g_modal_groups := ∅; cutchart_id := None; hole_builder := None |}.

(** [CodeLine.__init__(line, parent)] *)
Definition CodeLine_init (env : Env) (line : string) (parent : PreProcessor)
    : exn_or state :=
  let st := (new_CodeLine line, parent) in
  let multi_codes := Re.findall re_multi_codes (Str.strip (Str.upper line)) in
  if (1 <? length multi_codes)%nat then
    st ← scan_bad_codes multi_codes (set_type PASSTHROUGH st.1, st.2);
    let f := Re.findall re_tool_m6 (Str.strip (Str.upper line)) in
    if (length f =? 2)%nat then parse_toolchange env true st else Ok st
  else
    st ← scan_tokens (tokens env) line st;
    if is_PASSTHROUGH (type st.1) then parse_XY_line st else Ok st.

(** ** The HiDef interpolator: class [HiDefHole] *)

Module HiDefHole.

Inductive attribute :=
  | k_leadinradius | k_kerf | k_cutheight | k_speed1 | k_speed2
  | k_speed2dist | k_offdistance | k_overcut.

(** An entry of [hole_list]: the keys ['hole'], one per attribute and
    ['amps'], and the [scale_<attribute>] keys every entry but the first
    is given. *)
Record entry := {
  hole : float;
  value : attribute -> float;
  amps : float;
  scale : option (attribute -> float)
}.

Definition of_row (d : DB.hole) : entry :=
  {| hole := DB.hole_size d;
     value := fun a =>
       match a with
       | k_leadinradius => DB.leadin_radius d
       | k_kerf => DB.kerf d
       | k_cutheight => DB.cut_height d
       | k_speed1 => DB.speed1 d
       | k_speed2 => DB.speed2 d
       | k_speed2dist => DB.speed2_distance d
       | k_offdistance => DB.plasma_off_distance d
       | k_overcut => DB.over_cut d
       end;
     amps := DB.amps d;
     scale := None |}.

(** The eight divisions of one turn of the second loop of [__init__]. *)
Definition scaled (prev e : entry) : exn_or entry :=
  let delta := PrimFloat.sub (hole e) (hole prev) in
  s_leadinradius ← Py.div (value e k_leadinradius) delta;
  s_kerf ← Py.div (value e k_kerf) delta;
  s_cutheight ← Py.div (value e k_cutheight) delta;
  s_speed1 ← Py.div (value e k_speed1) delta;
  s_speed2 ← Py.div (value e k_speed2) delta;
  s_speed2dist ← Py.div (value e k_speed2dist) delta;
  s_offdistance ← Py.div (value e k_offdistance) delta;
  s_overcut ← Py.div (value e k_overcut) delta;
  Ok {| hole := hole e; value := value e; amps := amps e;
        scale := Some (fun a =>
          match a with
          | k_leadinradius => s_leadinradius
          | k_kerf => s_kerf
          | k_cutheight => s_cutheight
          | k_speed1 => s_speed1
          | k_speed2 => s_speed2
          | k_speed2dist => s_speed2dist
          | k_offdistance => s_offdistance
          | k_overcut => s_overcut
          end) |}.

(** [for i in range(len(self.hole_list)): if i > 0: ...], [prev] being the
    entry before the ones left. *)
Fixpoint scale_from (prev : entry) (es : list entry) : exn_or (list entry) :=
  match es with
  | [] => Ok []
  | e :: es' =>
      e' ← scaled prev e;
      rest ← scale_from e es';
      Ok (e' :: rest)
  end.

(** [HiDefHole.__init__(data_list)]: the value of [self.hole_list]. *)
Definition init (data_list : list DB.hole) : exn_or (list entry) :=
  match of_row <$> data_list with
  | [] => Ok []
  | e0 :: es => rest ← scale_from e0 es; Ok (e0 :: rest)
  end.

(** [for i in range(1, len(self.hole_list)): ...], [prev] being
    [hole_list[i-1]] and [es] the entries from [i] on. [None] is Python's. *)
Fixpoint lookup_from (a : attribute) (holesize : float) (prev : entry)
    (es : list entry) : exn_or (option float) :=
  match es with
  | [] => Ok None
  | e :: es' =>
      if PrimFloat.leb (hole prev) holesize && PrimFloat.leb holesize (hole e) then
        sc ← of_option KeyError (scale e);
        Ok (Some (PrimFloat.mul holesize (sc a)))
      else lookup_from a holesize e es'
  end.

Definition get_attribute (hole_list : list entry) (a : attribute)
    (holesize : float) : exn_or (option float) :=
  match hole_list with
  | [] => Ok None
  | e0 :: es => lookup_from a holesize e0 es
  end.

Definition leadin_radius hl holesize := get_attribute hl k_leadinradius holesize.
Definition kerf hl holesize := get_attribute hl k_kerf holesize.
Definition cut_height hl holesize := get_attribute hl k_cutheight holesize.
Definition speed1 hl holesize := get_attribute hl k_speed1 holesize.
Definition speed2 hl holesize := get_attribute hl k_speed2 holesize.
Definition speed2_distance hl holesize := get_attribute hl k_speed2dist holesize.
Definition plasma_off_distance hl holesize := get_attribute hl k_offdistance holesize.
Definition overcut hl holesize := get_attribute hl k_overcut holesize.

End HiDefHole.

(** ** The hole and lead-in generator: class [HoleBuilder] *)

Local Open Scope float_scope.

Definition new_HoleBuilder : HoleBuilder := {| torch_on := None; elements := [] |}.

Definition degrees (rad : float) : float := rad * (180 / math_pi).

Definition line_length (env : Env) (x1 y1 x2 y2 : float) : exn_or float :=
  a ← Py.sq (libm_pow env) (x2 - x1);
  b ← Py.sq (libm_pow env) (y2 - y1);
  let s := a + b in
  if s <? 0 then Raise ValueError else Ok (sqrt s).

Definition create_ccw_arc_gcode (x y rx ry : float) : element :=
  {| e_code := Some "G3"; e_xy := Some (x, y); e_ij := Some (rx, ry) |}.

Definition create_cw_arc_gcode (x y rx ry : float) : element :=
  {| e_code := Some "G2"; e_xy := Some (x, y); e_ij := Some (rx, ry) |}.

Definition create_line_gcode (x y : float) (rapid : bool) : element :=
  {| e_code := Some (if rapid then "G0" else "G1"); e_xy := Some (x, y);
     e_ij := None |}.

Definition code_only (c : option string) : element :=
  {| e_code := c; e_xy := None; e_ij := None |}.

(** [create_cut_on_off_gcode(cut_on)], [spindle] at its default 0. *)
Definition create_cut_on_off_gcode (cut_on : bool) : element :=
  code_only (Some (if cut_on then "M3 $0" else "M5 $-1")).

Definition create_kerf_off_gcode : element := code_only (Some "G40").

Definition create_comment (txt : string) : element :=
  code_only (Some ("(" +:+ txt +:+ ")")).

Definition create_debug_comment (txt : string) : element :=
  code_only (if DEBUG_COMMENTS then Some txt else None).

Definition create_dwell (t : float) : element :=
  code_only (Some ("G4 P" +:+ Py.repr t)).

(** [f"F{r}"]: the feed rate may be [None]. *)
Definition create_feed (r : option float) : element :=
  code_only (Some ("F" +:+ match r with Some v => Py.repr v | None => "None" end)).

Definition create_absolute_arc : element := code_only (Some "G90.1").
Definition create_relative_arc : element := code_only (Some "G91.1").
Definition create_thc_off_synch : element := code_only (Some "M62 P2").
Definition create_thc_on_synch : element := code_only (Some "M63 P2").
Definition create_marking_voltage_wait : element := code_only (Some "M66 P3 L3 Q10").

Definition str_opt (c : option string) : string :=
  match c with Some s => s | None => "None" end.

Definition element_to_gcode_line (env : Env) (e : element) : exn_or string :=
  let fmt := Py.format_fixed (PRECISION env) in
  match e_ij e, e_xy e with
  | Some (i, j), Some (x, y) =>
      Ok (str_opt (e_code e) +:+ " x" +:+ fmt x +:+ " y" +:+ fmt y
            +:+ " i" +:+ fmt i +:+ " j" +:+ fmt j)
  | Some _, None => Raise KeyError
  | None, Some (x, y) =>
      Ok (str_opt (e_code e) +:+ " x" +:+ fmt x +:+ " y" +:+ fmt y)
  | None, None => Ok (str_opt (e_code e))
  end.

(** [self.elements.append(e)] *)
Definition append (e : element) (self : HoleBuilder) : HoleBuilder :=
  {| torch_on := torch_on self; elements := (elements self ++ [e])%list |}.

(** [self.elements.append(self.create_cut_on_off_gcode(cut_on))]: creating
    the element records the state of the torch. *)
Definition append_cut_on_off (cut_on : bool) (self : HoleBuilder) : HoleBuilder :=
  {| torch_on := Some cut_on;
     elements := (elements self ++ [create_cut_on_off_gcode cut_on])%list |}.

Definition clear_elements (self : HoleBuilder) : HoleBuilder :=
  {| torch_on := torch_on self; elements := [] |}.

(** A run of statements on the builder, first to last. *)
Definition run (ops : list (HoleBuilder -> HoleBuilder)) (self : HoleBuilder)
    : HoleBuilder :=
  fold_left (fun b op => op b) ops self.

Definition plasma_mark (parent : PreProcessor) (x y time : float)
    (self : HoleBuilder) : HoleBuilder :=
  let feed_rate := get_active_feedrate parent in
  run [ clear_elements;
        append (create_comment "---- Marking Start ----");
        append (create_feed feed_rate);
        append (create_line_gcode x y true);
        append_cut_on_off true;
        append (create_line_gcode (x + 0x1.0624dd2f1a9fcp-10 (* 0.001 *)) y false);
        append create_marking_voltage_wait;
        append (create_dwell time);
        append_cut_on_off false;
        append (create_comment "---- Marking End ----") ] self.

(** [feed_rate * hal.get_value(pin)/100]: without an active process the
    feed rate is [None] and the product a [TypeError]. *)
Definition feed_percent (feed_rate : option float) (percent : float) : exn_or float :=
  f ← of_option TypeError feed_rate;
  Ok (f * percent / 100).

(** [math.cos] and [math.sin]: a [ValueError] at an infinity. *)
Definition py_cos (env : Env) (x : float) : exn_or float :=
  if is_infinity x then Raise ValueError else Ok (math_cos env x).
Definition py_sin (env : Env) (x : float) : exn_or float :=
  if is_infinity x then Raise ValueError else Ok (math_sin env x).

(** [for spt in splits: split_angles.append(float(spt) / float(r))] *)
Fixpoint split_angles_of (splits : list float) (r : float) : exn_or (list float) :=
  match splits with
  | [] => Ok []
  | spt :: rest =>
      this_ang ← Py.div spt r;
      angs ← split_angles_of rest r;
      Ok (this_ang :: angs)
  end.

(** The body of [for sang in split_angles], [sector_num] counting the turns. *)
Fixpoint sectors (env : Env) (angles : list float) (sector_num : nat)
    (x y r arc1_feed arc2_feed arc3_feed : float) (self : HoleBuilder)
    : exn_or HoleBuilder :=
  match angles with
  | [] => Ok self
  | sang :: rest =>
      let full_circle := math_pi * 2 in
      let degs90 := math_pi / 2 in
      let end_angle := sang in
      c ← py_cos env (end_angle + degs90);
      s ← py_sin env (end_angle + degs90);
      let at_top := (sang =? full_circle) || (sang =? 0) in
      let end_x := if at_top then x else x + r * c in
      let end_y := if at_top then y + r else y + r * s in
      let self :=
        run [ append (create_debug_comment
                ("Settings: angle = " +:+ Py.repr sang +:+ " end_angle "
                 +:+ Py.repr end_angle +:+ " radians "
                 +:+ Py.repr (degrees end_angle) +:+ " degrees"));
              append (create_debug_comment ("Arc length = " +:+ Py.repr (r * sang)));
              append (create_comment
                ("Sector number: " +:+ Py.str_int (Z.of_nat sector_num))) ] self in
      let self :=
        match sector_num with
        | 0%nat => append (create_feed (Some arc1_feed)) self
        | 1%nat => append (create_feed (Some arc2_feed)) self
        | 2%nat => append (create_feed (Some arc3_feed)) (append_cut_on_off false self)
        | _ => self
        end in
      sectors env rest (S sector_num) x y r arc1_feed arc2_feed arc3_feed
        (append (create_ccw_arc_gcode end_x end_y x y) self)
  end.

Definition half_kerf_comment : string :=
  "1/2 Kerf > Hole Radius.  Smart Hole processing skipped.".

(** [plasma_hole(line, x, y, d, kerf, leadin_radius, splits, hidef)]; the
    line gives its parent's feed rate and its modal snapshot. *)
Definition plasma_hole (env : Env) (parent : PreProcessor) (line : CodeLine)
    (x y d kerf leadin_radius : float) (splits : list float) (hidef : bool)
    (self : HoleBuilder) : exn_or HoleBuilder :=
  let feed_rate := get_active_feedrate parent in
  arc1_feed ← feed_percent feed_rate (Hal.plasma_arc1_percent (hal env));
  arc2_feed ← feed_percent feed_rate (Hal.plasma_arc2_percent (hal env));
  arc3_feed ← feed_percent feed_rate (Hal.plasma_arc3_percent (hal env));
  leadin_feed ← feed_percent feed_rate (Hal.plasma_leadin_percent (hal env));
  grp7 ← of_option KeyError (active_g_modal_groups line !! 7%Z);
  let g40 := String.eqb grp7 "G40" in
  let r := d / 2 in
  let kc := kerf / 2 in
  if r <? kc then
    Ok (append (create_comment half_kerf_comment) (clear_elements self))
  else
    split_angles ← split_angles_of splits r;
    let r := if g40 then r else r - kc in
    let leadin_radius := if g40 then leadin_radius else leadin_radius - kc in
    let arc_x0 := x in
    let arc_y0 := y + r in
    let self := clear_elements self in
    grp4 ← of_option KeyError (active_g_modal_groups line !! 4%Z);
    let self := if String.eqb grp4 "G91.1" then append create_absolute_arc self else self in
    let self := if hidef then append (create_comment "---- HiDef Hole ----") self else self in
    let self :=
      run [ append (create_debug_comment
              ("Hole Center x=" +:+ Py.repr x +:+ " y=" +:+ Py.repr y
               +:+ " r=" +:+ Py.repr r +:+ " leadin_r=" +:+ Py.repr leadin_radius));
            append (create_debug_comment
              ("First point on hole: x=" +:+ Py.repr arc_x0 +:+ " y=" +:+ Py.repr arc_y0));
            append (create_debug_comment "Leadin...") ] self in
    let centre_to_leadin_diam_gap := abs (arc_y0 - (2 * leadin_radius) - y) in
    let self :=
      run [ append (create_feed (Some leadin_feed));
            append create_thc_off_synch ] self in
    let gap_comment :=
      create_debug_comment ("Half circle radius. Centre-to-Leadin-Gap="
                            +:+ Py.repr centre_to_leadin_diam_gap) in
    let self :=
      if (leadin_radius <? 0) || (r - kc <=? leadin_radius) then
        run [ append (create_debug_comment "too small");
              append (create_line_gcode x y true);
              append create_kerf_off_gcode;
              append_cut_on_off true;
              append (create_line_gcode arc_x0 arc_y0 false) ] self
      else if leadin_radius <=? r / 2 then
        let self :=
          run [ append (create_debug_comment "Half circle radius");
                append gap_comment ] self in
        if centre_to_leadin_diam_gap <? kerf then
          run [ append (create_debug_comment "... single arc");
                append (create_line_gcode x y true);
                append create_kerf_off_gcode;
                append_cut_on_off true;
                append (create_line_gcode x (arc_y0 - 2 * leadin_radius) false);
                append (create_ccw_arc_gcode arc_x0 arc_y0 x (arc_y0 - leadin_radius)) ]
              self
        else
          run [ append (create_debug_comment "... double back arc");
                append (create_line_gcode x y true);
                append create_kerf_off_gcode;
                append_cut_on_off true;
                append (create_cw_arc_gcode x (y + centre_to_leadin_diam_gap)
                          x (y + centre_to_leadin_diam_gap / 2));
                append (create_ccw_arc_gcode arc_x0 arc_y0 x (arc_y0 - leadin_radius)) ]
              self
      else
        let self :=
          run [ append (create_debug_comment "Greater then Half circle radius");
                append gap_comment ] self in
        if centre_to_leadin_diam_gap <? kerf then
          run [ append (create_debug_comment "... single arc");
                append (create_line_gcode x y true);
                append create_kerf_off_gcode;
                append_cut_on_off true;
                append (create_line_gcode x (y - centre_to_leadin_diam_gap) false);
                append (create_ccw_arc_gcode arc_x0 arc_y0 x (arc_y0 - leadin_radius)) ]
              self
        else
          run [ append (create_debug_comment "... double back arc");
                append (create_line_gcode x y true);
                append create_kerf_off_gcode;
                append_cut_on_off true;
                append (create_ccw_arc_gcode x (y - centre_to_leadin_diam_gap)
                          x (y - centre_to_leadin_diam_gap / 2));
                append (create_ccw_arc_gcode arc_x0 arc_y0 x (arc_y0 - leadin_radius)) ]
              self in
    let self := append (create_comment "Hole...") self in
    self ←
      match split_angles with
      | _ :: _ => sectors env split_angles 0 x y r arc1_feed arc2_feed arc3_feed self
      | [] =>
          Ok (run [ append (create_ccw_arc_gcode (x - r) y x y);
                    append (create_ccw_arc_gcode x (y - r) x y);
                    append (create_ccw_arc_gcode (x + r) y x y);
                    append (create_ccw_arc_gcode x (y + r) x y) ] self)
      end;
    torch ← of_option NameError (torch_on self);
    let self := if (torch : bool) then append_cut_on_off false self else self in
    let self :=
      run [ append create_thc_on_synch;
            append (create_feed feed_rate) ] self in
    Ok (if String.eqb grp4 "G91.1" then append create_relative_arc self else self).

(** [generate_hole_gcode]: the lines printed. *)
Fixpoint generate_hole_gcode (env : Env) (es : list element) : exn_or (list string) :=
  match es with
  | [] => Ok []
  | e :: es' =>
      match e_code e with
      | Some _ =>
          l ← element_to_gcode_line env e;
          ls ← generate_hole_gcode env es';
          Ok (l :: ls)
      | None => generate_hole_gcode env es'
      end
  end.

(** ** The program parser: [PreProcessor.parse] *)

Definition new_PreProcessor (env : Env) : PreProcessor :=
  {| _parsed := []; active_g_modal_grps := ∅; active_m_modal_grps := ∅;
     active_cutchart := None; active_feedrate := None; active_thickness := None;
     active_machineid := None; active_thicknessid := None;
     active_materialid := None;
     UNITS_PER_MM := UNITS_PER_MM_init env; stderr := [] |}.

Fixpoint code_in (gcode : string) (codes : list string) : bool :=
  match codes with
  | [] => false
  | c :: codes' => String.eqb gcode c || code_in gcode codes'
  end.

(** [for g_modal_grp in G_MODAL_GROUPS: ...; break] *)
Fixpoint set_modal_in (groups : list (Z * list string)) (gcode : string)
    (grps : gmap Z string) : gmap Z string :=
  match groups with
  | [] => grps
  | (g_modal_grp, codes) :: rest =>
      if code_in gcode codes then <[g_modal_grp := gcode]> grps
      else set_modal_in rest gcode grps
  end.

Definition set_active_g_modal (gcode : string) (self : PreProcessor) : PreProcessor :=
  set_g_modal_grps (set_modal_in G_MODAL_GROUPS gcode (active_g_modal_grps self)) self.

Definition active_motion_code (self : PreProcessor) : option string :=
  active_g_modal_grps self !! 1%Z.

(** One turn of the loop of [parse]. *)
Definition parse_line (env : Env) (line : string) (self : PreProcessor)
    : exn_or PreProcessor :=
  let _line := Str.strip line in
  '(l, self) ← CodeLine_init env _line self;
  let self := set_active_g_modal (token l) self in
  let l := save_g_modal_group (active_g_modal_grps self) l in
  Ok (set_parsed (_parsed self ++ [l])%list self).

Fixpoint parse_lines (env : Env) (lines : list string) (self : PreProcessor)
    : exn_or PreProcessor :=
  match lines with
  | [] => Ok self
  | line :: rest => self ← parse_line env line self; parse_lines env rest self
  end.

(** [parse], [_orig_gcode] being the lines read from the file. *)
Definition parse (env : Env) (_orig_gcode : list string) (self : PreProcessor)
    : exn_or PreProcessor :=
  parse_lines env _orig_gcode
    (set_active_g_modal "G40" (set_active_g_modal "G91.1" self)).

(** ** The hole detector: [PreProcessor.flag_holes] *)

Definition in_motion (g : string) : bool :=
  code_in g ["G0"; "G1"; "G2"; "G3"].

(** [for j in range(i-1, -1, -1)]: the value of [axis] on the nearest line
    before the arc that sets it under a motion code, [prevs] being the lines
    before the arc, nearest first. [None]: the loop ends without a [break]
    and leaves the local variable as it was. *)
Fixpoint last_position (axis : string) (prevs : list CodeLine)
    : exn_or (option float) :=
  match prevs with
  | [] => Ok None
  | prev :: rest =>
      match dict_get axis (params prev) with
      | Some v =>
          g ← of_option KeyError (active_g_modal_groups prev !! 1%Z);
          if in_motion g then Ok (Some v) else last_position axis rest
      | None => last_position axis rest
      end
  end.

Definition set_line_type (t : Commands) (j : nat) (ls : list CodeLine)
    : list CodeLine :=
  alter (set_type t) j ls.

Definition modal_G0 (g : string) : bool := String.eqb g "G0".

(** The backward scan of a replaced hole, from line [j] down to line 0; the
    list holds the lines [0..j]. *)
Fixpoint remove_back (j : nat) (found_m3 : bool) (ls : list CodeLine)
    : list CodeLine :=
  match ls !! j with
  | None => ls
  | Some prev =>
      let m3 := Str.startswith "M3" (token prev) in
      let found_m3 := found_m3 || m3 in
      let ls := if m3 then set_line_type REMOVE j ls else ls in
      let ls := if found_m3 then ls else set_line_type REMOVE j ls in
      match active_g_modal_groups prev !! 1%Z with
      | None => ls
      | Some g =>
          if negb (modal_G0 g) && found_m3 then ls
          else
            let ls := if modal_G0 g then set_line_type REMOVE j ls else ls in
            match j with
            | O => ls
            | S j' => remove_back j' found_m3 ls
            end
      end
  end.

(** The forward scan, over the lines after the hole. *)
Fixpoint remove_forward (nexts : list CodeLine) : list CodeLine :=
  match nexts with
  | [] => []
  | next :: rest =>
      set_type REMOVE next ::
        (if Str.startswith "M5" (token next) then rest else remove_forward rest)
  end.

(** Both scans around line [i]. *)
Definition remove_around (i : nat) (ls : list CodeLine) : list CodeLine :=
  let ls :=
    match i with
    | O => ls
    | S j => remove_back j false ls
    end in
  (take (S i) ls ++ remove_forward (drop (S i) ls))%list.

Record geometry := {
  centre_x : float;
  centre_y : float;
  radius : float;
  diameter : float;
  circumferance : float
}.

(** The local variables [lastx] and [lasty] of [flag_holes]: unbound
    ([None]) until a scan finds a position, and kept from one arc to the
    next. *)
Definition cursor : Type := option float * option float.

(** Lines 939-959: the scans for the cursor, the end point of the arc and
    the test [endx == lastx and endy == lasty]. The result is the value given
    to [line.is_hole] with the end point and the cursor after the scans. *)
Definition hole_test (parsed : list CodeLine) (i : nat) (line : CodeLine)
    (cur : cursor) : exn_or (bool * (float * float) * cursor) :=
  let prevs := reverse (take i parsed) in
  fx ← last_position "X" prevs;
  let lastx := match fx with Some v => Some v | None => cur.1 end in
  fy ← last_position "Y" prevs;
  let lasty := match fy with Some v => Some v | None => cur.2 end in
  endx ← match dict_get "X" (params line) with
         | Some v => Ok v
         | None => of_option NameError lastx
         end;
  endy ← match dict_get "Y" (params line) with
         | Some v => Ok v
         | None => of_option NameError lasty
         end;
  lx ← of_option NameError lastx;
  hole ← (if endx =? lx then ly ← of_option NameError lasty; Ok (endy =? ly)
          else Ok false);
  Ok (hole, (endx, endy), (lastx, lasty)).

(** Lines 966-972: the geometry of a flagged arc. *)
Definition hole_geometry (env : Env) (line : CodeLine) (endx endy : float)
    : exn_or geometry :=
  arc_i ← of_option KeyError (dict_get "I" (params line));
  arc_j ← of_option KeyError (dict_get "J" (params line));
  let centre_x := endx + arc_i in
  let centre_y := endy + arc_j in
  radius ← line_length env centre_x centre_y endx endy;
  let diameter := 2 * abs radius in
  Ok {| centre_x := centre_x; centre_y := centre_y; radius := radius;
        diameter := diameter; circumferance := diameter * math_pi |}.

(** The HiDef values of one hole, all eight of them looked up. *)
Record hidef_values := {
  hidef_leadin : float;
  hidef_kerf : float;
  hidef_cutheight : float;
  hidef_speed1 : float;
  hidef_speed2 : float;
  hidef_speed2dist : float;
  hidef_offdistance : float;
  hidef_overcut : float
}.

(** Lines 975-999: [Some] values when [hidef] is set to [True]. *)
Definition hidef_lookup (env : Env) (self : PreProcessor) (diameter : float)
    : exn_or (option hidef_values) :=
  let hidef_data :=
    DB.hidef_holes (PLASMADB env) (active_machineid self)
      (active_materialid self) (active_thicknessid self) in
  if (0 <? length hidef_data)%nat then
    hidef_hole ← HiDefHole.init hidef_data;
    leadin ← HiDefHole.leadin_radius hidef_hole diameter;
    kerf ← HiDefHole.kerf hidef_hole diameter;
    cutheight ← HiDefHole.cut_height hidef_hole diameter;
    speed1 ← HiDefHole.speed1 hidef_hole diameter;
    speed2 ← HiDefHole.speed2 hidef_hole diameter;
    speed2dist ← HiDefHole.speed2_distance hidef_hole diameter;
    offdistance ← HiDefHole.plasma_off_distance hidef_hole diameter;
    overcut ← HiDefHole.overcut hidef_hole diameter;
    match leadin, kerf, cutheight, speed1, speed2, speed2dist, offdistance, overcut with
    | Some a, Some b, Some c, Some d, Some e, Some f, Some g, Some h =>
        Ok (Some {| hidef_leadin := a; hidef_kerf := b; hidef_cutheight := c;
                    hidef_speed1 := d; hidef_speed2 := e; hidef_speed2dist := f;
                    hidef_offdistance := g; hidef_overcut := h |})
    | _, _, _, _, _, _, _, _ => Ok None
    end
  else Ok None.

(** The settings [flag_holes] reads from the pins before its loop. *)
Record hole_settings := {
  thickness_ratio : float;
  max_hole_size : float;
  arc2_distance : float;
  arc3_distance : float;
  leadin_radius : float;
  kerf_width : float;
  torch_off_distance_before_zero : float;
  small_hole_size : float;
  small_hole_detect : bool;
  marking_delay : float
}.

Definition read_settings (env : Env) (self : PreProcessor) : hole_settings :=
  let u := UNITS_PER_MM self in
  let h := hal env in
  {| thickness_ratio := Hal.plasma_hole_thickness_ratio h;
     max_hole_size := Hal.plasma_max_hole_size h / u;
     arc2_distance := Hal.plasma_arc2_distance h / u;
     arc3_distance := Hal.plasma_arc3_distance h / u;
     leadin_radius := Hal.plasma_leadin_radius h / u;
     kerf_width := Hal.param_kirfwidth h / u;
     torch_off_distance_before_zero := Hal.plasma_torch_off_distance h / u;
     small_hole_size :=
       if Hal.plasma_small_hole_detect h
       then Hal.plasma_small_hole_threshold h / u else 0;
     small_hole_detect := Hal.plasma_small_hole_detect h;
     marking_delay := Hal.spot_delay h |}.

(** What is done with a flagged hole. *)
Inductive strategy :=
  | MarkPulse
  | HiDefSmartHole (v : hidef_values)
  | SmartHole (this_hole_leadin_radius : float)
  | Unmodified.

(** Lines 1001, 1033, 1073 and 1128: the [if]/[elif] chain. Without an
    active process [self.active_thickness] is [None] and the product of the
    third test a [TypeError]. *)
Definition select_strategy (cfg : hole_settings) (self : PreProcessor)
    (g : geometry) (hidef : option hidef_values) : exn_or strategy :=
  if (diameter g <? small_hole_size cfg) && small_hole_detect cfg then Ok MarkPulse
  else
    match hidef with
    | Some v => Ok (HiDefSmartHole v)
    | None =>
        thick ← of_option TypeError (active_thickness self);
        if (diameter g <=? thick * thickness_ratio cfg)
           || (diameter g <=? max_hole_size cfg / UNITS_PER_MM self)
        then
          Ok (SmartHole
                (if leadin_radius cfg =? 0
                 then radius g - (radius g / 4) - (kerf_width cfg / 2)
                 else leadin_radius cfg))
        else Ok Unmodified
    end.

(** The three segment lengths handed to [plasma_hole]. *)
Definition splits_of (circ dist2 off over : float) : list float :=
  let arc1_distance := circ - dist2 - off in
  let arc2_from_zero := arc1_distance + dist2 in
  let arc3_from_zero := arc2_from_zero + over - circ in
  [arc1_distance; arc2_from_zero; arc3_from_zero].

(** The builder of a strategy, [None] when the line is left as it is. *)
Definition build_hole (env : Env) (cfg : hole_settings) (self : PreProcessor)
    (line : CodeLine) (g : geometry) (s : strategy) : exn_or (option HoleBuilder) :=
  match s with
  | MarkPulse =>
      Ok (Some (plasma_mark self (centre_x g) (centre_y g) (marking_delay cfg)
                  new_HoleBuilder))
  | HiDefSmartHole v =>
      b ← plasma_hole env self line (centre_x g) (centre_y g) (diameter g)
            (hidef_kerf v) (hidef_leadin v)
            (splits_of (circumferance g) (hidef_speed2dist v) (hidef_offdistance v)
               (hidef_overcut v))
            true new_HoleBuilder;
      Ok (Some b)
  | SmartHole this_hole_leadin_radius =>
      b ← plasma_hole env self line (centre_x g) (centre_y g) (diameter g)
            (kerf_width cfg) this_hole_leadin_radius
            (splits_of (circumferance g) (arc2_distance cfg)
               (torch_off_distance_before_zero cfg) (arc3_distance cfg))
            false new_HoleBuilder;
      Ok (Some b)
  | Unmodified => Ok None
  end.

Definition is_G3 (line : CodeLine) : bool :=
  match command line with
  | Some ("G"%string, AInt 3%Z) => true
  | _ => false
  end.

(** One turn of the [while] loop of [flag_holes], at line [i]. *)
Definition flag_line (env : Env) (cfg : hole_settings) (self : PreProcessor)
    (i : nat) (st : list CodeLine * cursor) : exn_or (list CodeLine * cursor) :=
  let '(parsed, cur) := st in
  match parsed !! i with
  | None => Ok st
  | Some line =>
      if is_G3 line then
        '(hole, (endx, endy), cur) ← hole_test parsed i line cur;
        if (hole : bool) then
          g ← hole_geometry env line endx endy;
          hidef ← hidef_lookup env self (diameter g);
          s ← select_strategy cfg self g hidef;
          b ← build_hole env cfg self line g s;
          match b with
          | Some b =>
              let parsed := <[i := set_hole true (Some b) line]> parsed in
              Ok (remove_around i parsed, cur)
          | None => Ok (<[i := set_hole false None line]> parsed, cur)
          end
        else Ok (<[i := set_hole false (hole_builder line) line]> parsed, cur)
      else Ok st
  end.

Fixpoint flag_from (env : Env) (cfg : hole_settings) (self : PreProcessor)
    (n i : nat) (st : list CodeLine * cursor) : exn_or (list CodeLine * cursor) :=
  match n with
  | O => Ok st
  | S n' => st ← flag_line env cfg self i st; flag_from env cfg self n' (S i) st
  end.

Definition flag_holes (env : Env) (self : PreProcessor) : exn_or PreProcessor :=
  let cfg := read_settings env self in
  '(parsed, _) ← flag_from env cfg self (length (_parsed self)) 0
                    (_parsed self, (None, None));
  Ok (set_parsed parsed self).

(** ** The serializer: [PreProcessor.dump_parsed] *)

Definition str_arg (a : cmdarg) : string :=
  match a with
  | AInt n => Py.str_int n
  | AFloat f => Py.repr f
  | ANone => "None"
  end.

(** [for p in l.params: out += f' {p}{l.params[p]}'] *)
Fixpoint params_text (ps : list (string * float)) : string :=
  match ps with
  | [] => ""
  | (p, v) :: ps' => " " +:+ p +:+ Py.repr v +:+ params_text ps'
  end.

(** The last branch of the chain: the line rebuilt from its parsed fields.
    A line without a command starts from the empty text. *)
Definition rebuild (l : CodeLine) : string :=
  let out :=
    match command l with
    | Some (letter, arg) => letter +:+ str_arg arg
    | None => ""
    end in
  Str.strip (out +:+ params_text (params l) +:+ " " +:+ comment l).

(** The lines one parsed line prints on [sys.stdout]. *)
Definition dump_line (env : Env) (l : CodeLine) : exn_or (list string) :=
  if is_hole l then
    b ← of_option AttributeError (hole_builder l);
    body ← generate_hole_gcode env (elements b);
    Ok (["(---- Smart Hole Start ----)"] ++ body
          ++ ["(---- Smart Hole End ----)"; ""])%list
  else
    match type l with
    | Some COMMENT => Ok [comment l]
    | Some OTHER => Ok ["; >>  " +:+ raw l]
    | Some PASSTHROUGH => Ok [raw l]
    | Some REMOVE => Ok []
    | _ => Ok [rebuild l]
    end.

Fixpoint dump_lines (env : Env) (ls : list CodeLine) : exn_or (list string) :=
  match ls with
  | [] => Ok []
  | l :: ls' =>
      out ← dump_line env l;
      rest ← dump_lines env ls';
      Ok (out ++ rest)%list
  end.

Definition dump_parsed (env : Env) (self : PreProcessor) : exn_or (list string) :=
  dump_lines env (_parsed self).

(** ** [main]: the three passes on the lines of a file. The result is what
    the calls of [print] write on [sys.stdout] and on [sys.stderr]; the
    records of the logger are no part of it. *)
Definition main (env : Env) (lines : list string) : exn_or (list string * list string) :=
  p ← parse env lines (new_PreProcessor env);
  p ← (if Hal.plasma_hole_detect_enable (hal env) then flag_holes env p else Ok p);
  out ← dump_parsed env p;
  Ok (out, stderr p).

(** * Properties *)

#[local] Arguments Ascii.eqb : simpl never.
#[local] Arguments String.eqb : simpl never.
#[local] Arguments Str.is_space : simpl never.
#[local] Arguments Str.is_digit : simpl never.
#[local] Arguments Re.numch : simpl never.

(** ** General facts about results *)

Lemma bind_Ok {A B} (a : A) (k : A -> exn_or B) : (x ← Ok a; k x) = k a.
Proof. reflexivity. Qed.

Lemma bind_inv {A B} (m : exn_or A) (k : A -> exn_or B) (b : B) :
  (x ← m; k x) = Ok b -> exists a, m = Ok a /\ k a = Ok b.
Proof. destruct m as [a|e]; simpl; [eauto | discriminate]. Qed.

Lemma div_inv (x y q : float) : Py.div x y = Ok q -> q = x / y.
Proof. unfold Py.div. destruct (is_zero y); congruence. Qed.

(** Inverts a chain of binds that is known to succeed. *)
Ltac inv_bind H :=
  repeat (let a := fresh "a" in
          let Ha := fresh "Ha" in
          apply bind_inv in H as (a & Ha & H)).

(** ** The HiDef lookup (C3) *)

Module HiDefSpec.
Import HiDefHole.

(** The words of the specification: the value of an attribute on a row. *)
Definition row_value (a : attribute) (d : DB.hole) : float :=
  match a with
  | k_leadinradius => DB.leadin_radius d
  | k_kerf => DB.kerf d
  | k_cutheight => DB.cut_height d
  | k_speed1 => DB.speed1 d
  | k_speed2 => DB.speed2 d
  | k_speed2dist => DB.speed2_distance d
  | k_offdistance => DB.plasma_off_distance d
  | k_overcut => DB.over_cut d
  end.

(** Scale factor of an adjacent pair: the value at the upper row over the
    difference of the hole sizes. *)
Definition scale_factor (a : attribute) (lower upper : DB.hole) : float :=
  row_value a upper / (DB.hole_size upper - DB.hole_size lower).

(** The sizes of the pair bracket the target, bounds included. *)
Definition brackets (lower upper : DB.hole) (target : float) : bool :=
  (DB.hole_size lower <=? target) && (target <=? DB.hole_size upper).

(** Lookup(attribute, targetSize): the first bracketing pair scales the
    target; no pair, no value. *)
Fixpoint lookup (a : attribute) (target : float) (rows : list DB.hole)
    : option float :=
  match rows with
  | [] => None
  | lower :: rest =>
      match rest with
      | [] => None
      | upper :: _ =>
          if brackets lower upper target
          then Some (target * scale_factor a lower upper)
          else lookup a target rest
      end
  end.

Lemma scaled_inv (prev e e' : entry) :
  scaled prev e = Ok e' ->
  hole e' = hole e /\
  exists f, scale e' = Some f /\
            forall a, f a = value e a / (hole e - hole prev).
Proof.
  unfold scaled. intros H. inv_bind H.
  injection H as <-. simpl. split; [reflexivity|].
  eexists; split; [reflexivity|].
  intros []; simpl; auto using div_inv.
Qed.

Lemma lookup_from_spec (a : attribute) (target : float) :
  forall (ds : list DB.hole) (prev : DB.hole) (e0 : entry) (rest : list entry),
    hole e0 = DB.hole_size prev ->
    scale_from (of_row prev) (of_row <$> ds) = Ok rest ->
    lookup_from a target e0 rest = Ok (lookup a target (prev :: ds)).
Proof.
  induction ds as [|d ds IH]; intros prev e0 rest He0 H.
  - injection H as <-. reflexivity.
  - simpl in H. inv_bind H. injection H as <-.
    destruct (scaled_inv _ _ _ Ha) as (Hh & f & Hf & Hfa).
    simpl. unfold brackets. rewrite He0, Hh. simpl.
    destruct ((DB.hole_size prev <=? target) && (target <=? DB.hole_size d)).
    + rewrite Hf. simpl. rewrite Hfa. destruct a; reflexivity.
    + apply IH; [exact Hh | exact Ha0].
Qed.

End HiDefSpec.

(** C3. Whenever the table can be built (no two adjacent rows of the same
    size), [get_attribute] returns the target size times the scale factor --
    value at the upper row over the difference of the sizes -- of the first
    adjacent pair of rows whose sizes bracket the target inclusively, and
    [None] when no pair brackets it. *)
Theorem hidef_lookup_scales_first_bracket :
  forall (rows : list DB.hole) (hole_list : list HiDefHole.entry)
         (a : HiDefHole.attribute) (target : float),
    HiDefHole.init rows = Ok hole_list ->
    HiDefHole.get_attribute hole_list a target
    = Ok (HiDefSpec.lookup a target rows).
Proof.
  intros rows hl a target H. unfold HiDefHole.init in H.
  destruct rows as [|d0 ds]; simpl in H.
  - injection H as <-. reflexivity.
  - inv_bind H. injection H as <-. simpl.
    now apply HiDefSpec.lookup_from_spec.
Qed.

(** The table of the specification's example: sizes 5 and 10, kerf 1.0 and
    2.0 (the other columns are not looked at). *)
Definition example_row (size kerf : float) : DB.hole :=
  {| DB.hole_size := size; DB.leadin_radius := 1; DB.kerf := kerf;
     DB.cut_height := 1; DB.speed1 := 1; DB.speed2 := 1;
     DB.speed2_distance := 1; DB.plasma_off_distance := 1; DB.over_cut := 1;
     DB.amps := 1 |}.

Definition example_rows : list DB.hole := [example_row 5 1; example_row 10 2].

Definition example_hole_list : list HiDefHole.entry :=
  match HiDefHole.init example_rows with
  | Ok hl => hl
  | Raise _ => []
  end.

(** lookup(kerf, 7.5) = 7.5 * (2.0 / 5) = 3.0; nothing outside [5, 10]. *)
Lemma hidef_lookup_example :
  HiDefHole.init example_rows = Ok example_hole_list
  /\ HiDefHole.get_attribute example_hole_list HiDefHole.k_kerf 7.5 = Ok (Some 3)
  /\ HiDefHole.get_attribute example_hole_list HiDefHole.k_kerf 4.5 = Ok None
  /\ HiDefHole.get_attribute example_hole_list HiDefHole.k_kerf 10.5 = Ok None.
Proof.
  pose proof (hidef_lookup_scales_first_bracket example_rows example_hole_list)
    as lookup_is_spec.
  split; [reflexivity|].
  split; [|split]; apply lookup_is_spec; reflexivity.
Defined.

(** ** What the classifier leaves alone *)

(** A method of [CodeLine] never touches the list of parsed lines nor the
    modal groups of its parent. *)
Definition keeps_parsing (h : state -> exn_or state) : Prop :=
  forall st st', h st = Ok st' ->
    _parsed st'.2 = _parsed st.2
    /\ active_g_modal_grps st'.2 = active_g_modal_grps st.2.

Ltac keeps_parsing_tac :=
  intros [self parent] st' H; simpl in H; inv_bind H;
  repeat match type of H with
         | context [match ?x with _ => _ end] => destruct x; simpl in H
         end;
  try discriminate; inv_bind H; try discriminate;
  injection H as <-; simpl; auto.

Lemma parse_comment_keeps : keeps_parsing parse_comment.
Proof. unfold parse_comment. keeps_parsing_tac. Qed.

Lemma parse_inline_comment_keeps : keeps_parsing parse_inline_comment.
Proof. unfold parse_inline_comment. keeps_parsing_tac. Qed.

Lemma parse_passthrough_keeps : keeps_parsing parse_passthrough.
Proof. unfold parse_passthrough. keeps_parsing_tac. Qed.

Lemma parse_linear_keeps : keeps_parsing parse_linear.
Proof. unfold parse_linear. keeps_parsing_tac. Qed.

Lemma parse_XY_line_keeps : keeps_parsing parse_XY_line.
Proof. unfold parse_XY_line. keeps_parsing_tac. Qed.

Lemma parse_arc_keeps : keeps_parsing parse_arc.
Proof. unfold parse_arc. keeps_parsing_tac. Qed.

Lemma parse_feedrate_keeps : keeps_parsing parse_feedrate.
Proof. unfold parse_feedrate. keeps_parsing_tac. Qed.

Lemma set_inches_keeps : keeps_parsing set_inches.
Proof. unfold set_inches. keeps_parsing_tac. Qed.

Lemma set_mms_keeps : keeps_parsing set_mms.
Proof. unfold set_mms. keeps_parsing_tac. Qed.

Lemma cutter_comp_error_keeps : keeps_parsing cutter_comp_error.
Proof. unfold cutter_comp_error. keeps_parsing_tac. Qed.

Lemma placeholder_keeps : keeps_parsing placeholder.
Proof. unfold placeholder. intros st st' [= <-]. auto. Qed.

Lemma parse_toolchange_keeps env combo : keeps_parsing (parse_toolchange env combo).
Proof.
  unfold parse_toolchange. intros [self parent] st' H.
  apply bind_inv in H as ([tool self1] & _ & H).
  destruct (DB.cut_by_id _ _); injection H as <-; simpl; auto.
Qed.

Create HintDb keeps.
#[local] Hint Resolve parse_comment_keeps parse_inline_comment_keeps
  parse_passthrough_keeps parse_linear_keeps parse_XY_line_keeps
  parse_arc_keeps parse_feedrate_keeps set_inches_keeps set_mms_keeps
  cutter_comp_error_keeps placeholder_keeps parse_toolchange_keeps : keeps.

Lemma tokens_keep env :
  Forall (fun entry => keeps_parsing entry.2.2) (tokens env).
Proof.
  unfold tokens.
  repeat (apply Forall_cons_2; [simpl; auto with keeps|]). apply Forall_nil_2.
Qed.

Lemma scan_tokens_keeps toks line :
  Forall (fun entry => keeps_parsing entry.2.2) toks ->
  keeps_parsing (scan_tokens toks line).
Proof.
  induction 1 as [|[k [ty h]] toks Hh _ IH]; intros st st' H; simpl in H.
  - injection H as <-. auto.
  - destruct (token_matches k (Str.upper line)).
    + apply bind_inv in H as (st1 & H1 & H).
      apply Hh in H1. simpl in H1.
      destruct (is_COMMENT (type st1.1)).
      * injection H as <-. exact H1.
      * apply parse_inline_comment_keeps in H. destruct H, H1. split; congruence.
    + apply IH in H. exact H.
Qed.

Lemma scan_bad_codes_keeps codes : keeps_parsing (scan_bad_codes codes).
Proof.
  induction codes as [|code codes IH]; intros st st' H; simpl in H.
  - injection H as <-. auto.
  - apply bind_inv in H as (st1 & H1 & H). apply IH in H.
    destruct (is_comp_code code).
    + apply cutter_comp_error_keeps in H1. destruct H, H1. split; congruence.
    + injection H1 as <-. exact H.
Qed.

Lemma CodeLine_init_keeps env line parent l parent' :
  CodeLine_init env line parent = Ok (l, parent') ->
  _parsed parent' = _parsed parent
  /\ active_g_modal_grps parent' = active_g_modal_grps parent.
Proof.
  unfold CodeLine_init. intros H.
  destruct (1 <? length _)%nat.
  - apply bind_inv in H as (st1 & H1 & H).
    apply scan_bad_codes_keeps in H1. simpl in H1.
    destruct (length _ =? 2)%nat.
    + apply parse_toolchange_keeps in H. simpl in H. destruct H, H1. split; congruence.
    + injection H as ->. exact H1.
  - apply bind_inv in H as (st1 & H1 & H).
    apply (scan_tokens_keeps _ _ (tokens_keep env)) in H1. simpl in H1.
    destruct (is_PASSTHROUGH _).
    + apply parse_XY_line_keeps in H. simpl in H. destruct H, H1. split; congruence.
    + injection H as ->. exact H1.
Qed.

(** ** The parser, line by line *)

(** The command tokens of an input line: the matches of
    [r"G\d+|T\s*\d+|M\d+"] in the stripped, upper-cased text, as [__init__]
    counts them on the line [parse] hands over. *)
Definition command_tokens (line : string) : list string :=
  Re.findall re_multi_codes (Str.strip (Str.upper (Str.strip line))).

(** The modal state [parse] starts from. *)
Definition seeded (env : Env) : PreProcessor :=
  set_active_g_modal "G40" (set_active_g_modal "G91.1" (new_PreProcessor env)).

Lemma set_modal_in_no_token (grps : gmap Z string) :
  set_modal_in G_MODAL_GROUPS "" grps = grps.
Proof. reflexivity. Qed.

Lemma parse_line_step env line self self' :
  parse_line env line self = Ok self' ->
  exists l0 parent',
    CodeLine_init env (Str.strip line) self = Ok (l0, parent')
    /\ active_g_modal_grps self'
       = set_modal_in G_MODAL_GROUPS (token l0) (active_g_modal_grps self)
    /\ _parsed self'
       = (_parsed self ++ [save_g_modal_group (active_g_modal_grps self') l0])%list.
Proof.
  unfold parse_line. intros H.
  apply bind_inv in H as ([l0 parent'] & Hinit & H).
  injection H as <-. exists l0, parent'.
  destruct (CodeLine_init_keeps _ _ _ _ _ Hinit) as [Hp Hg].
  simpl. rewrite Hp, Hg. auto.
Qed.

(** Every input line gives one parsed line, whose snapshot is the modal
    state after the line; the state before it is the snapshot of the line
    above, or the state the parser started from. *)
Lemma parse_lines_nth env :
  forall (lines : list string) (self p : PreProcessor),
    parse_lines env lines self = Ok p ->
    exists ls,
      _parsed p = (_parsed self ++ ls)%list
      /\ length ls = length lines
      /\ forall (i : nat) (line : string),
           lines !! i = Some line ->
           exists before after l,
             parse_line env line before = Ok after
             /\ ls !! i = Some l
             /\ _parsed after = (_parsed before ++ [l])%list
             /\ active_g_modal_groups l = active_g_modal_grps after
             /\ active_g_modal_grps before
                = match i with
                  | O => active_g_modal_grps self
                  | S j => default ∅ (active_g_modal_groups <$> ls !! j)
                  end.
Proof.
  induction lines as [|line0 rest IH]; intros self p H; simpl in H.
  - injection H as <-. exists []. rewrite app_nil_r.
    repeat split; auto. intros i line Hi. discriminate.
  - apply bind_inv in H as (s1 & H1 & H).
    destruct (IH _ _ H) as (ls & Hp & Hlen & Hnth).
    destruct (parse_line_step _ _ _ _ H1) as (l0 & parent' & Hinit & Hg & Hs1).
    exists (save_g_modal_group (active_g_modal_grps s1) l0 :: ls).
    split; [rewrite Hp, Hs1, <- app_assoc; reflexivity|].
    split; [simpl; congruence|].
    intros [|i] line Hi; simpl in Hi.
    + injection Hi as <-. exists self, s1. eexists. repeat split; eauto.
    + destruct (Hnth i line Hi)
        as (before & after & l & Hstep & Hl & Happ & Hsnap & Hbefore).
      exists before, after, l. repeat split; auto.
      rewrite Hbefore. destruct i; reflexivity.
Qed.

(** *** Lines with several commands *)

Definition keeps_token (h : state -> exn_or state) : Prop :=
  forall st st', h st = Ok st' -> token st'.1 = token st.1.

Lemma cutter_comp_error_token : keeps_token cutter_comp_error.
Proof. intros [self parent] st' [= <-]. reflexivity. Qed.

Lemma parse_toolchange_token env combo : keeps_token (parse_toolchange env combo).
Proof.
  unfold parse_toolchange. intros [self parent] st' H.
  apply bind_inv in H as ([tool self1] & H1 & H).
  assert (token self1 = token self) as Hself1.
  { destruct combo; inv_bind H1; injection H1 as _ <-; reflexivity. }
  destruct (DB.cut_by_id _ _); injection H as <-; exact Hself1.
Qed.

Lemma scan_bad_codes_token codes : keeps_token (scan_bad_codes codes).
Proof.
  induction codes as [|code codes IH]; intros st st' H; simpl in H.
  - injection H as <-. reflexivity.
  - apply bind_inv in H as (st1 & H1 & H). apply IH in H. rewrite H.
    destruct (is_comp_code code).
    + now apply cutter_comp_error_token.
    + injection H1 as <-. reflexivity.
Qed.

(** On a line of several commands no token is recorded. *)
Lemma multi_command_no_token env line parent l parent' :
  (1 < length (Re.findall re_multi_codes (Str.strip (Str.upper line))))%nat ->
  CodeLine_init env line parent = Ok (l, parent') ->
  token l = "".
Proof.
  unfold CodeLine_init. intros Hmulti H.
  apply Nat.ltb_lt in Hmulti. rewrite Hmulti in H.
  apply bind_inv in H as (st1 & H1 & H).
  apply scan_bad_codes_token in H1. simpl in H1.
  destruct (length _ =? 2)%nat.
  - apply parse_toolchange_token in H. simpl in H. congruence.
  - injection H as ->. exact H1.
Qed.

(** C9. A line with more than one command token (G-number, T-address or
    M-number) leaves the modal state as it found it, whatever codes it holds,
    and the snapshot saved on the line is the snapshot of the line above (for
    the first line of the file: the state the parser is seeded with). *)
Theorem multi_command_line_keeps_modal_state :
  (forall env line self self',
      (1 < length (command_tokens line))%nat ->
      parse_line env line self = Ok self' ->
      active_g_modal_grps self' = active_g_modal_grps self)
  /\ (forall env lines p i line l,
      parse env lines (new_PreProcessor env) = Ok p ->
      lines !! i = Some line ->
      (1 < length (command_tokens line))%nat ->
      _parsed p !! i = Some l ->
      active_g_modal_groups l
      = match i with
        | O => active_g_modal_grps (seeded env)
        | S j => default ∅ (active_g_modal_groups <$> _parsed p !! j)
        end).
Proof.
  assert (forall env line self self',
      (1 < length (command_tokens line))%nat ->
      parse_line env line self = Ok self' ->
      active_g_modal_grps self' = active_g_modal_grps self) as Hstep.
  { intros env line self self' Hmulti H.
    destruct (parse_line_step _ _ _ _ H) as (l0 & parent' & Hinit & Hg & _).
    rewrite Hg, (multi_command_no_token _ _ _ _ _ Hmulti Hinit).
    apply set_modal_in_no_token. }
  split; [exact Hstep|].
  intros env lines p i line l Hparse Hi Hmulti Hl.
  destruct (parse_lines_nth _ _ _ _ Hparse) as (ls & Hp & _ & Hnth).
  simpl in Hp. rewrite Hp in *.
  destruct (Hnth i line Hi)
    as (before & after & l' & Hline & Hl' & _ & Hsnap & Hbefore).
  assert (l' = l) as -> by congruence.
  rewrite Hsnap, (Hstep _ _ _ _ Hmulti Hline), Hbefore. reflexivity.
Qed.

(** The C library of the examples: [pow] is asked for squares only -- the
    program takes no other power -- and returns the correctly rounded one
    without setting [errno]. *)
Definition exact_square (x _ : float) : float * Z := ((x * x)%float, 0%Z).

(** A metric machine with one cut process, number 1, and no HiDef table.
    No example below runs a split arc, so that [cos] and [sin] are never
    called: the two fields only fill the record. *)
Definition example_pins : Hal.pins :=
  {| Hal.plasma_hole_detect_enable := true;
     Hal.plasma_hole_thickness_ratio := 5;
     Hal.plasma_max_hole_size := 30;
     Hal.plasma_arc1_percent := 60;
     Hal.plasma_arc2_distance := 4;
     Hal.plasma_arc2_percent := 50;
     Hal.plasma_arc3_distance := 3;
     Hal.plasma_arc3_percent := 40;
     Hal.plasma_leadin_percent := 80;
     Hal.plasma_leadin_radius := 0;
     Hal.param_kirfwidth := 0x1.8p+0;
     Hal.plasma_torch_off_distance := 2;
     Hal.plasma_small_hole_detect := false;
     Hal.plasma_small_hole_threshold := 3;
     Hal.spot_threshold := 1;
     Hal.spot_delay := 0x1p-1 |}.

Definition example_cut : DB.cut :=
  {| DB.cut_speed := 2000; DB.thickness := 3; DB.machineid := 1;
     DB.thicknessid := 2; DB.materialid := 3 |}.

Definition example_db : DB.plasmadb :=
  {| DB.cut_by_id := fun n => if (n =? 1)%Z then [example_cut] else [];
     DB.hidef_holes := fun _ _ _ => [] |}.

Definition example_env : Env :=
  {| ini_inch := false; PLASMADB := example_db; hal := example_pins;
     math_cos := fun _ => nan; math_sin := fun _ => nan;
     libm_pow := exact_square |}.

Definition parsed_of (env : Env) (lines : list string) : list CodeLine :=
  match parse env lines (new_PreProcessor env) with
  | Ok p => _parsed p
  | Raise _ => []
  end.

(** [G21 G90 G40] after a move: the units, distance-mode and compensation
    codes of the second line change nothing, its snapshot is the first
    line's. *)
Lemma multi_command_example :
  let lines := ["G1 X0 Y0"; "G21 G90 G40"] in
  (active_g_modal_groups <$> parsed_of example_env lines !! 1%nat)
  = (active_g_modal_groups <$> parsed_of example_env lines !! 0%nat)
  /\ (active_g_modal_groups <$> parsed_of example_env lines !! 1%nat)
     = Some (<[1%Z := "G1"]> (<[4%Z := "G91.1"]> (<[7%Z := "G40"]> ∅))).
Proof.
  intros lines.
  destruct (parse example_env lines (new_PreProcessor example_env)) as [p|e] eqn:Hp;
    [|vm_compute in Hp; discriminate].
  assert (parsed_of example_env lines = _parsed p) as Hparsed.
  { unfold parsed_of. rewrite Hp. reflexivity. }
  destruct (_parsed p !! 1%nat) as [l|] eqn:Hl;
    [|vm_compute in Hp; injection Hp as <-; vm_compute in Hl; discriminate].
  pose proof (proj2 multi_command_line_keeps_modal_state example_env lines p
                1%nat "G21 G90 G40" l Hp eq_refl ltac:(vm_compute; lia) Hl) as Hsnap.
  split.
  - rewrite Hparsed, Hl. simpl. rewrite Hsnap.
    destruct (_parsed p !! 0%nat) eqn:H0; [reflexivity|].
    vm_compute in Hp. injection Hp as <-. vm_compute in H0. discriminate.
  - vm_compute. reflexivity.
Defined.

(** ** Lines no prefix pattern matches *)

(** The keys of [tokens], in order. *)
Definition token_keys : list string :=
  [ "G0"; "G1"; "G20"; "G21"; "G2"; "G3"; "G41"; "G42"; "G41.1"; "G42.1";
    "G40"; "G64"; "M52"; "M3"; "M5"; "M190"; "M66"; "G91.1"; "G90.1"; "F#";
    "F"; "#<holes>"; "#<h_diameter>"; "#<h_velocity>"; "#<oclength>";
    "#<pierce-only>"; ";"; "("; "T" ].

Lemma tokens_keys env : (tokens env).*1 = token_keys.
Proof. reflexivity. Qed.

(** No prefix pattern of the classifier matches the line. *)
Definition matches_no_pattern (line : string) : bool :=
  forallb (fun k => negb (token_matches k (Str.upper line))) token_keys.

(** The letter X or the letter Y. *)
Definition is_XY (c : ascii) : bool := Ascii.eqb c "X" || Ascii.eqb c "Y".

Lemma scan_tokens_unmatched toks line :
  forallb (fun k => negb (token_matches k (Str.upper line))) toks.*1 = true ->
  forall l parent,
    scan_tokens toks line (set_type PASSTHROUGH l, parent)
    = Ok (set_type PASSTHROUGH l, parent).
Proof.
  induction toks as [|[k [ty h]] toks IH]; simpl; intros H l parent.
  - reflexivity.
  - apply andb_prop in H as [Hk H]. apply negb_true_iff in Hk. rewrite Hk.
    exact (IH H l parent).
Qed.

Lemma scan_tokens_no_pattern env line l parent :
  matches_no_pattern line = true ->
  scan_tokens (tokens env) line (l, parent) = Ok (set_type PASSTHROUGH l, parent).
Proof.
  unfold matches_no_pattern. rewrite <- (tokens_keys env). intros H.
  pose proof (scan_tokens_unmatched _ _ H l parent) as Hscan.
  remember (tokens env) as toks eqn:Htoks.
  destruct toks as [|[k [ty h]] toks]; [discriminate Htoks|].
  simpl in *. apply andb_prop in H as [Hk H]. apply negb_true_iff in Hk.
  rewrite Hk in *. exact Hscan.
Qed.

(** *** Where [X[\d\+\.-]*|Y[\d\+\.-]*] finds a word *)

Lemma match_star_some cs k s :
  (forall t, is_Some (k t)) -> is_Some (Re.match_star cs k s).
Proof.
  intros Hk. induction s as [|c s IH]; simpl; [apply Hk|].
  destruct (cs c); [|apply Hk].
  destruct (Re.match_star cs k s); [eauto | apply Hk].
Qed.

Lemma match_seq_one cs p c s :
  Re.match_seq (Re.One cs :: p) (String c s)
  = if cs c then Re.match_seq p s else None.
Proof. reflexivity. Qed.

Lemma match_here_cons p re s :
  Re.match_here (p :: re) s
  = match Re.match_seq p s with
    | Some r => Some (String.length s - String.length r)%nat
    | None => Re.match_here re s
    end.
Proof. reflexivity. Qed.

Lemma match_here_xy c s :
  Re.match_here re_xy (String c s) = None <-> is_XY c = false.
Proof.
  unfold is_XY, re_xy. rewrite !match_here_cons, !match_seq_one.
  unfold Re.chr. rewrite !(Ascii.eqb_sym c).
  assert (is_Some (Re.match_seq [Re.Star Re.numch] s)) as [r Hr].
  { apply match_star_some. simpl. eauto. }
  rewrite Hr.
  destruct (Ascii.eqb "X" c); [split; discriminate|].
  destruct (Ascii.eqb "Y" c); [split; discriminate|].
  simpl. tauto.
Qed.

(** The pattern finds nothing exactly in the texts without the letters X
    and Y. *)
Lemma findall_xy_nil s :
  Re.findall re_xy s = [] <-> Str.contains_char is_XY s = false.
Proof.
  unfold Re.findall. induction s as [|c s IH]; [simpl; tauto|].
  cbn [Re.findall_from Str.contains_char].
  destruct (Re.match_here re_xy (String c s)) as [n|] eqn:Hm.
  - assert (is_XY c = true) as ->.
    { destruct (is_XY c) eqn:Hc; [reflexivity|].
      apply (proj2 (match_here_xy c s)) in Hc. congruence. }
    split; intros H; discriminate H.
  - apply (proj1 (match_here_xy c s)) in Hm. rewrite Hm. exact IH.
Qed.

Lemma contains_lstrip p s :
  (forall c, Str.is_space c = true -> p c = false) ->
  Str.contains_char p (Str.lstrip s) = Str.contains_char p s.
Proof.
  intros Hp. induction s as [|c s IH]; simpl; [reflexivity|].
  destruct (Str.is_space c) eqn:Hc; [|reflexivity].
  rewrite IH, (Hp c Hc). reflexivity.
Qed.

Lemma contains_rstrip p s :
  (forall c, Str.is_space c = true -> p c = false) ->
  Str.contains_char p (Str.rstrip s) = Str.contains_char p s.
Proof.
  intros Hp. induction s as [|c s IH]; simpl; [reflexivity|].
  destruct (Str.rstrip s) as [|c' r] eqn:Hr.
  - simpl in IH. rewrite <- IH, orb_false_r.
    destruct (Str.is_space c) eqn:Hc; simpl; [now rewrite (Hp c Hc)|].
    apply orb_false_r.
  - rewrite <- IH. reflexivity.
Qed.

Lemma contains_strip p s :
  (forall c, Str.is_space c = true -> p c = false) ->
  Str.contains_char p (Str.strip s) = Str.contains_char p s.
Proof.
  intros Hp. unfold Str.strip. now rewrite contains_lstrip, contains_rstrip.
Qed.

Lemma is_XY_not_space c : Str.is_space c = true -> is_XY c = false.
Proof.
  unfold is_XY. intros Hc.
  destruct (Ascii.eqb_spec c "X") as [->|_]; [vm_compute in Hc; discriminate Hc|].
  destruct (Ascii.eqb_spec c "Y") as [->|_]; [vm_compute in Hc; discriminate Hc|].
  reflexivity.
Qed.

(** What [__init__] makes of a single-command line that no pattern matches:
    a [PASSTHROUGH] line handed to [parse_XY_line]. *)
Lemma CodeLine_init_no_pattern env line parent :
  (length (Re.findall re_multi_codes (Str.strip (Str.upper line))) <= 1)%nat ->
  matches_no_pattern line = true ->
  CodeLine_init env line parent
  = parse_XY_line (set_type PASSTHROUGH (new_CodeLine line), parent).
Proof.
  intros Hone Hno. unfold CodeLine_init. cbv zeta.
  apply Nat.ltb_ge in Hone. rewrite Hone.
  rewrite (scan_tokens_no_pattern env line _ _ Hno). reflexivity.
Qed.

(** ** What the hole detector does to the other lines

    [flag_holes] writes [is_hole] and [hole_builder] on G3 lines only; any
    other line is either left as it is or marked [REMOVE]. The command, the
    parameters and the modal snapshot of a line are never written. *)

Definition marked (old new : CodeLine) : Prop :=
  new = old \/ new = set_type REMOVE old.

Definition touched (old new : CodeLine) : Prop :=
  command new = command old
  /\ params new = params old
  /\ active_g_modal_groups new = active_g_modal_groups old
  /\ (is_G3 old = false -> marked old new).

Lemma touched_refl l : touched l l.
Proof. repeat split. now left. Qed.

Lemma is_G3_command l l' : command l' = command l -> is_G3 l' = is_G3 l.
Proof. unfold is_G3. now intros ->. Qed.

Lemma touched_remove old new : touched old new -> touched old (set_type REMOVE new).
Proof.
  intros (Hc & Hp & Hs & Hm). repeat split; auto.
  intros HG. right. destruct (Hm HG) as [->| ->]; reflexivity.
Qed.

Lemma touched_set_hole old new h b :
  touched old new -> is_G3 new = true -> touched old (set_hole h b new).
Proof.
  intros (Hc & Hp & Hs & Hm) HG. repeat split; auto.
  rewrite (is_G3_command _ _ Hc) in HG. congruence.
Qed.

Lemma Forall2_touched_refl ls : Forall2 touched ls ls.
Proof. induction ls; constructor; auto using touched_refl. Qed.

Lemma set_line_type_touched orig ls j :
  Forall2 touched orig ls -> Forall2 touched orig (set_line_type REMOVE j ls).
Proof.
  intros H. apply Forall2_alter_r; [exact H|].
  intros x y _ _. apply touched_remove.
Qed.

Lemma remove_back_touched orig :
  forall j found_m3 ls,
    Forall2 touched orig ls -> Forall2 touched orig (remove_back j found_m3 ls).
Proof.
  induction j as [|j IH]; intros found_m3 ls H; simpl;
    destruct (ls !! _) as [prev|]; auto;
    repeat match goal with
           | |- context [if ?b then _ else _] => destruct b
           | |- context [match ?x with Some _ => _ | None => _ end] => destruct x
           end;
    auto using set_line_type_touched.
Qed.

Lemma remove_forward_touched orig nexts :
  Forall2 touched orig nexts -> Forall2 touched orig (remove_forward nexts).
Proof.
  induction 1 as [|o l orig nexts Hl H IH]; cbn [remove_forward]; constructor.
  - now apply touched_remove.
  - destruct (Str.startswith _ _); assumption.
Qed.

Lemma remove_around_touched orig i ls :
  Forall2 touched orig ls -> Forall2 touched orig (remove_around i ls).
Proof.
  intros H. unfold remove_around.
  assert (Forall2 touched orig
            match i with O => ls | S j => remove_back j false ls end) as H'.
  { destruct i; auto using remove_back_touched. }
  rewrite <- (take_drop (S i) orig).
  apply Forall2_app.
  - now apply Forall2_take.
  - apply remove_forward_touched. now apply Forall2_drop.
Qed.

Lemma insert_touched orig ls i line h b :
  Forall2 touched orig ls -> ls !! i = Some line -> is_G3 line = true ->
  Forall2 touched orig (<[i := set_hole h b line]> ls).
Proof.
  intros H Hi HG.
  apply Forall2_same_length_lookup. split.
  - rewrite length_insert. now apply Forall2_length in H.
  - intros k x y Hx Hy.
    destruct (decide (i = k)) as [<-|Hne].
    + rewrite list_lookup_insert_eq in Hy
        by (apply lookup_lt_Some in Hi; exact Hi).
      injection Hy as <-.
      apply touched_set_hole; [|exact HG].
      eapply Forall2_lookup_lr; eauto.
    + rewrite list_lookup_insert_ne in Hy by exact Hne.
      eapply Forall2_lookup_lr; eauto.
Qed.

Lemma flag_line_touched env cfg self orig i parsed cur parsed' cur' :
  Forall2 touched orig parsed ->
  flag_line env cfg self i (parsed, cur) = Ok (parsed', cur') ->
  Forall2 touched orig parsed'.
Proof.
  intros H Hflag. unfold flag_line in Hflag.
  destruct (parsed !! i) as [line|] eqn:Hi; [|injection Hflag as <- _; exact H].
  destruct (is_G3 line) eqn:HG; [|injection Hflag as <- _; exact H].
  apply bind_inv in Hflag as ([[hole [endx endy]] cur1] & _ & Hflag).
  destruct hole.
  - inv_bind Hflag.
    destruct a2 as [b|]; injection Hflag as <- _.
    + apply remove_around_touched. now apply insert_touched.
    + now apply insert_touched.
  - injection Hflag as <- _. now apply insert_touched.
Qed.

Lemma flag_from_touched env cfg self orig :
  forall n i parsed cur parsed' cur',
    Forall2 touched orig parsed ->
    flag_from env cfg self n i (parsed, cur) = Ok (parsed', cur') ->
    Forall2 touched orig parsed'.
Proof.
  induction n as [|n IH]; intros i parsed cur parsed' cur' H Hflag; simpl in Hflag.
  - injection Hflag as <- _. exact H.
  - apply bind_inv in Hflag as ([parsed1 cur1] & H1 & Hflag).
    eapply IH; [|exact Hflag].
    eapply flag_line_touched; eauto.
Qed.

Lemma flag_holes_touched env p p' :
  flag_holes env p = Ok p' -> Forall2 touched (_parsed p) (_parsed p').
Proof.
  unfold flag_holes. intros H.
  apply bind_inv in H as ([parsed cur] & Hflag & H). injection H as <-.
  eapply flag_from_touched; [apply Forall2_touched_refl | exact Hflag].
Qed.

(** A line that is not a G3 arc comes out of the second pass as it went in,
    or marked for removal. *)
Lemma flag_holes_marks_only env p p' i l :
  flag_holes env p = Ok p' ->
  _parsed p !! i = Some l ->
  is_G3 l = false ->
  exists l', _parsed p' !! i = Some l' /\ marked l l'.
Proof.
  intros Hflag Hl HG.
  destruct (Forall2_lookup_l _ _ _ _ _ (flag_holes_touched _ _ _ Hflag) Hl)
    as (l' & Hl' & _ & _ & _ & Hm).
  eauto.
Qed.

(** The parsed line at the place of input line [i] is the line [parse_line]
    appends, whatever the state it runs in. *)
Lemma parse_nth env lines p i line :
  parse env lines (new_PreProcessor env) = Ok p ->
  lines !! i = Some line ->
  exists before after l,
    parse_line env line before = Ok after
    /\ _parsed p !! i = Some l
    /\ _parsed after = (_parsed before ++ [l])%list.
Proof.
  intros Hparse Hi.
  destruct (parse_lines_nth _ _ _ _ Hparse) as (ls & Hp & _ & Hnth).
  simpl in Hp. rewrite Hp.
  destruct (Hnth i line Hi) as (before & after & l & Hline & Hl & Happ & _).
  eauto 10.
Qed.

(** ** Unrecognized lines (C8) *)

Definition passthrough_line (text : string) (grps : gmap Z string) : CodeLine :=
  save_g_modal_group grps (set_type PASSTHROUGH (new_CodeLine text)).

Lemma parse_line_unrecognized env line self :
  matches_no_pattern (Str.strip line) = true ->
  (length (command_tokens line) <= 1)%nat ->
  Str.contains_char is_XY (Str.upper (Str.strip line)) = false ->
  exists self',
    parse_line env line self = Ok self'
    /\ _parsed self'
       = (_parsed self
          ++ [passthrough_line (Str.strip line) (active_g_modal_grps self)])%list.
Proof.
  intros Hno Hone Hxy. unfold parse_line.
  rewrite (CodeLine_init_no_pattern env _ self Hone Hno).
  unfold parse_XY_line. cbv zeta.
  change (raw (set_type PASSTHROUGH (new_CodeLine (Str.strip line))))
    with (Str.strip line).
  rewrite (proj2 (findall_xy_nil _))
    by (rewrite contains_strip; [exact Hxy | exact is_XY_not_space]).
  destruct self. eexists. split; reflexivity.
Qed.

Lemma dump_marked env l l' out :
  is_hole l = false ->
  dump_line env l = Ok out ->
  marked l l' ->
  dump_line env l' = Ok out \/ dump_line env l' = Ok [].
Proof.
  intros Hh Hd [->| ->]; [left; exact Hd|].
  right. unfold dump_line. simpl. rewrite Hh. reflexivity.
Qed.

(** C8 (amended). An input line that, once stripped, matches no prefix
    pattern of the classifier, holds at most one command token and has no
    letter X or Y, is always classified, and is printed as its text with the
    leading and the trailing whitespace removed; the hole detector, when it
    runs, can only mark the line for removal, and then nothing is printed
    for it. *)
Theorem unrecognized_line_is_printed_stripped :
  forall env lines i line,
    lines !! i = Some line ->
    matches_no_pattern (Str.strip line) = true ->
    (length (command_tokens line) <= 1)%nat ->
    Str.contains_char is_XY (Str.upper (Str.strip line)) = false ->
    (forall self, exists self', parse_line env line self = Ok self')
    /\ (forall p,
          parse env lines (new_PreProcessor env) = Ok p ->
          (exists l, _parsed p !! i = Some l
                     /\ dump_line env l = Ok [Str.strip line])
          /\ (forall p',
                flag_holes env p = Ok p' ->
                exists l', _parsed p' !! i = Some l'
                           /\ (dump_line env l' = Ok [Str.strip line]
                               \/ dump_line env l' = Ok []))).
Proof.
  intros env lines i line Hi Hno Hone Hxy. split.
  - intros self.
    destruct (parse_line_unrecognized env line self Hno Hone Hxy) as (s & Hs & _).
    eauto.
  - intros p Hparse.
    destruct (parse_nth _ _ _ _ _ Hparse Hi) as (before & after & l & Hline & Hl & Happ).
    destruct (parse_line_unrecognized env line before Hno Hone Hxy) as (s & Hs & Hsp).
    assert (s = after) as -> by congruence.
    rewrite Hsp in Happ. apply app_inj_tail in Happ as [_ <-].
    assert (dump_line env (passthrough_line (Str.strip line)
                             (active_g_modal_grps before))
            = Ok [Str.strip line]) as Hdump by reflexivity.
    split; [eauto|].
    intros p' Hflag.
    destruct (flag_holes_marks_only _ _ _ _ _ Hflag Hl eq_refl) as (l' & Hl' & Hm).
    exists l'. split; [exact Hl'|].
    eapply dump_marked; [|exact Hdump|exact Hm]. reflexivity.
Qed.

Definition indented_line : string := "  N10 S100".

(** An indented line: at most one command token, no X or Y, no prefix
    pattern -- and the two leading blanks are gone from the output, which is
    not the input up to trailing whitespace. *)
Lemma leading_whitespace_is_stripped :
  matches_no_pattern indented_line = true
  /\ matches_no_pattern (Str.strip indented_line) = true
  /\ length (command_tokens indented_line) = 0%nat
  /\ Str.contains_char is_XY (Str.upper indented_line) = false
  /\ main example_env [indented_line] = Ok (["N10 S100"], [])
  /\ String.eqb (Str.rstrip indented_line) "N10 S100" = false.
Proof.
  split; [vm_compute; reflexivity|].
  split; [vm_compute; reflexivity|].
  split; [vm_compute; reflexivity|].
  split; [vm_compute; reflexivity|].
  split; vm_compute; reflexivity.
Qed.

(** The parser's result on an example program, [new_PreProcessor] standing
    for a run that raises. *)
Definition parse_of (env : Env) (lines : list string) : PreProcessor :=
  match parse env lines (new_PreProcessor env) with
  | Ok p => p
  | Raise _ => new_PreProcessor env
  end.

Definition spindle_then_indented : list string := ["M3 $0 S1"; indented_line].

Lemma spindle_then_indented_parses :
  parse example_env spindle_then_indented (new_PreProcessor example_env)
  = Ok (parse_of example_env spindle_then_indented).
Proof. vm_compute. reflexivity. Qed.

Lemma unrecognized_line_example :
  exists l,
    _parsed (parse_of example_env spindle_then_indented) !! 1%nat = Some l
    /\ dump_line example_env l = Ok [Str.strip indented_line].
Proof.
  apply (proj2 (unrecognized_line_is_printed_stripped example_env
                  spindle_then_indented 1 indented_line eq_refl
                  ltac:(vm_compute; reflexivity)
                  ltac:(vm_compute; lia)
                  ltac:(vm_compute; reflexivity))
           (parse_of example_env spindle_then_indented)
           spindle_then_indented_parses).
Defined.

(** ** Lines taken for bare X/Y lines (C10) *)

(** The word found by [X[\d\+\.-]*|Y[\d\+\.-]*] is stored when
    [X|Y|[\d\+\.-]+] cuts it in two parts; [word_ok]: the second part, if
    any, is a number [float] reads. [bare_word]: there is no second part. *)
Definition word_ok (tok : string) : bool :=
  match Re.findall re_xy_parts tok with
  | [_; num] => is_ok (Py.to_float num)
  | _ => true
  end.

Definition bare_word (tok : string) : bool :=
  match Re.findall re_xy_parts tok with
  | [_; _] => false
  | _ => true
  end.

(** The X/Y words of a line, as [parse_XY_line] finds them. *)
Definition xy_words (text : string) : list string :=
  Re.findall re_xy (Str.strip (Str.upper text)).

Lemma store_params_xy_spec (l : CodeLine) :
  forall toks ps ty,
    forallb word_ok toks = true ->
    exists ps',
      store_params_xy toks (set_type ty (set_params ps l))
      = Ok (set_type (match toks with [] => ty | _ => XY end) (set_params ps' l))
      /\ (forallb bare_word toks = true -> ps' = ps).
Proof.
  induction toks as [|tok rest IH]; intros ps ty Hok.
  - exists ps. split; reflexivity.
  - cbn [forallb] in Hok. apply andb_prop in Hok as [Htok Hrest].
    cbn [store_params_xy forallb]. unfold word_ok, bare_word in *.
    destruct (Re.findall re_xy_parts tok) as [|p0 [|p1 [|p2 parts]]].
    + destruct (IH ps XY Hrest) as (ps' & Hrun & Hbare).
      exists ps'. split; [destruct rest; exact Hrun|]. intros H. now apply Hbare.
    + destruct (IH ps XY Hrest) as (ps' & Hrun & Hbare).
      exists ps'. split; [destruct rest; exact Hrun|]. intros H. now apply Hbare.
    + destruct (Py.to_float p1) as [v|e]; [|discriminate Htok].
      destruct (IH (dict_set p0 v ps) XY Hrest) as (ps' & Hrun & _).
      exists ps'. split; [destruct rest; exact Hrun|]. discriminate.
    + destruct (IH ps XY Hrest) as (ps' & Hrun & Hbare).
      exists ps'. split; [destruct rest; exact Hrun|]. intros H. now apply Hbare.
Qed.

Definition xy_line (text : string) (ps : list (string * float))
    (grps : gmap Z string) : CodeLine :=
  save_g_modal_group grps (set_type XY (set_params ps (new_CodeLine text))).

Lemma parse_line_xy env line self :
  matches_no_pattern (Str.strip line) = true ->
  (length (command_tokens line) <= 1)%nat ->
  Str.contains_char is_XY (Str.upper (Str.strip line)) = true ->
  forallb word_ok (xy_words (Str.strip line)) = true ->
  exists self' ps,
    parse_line env line self = Ok self'
    /\ _parsed self'
       = (_parsed self ++ [xy_line (Str.strip line) ps (active_g_modal_grps self)])%list
    /\ (forallb bare_word (xy_words (Str.strip line)) = true -> ps = []).
Proof.
  intros Hno Hone Hxy Hok. unfold parse_line.
  rewrite (CodeLine_init_no_pattern env _ self Hone Hno).
  unfold parse_XY_line. cbv zeta.
  change (raw (set_type PASSTHROUGH (new_CodeLine (Str.strip line))))
    with (Str.strip line).
  fold (xy_words (Str.strip line)).
  destruct (store_params_xy_spec (new_CodeLine (Str.strip line))
              (xy_words (Str.strip line)) [] PASSTHROUGH Hok) as (ps & Hrun & Hbare).
  change (set_type PASSTHROUGH (new_CodeLine (Str.strip line)))
    with (set_type PASSTHROUGH (set_params [] (new_CodeLine (Str.strip line)))).
  rewrite Hrun.
  destruct (xy_words (Str.strip line)) as [|tok toks] eqn:Hwords.
  - exfalso. unfold xy_words in Hwords. apply findall_xy_nil in Hwords.
    rewrite contains_strip in Hwords by exact is_XY_not_space. congruence.
  - destruct self. eexists _, ps.
    split; [reflexivity|]. split; [reflexivity | exact Hbare].
Qed.

Lemma dump_xy_line env text ps grps :
  dump_line env (xy_line text ps grps) = Ok [Str.strip (params_text ps +:+ " ")].
Proof. reflexivity. Qed.

(** C10 (amended). A single-command line that no prefix pattern matches and
    whose upper-cased text holds the letter X or Y somewhere is always
    classified, as an XY line, provided every run of digits, signs and dots
    that follows an X or a Y reads as a number; the serializer prints the
    parameters stored and nothing else of the line, so that a line none of
    whose X and Y is followed by such a run becomes the empty line. The hole
    detector can only remove the line. *)
Theorem letter_xy_makes_a_bare_xy_line :
  forall env lines i line,
    lines !! i = Some line ->
    matches_no_pattern (Str.strip line) = true ->
    (length (command_tokens line) <= 1)%nat ->
    Str.contains_char is_XY (Str.upper (Str.strip line)) = true ->
    forallb word_ok (xy_words (Str.strip line)) = true ->
    (forall self, exists self', parse_line env line self = Ok self')
    /\ (forall p,
          parse env lines (new_PreProcessor env) = Ok p ->
          exists l,
            _parsed p !! i = Some l
            /\ type l = Some XY
            /\ dump_line env l = Ok [Str.strip (params_text (params l) +:+ " ")]
            /\ (forallb bare_word (xy_words (Str.strip line)) = true ->
                params l = [] /\ dump_line env l = Ok [""])
            /\ (forall p',
                  flag_holes env p = Ok p' ->
                  exists l', _parsed p' !! i = Some l'
                             /\ (l' = l \/ l' = set_type REMOVE l))).
Proof.
  intros env lines i line Hi Hno Hone Hxy Hok. split.
  - intros self.
    destruct (parse_line_xy env line self Hno Hone Hxy Hok) as (s & ps & Hs & _).
    eauto.
  - intros p Hparse.
    destruct (parse_nth _ _ _ _ _ Hparse Hi) as (before & after & l & Hline & Hl & Happ).
    destruct (parse_line_xy env line before Hno Hone Hxy Hok)
      as (s & ps & Hs & Hsp & Hbare).
    assert (s = after) as -> by congruence.
    rewrite Hsp in Happ. apply app_inj_tail in Happ as [_ <-].
    eexists. split; [exact Hl|]. split; [reflexivity|].
    split; [apply dump_xy_line|]. split.
    + intros H. rewrite (Hbare H). split; reflexivity.
    + intros p' Hflag.
      exact (flag_holes_marks_only _ _ _ _ _ Hflag Hl eq_refl).
Qed.

Definition max_speed_line : string := "N10 (MAX-SPEED)".

(** [X-] of [MAX-SPEED] is taken for an X word and [float('-')] raises: the
    line is not reclassified, the run ends on a [ValueError]. *)
Lemma malformed_xy_word_raises :
  matches_no_pattern max_speed_line = true
  /\ length (command_tokens max_speed_line) = 0%nat
  /\ Str.contains_char is_XY (Str.upper max_speed_line) = true
  /\ xy_words max_speed_line = ["X-"]
  /\ main example_env [max_speed_line] = Raise ValueError.
Proof.
  split; [vm_compute; reflexivity|].
  split; [vm_compute; reflexivity|].
  split; [vm_compute; reflexivity|].
  split; vm_compute; reflexivity.
Qed.

Definition exit_line : string := "S100 (MAX)".
Definition rapid_then_exit : list string := ["G0 X1 Y2"; exit_line; "n20 x1.5 y-2"].

Lemma rapid_then_exit_parses :
  parse example_env rapid_then_exit (new_PreProcessor example_env)
  = Ok (parse_of example_env rapid_then_exit).
Proof. vm_compute. reflexivity. Qed.

(** [S100 (MAX)] is printed as an empty line; [n20 x1.5 y-2] keeps its two
    coordinates and loses its line number. *)
Lemma letter_xy_example :
  (exists l,
     _parsed (parse_of example_env rapid_then_exit) !! 1%nat = Some l
     /\ type l = Some XY /\ dump_line example_env l = Ok [""])
  /\ main example_env rapid_then_exit = Ok (["G0 X1.0 Y2.0"; ""; "X1.5 Y-2.0"], []).
Proof.
  split; [|vm_compute; reflexivity].
  destruct (proj2 (letter_xy_makes_a_bare_xy_line example_env rapid_then_exit
                     1 exit_line eq_refl
                     ltac:(vm_compute; reflexivity)
                     ltac:(vm_compute; lia)
                     ltac:(vm_compute; reflexivity)
                     ltac:(vm_compute; reflexivity))
              (parse_of example_env rapid_then_exit) rapid_then_exit_parses)
    as (l & Hl & Hty & _ & Hbare & _).
  exists l. split; [exact Hl|]. split; [exact Hty|].
  apply Hbare. vm_compute. reflexivity.
Defined.

(** ** Dispatch on the first matching key *)

Lemma startswith_shape p s :
  Str.startswith p s = true -> s = p +:+ Str.drop (String.length p) s.
Proof.
  revert s. induction p as [|a p IH]; intros s H; [reflexivity|].
  destruct s as [|b s]; [discriminate H|]. cbn [Str.startswith] in H.
  destruct (Ascii.eqb_spec a b) as [<-|]; [|discriminate H].
  change (String a s = String a (p +:+ Str.drop (String.length p) s)).
  f_equal. now apply IH.
Qed.

(** The keys that do not match are passed over; all they leave is the type
    [PASSTHROUGH], which the key that matches overwrites. *)
Lemma scan_tokens_skip toks1 toks2 line l parent :
  forallb (fun k => negb (token_matches k (Str.upper line))) toks1.*1 = true ->
  scan_tokens (toks1 ++ toks2) line (l, parent)
  = scan_tokens toks2 line
      (match toks1 with [] => l | _ => set_type PASSTHROUGH l end, parent).
Proof.
  destruct toks1 as [|[k [ty h]] toks1]; [reflexivity|].
  revert k ty h l. induction toks1 as [|[k' [ty' h']] toks1 IH]; intros k ty h l H.
  - change (negb (token_matches k (Str.upper line)) && true = true) in H.
    rewrite andb_true_r in H. apply negb_true_iff in H.
    cbn [app scan_tokens]. now rewrite H.
  - change (negb (token_matches k (Str.upper line))
            && forallb (fun k => negb (token_matches k (Str.upper line)))
                 ((k', (ty', h')) :: toks1).*1 = true) in H.
    apply andb_prop in H as [Hk H]. apply negb_true_iff in Hk.
    change (((k, (ty, h)) :: (k', (ty', h')) :: toks1) ++ toks2)%list
      with ((k, (ty, h)) :: (((k', (ty', h')) :: toks1) ++ toks2))%list.
    cbn [scan_tokens]. rewrite Hk.
    exact (IH k' ty' h' (set_type PASSTHROUGH l) H).
Qed.

Lemma scan_tokens_hit k ty h toks line l parent :
  token_matches k (Str.upper line) = true ->
  scan_tokens ((k, (ty, h)) :: toks) line (l, parent)
  = (st ← h (set_token k (set_type ty l), parent);
     if is_COMMENT (type st.1) then Ok st else parse_inline_comment st).
Proof. intros H. cbn [scan_tokens]. now rewrite H. Qed.

(** *** [parse_inline_comment] never raises *)

Lemma search_comment_get :
  forall s pos i n,
    Re.search_from re_comment s pos = Some (i, n) ->
    (pos <= i)%nat /\ is_Some (String.get (i - pos) s).
Proof.
  induction s as [|c s IH]; intros pos i n H.
  - discriminate H.
  - cbn [Re.search_from] in H.
    destruct (Re.match_here re_comment (String c s)) as [m|].
    + injection H as <- _. rewrite Nat.sub_diag. split; [lia | cbn; eauto].
    + apply IH in H as [Hle Hget]. split; [lia|].
      replace (i - pos)%nat with (S (i - S pos)) by lia. exact Hget.
Qed.

Lemma parse_inline_comment_total st :
  exists c, parse_inline_comment st = Ok (set_comment c st.1, st.2).
Proof.
  destruct st as [self parent]. unfold parse_inline_comment, Re.split1.
  destruct (Re.search re_comment (Str.drop 1 (raw self))) as [[start n]|] eqn:Hs;
    [|eexists; reflexivity].
  destruct (raw self) as [|a r] eqn:Hraw; [discriminate Hs|].
  apply search_comment_get in Hs as [_ [ch Hch]].
  rewrite Nat.sub_0_r in Hch.
  change (String.get (S start) (String a r)) with (String.get start r).
  cbn [Str.drop] in Hch. rewrite Hch.
  eexists. reflexivity.
Qed.

(** ** Cutter compensation (C7) *)

Definition comp_message : string := "ERROR:CUTTER_COMP:INVALID GCODE FOUND".

(** A line the serializer skips and the hole detector does not read. *)
Definition removed_line (l : CodeLine) : Prop :=
  type l = Some REMOVE /\ is_hole l = false /\ command l = None.

Lemma dump_removed env l : removed_line l -> dump_line env l = Ok [].
Proof. intros (Ht & Hh & _). unfold dump_line. now rewrite Hh, Ht. Qed.

Lemma removed_marked l l' : removed_line l -> marked l l' -> removed_line l'.
Proof. intros Hl [->| ->]; [exact Hl|]. destruct Hl as (_ & ? & ?). now split. Qed.

Lemma removed_not_G3 l : removed_line l -> is_G3 l = false.
Proof. intros (_ & _ & Hc). unfold is_G3. now rewrite Hc. Qed.

(** The number of compensation codes among the command tokens of a line. *)
Fixpoint count_comp (codes : list string) : nat :=
  match codes with
  | [] => 0
  | code :: rest => (if is_comp_code code then 1 else 0) + count_comp rest
  end.

Definition starts_with_comp (text : string) : bool :=
  Str.startswith "G41" (Str.upper text) || Str.startswith "G42" (Str.upper text).

(** The test of line 238, [len(f) == 2]: the pattern [T\s*\d+|M6] matches
    exactly twice on the line -- a tool address and an [M6], but two tool
    addresses or two codes that begin with M6 as well. *)
Definition tool_change_pair (line : string) : bool :=
  (length (Re.findall re_tool_m6 (Str.strip (Str.upper (Str.strip line)))) =? 2)%nat.

(** The lines on which the classifier removes a compensation code: a
    single-command line that begins with the code, and a multi-command line
    with a code among its commands on which the test of line 238 fails. *)
Definition comp_detected (line : string) : bool :=
  if (1 <? length (command_tokens line))%nat
  then (0 <? count_comp (command_tokens line))%nat && negb (tool_change_pair line)
  else starts_with_comp (Str.strip line).

Definition comp_occurrences (line : string) : nat :=
  if (1 <? length (command_tokens line))%nat
  then count_comp (command_tokens line)
  else 1.

Lemma parse_line_of_init env line self l0 parent' :
  CodeLine_init env (Str.strip line) self = Ok (l0, parent') ->
  exists self',
    parse_line env line self = Ok self'
    /\ stderr self' = stderr parent'
    /\ exists grps, _parsed self' = (_parsed self ++ [save_g_modal_group grps l0])%list.
Proof.
  intros Hinit. unfold parse_line. rewrite Hinit.
  destruct (CodeLine_init_keeps _ _ _ _ _ Hinit) as [Hp _].
  eexists. split; [reflexivity|]. split; [reflexivity|].
  eexists. cbn. rewrite Hp. reflexivity.
Qed.

Lemma after_comp_error k ty l parent :
  (st ← cutter_comp_error (set_token k (set_type ty l), parent);
   if is_COMMENT (type st.1) then Ok st else parse_inline_comment st)
  = parse_inline_comment
      (set_type REMOVE
         (set_errors (<["compError" := comp_error_text]> (errors l))
            (set_token k (set_type ty l))),
       print_stderr comp_message parent).
Proof. reflexivity. Qed.

Lemma CodeLine_init_comp_prefix env text parent :
  (length (Re.findall re_multi_codes (Str.strip (Str.upper text))) <= 1)%nat ->
  starts_with_comp text = true ->
  exists l0,
    CodeLine_init env text parent = Ok (l0, print_stderr comp_message parent)
    /\ removed_line l0.
Proof.
  intros Hone Hcomp. unfold CodeLine_init. cbv zeta.
  apply Nat.ltb_ge in Hone. rewrite Hone.
  unfold starts_with_comp in Hcomp. apply orb_prop in Hcomp as [H41|H42].
  - apply startswith_shape in H41.
    rewrite <- (take_drop 6 (tokens env)).
    rewrite scan_tokens_skip by (rewrite H41; vm_compute; reflexivity).
    change (drop 6 (tokens env))
      with (("G41", (CUTTER_COMP_LEFT, cutter_comp_error)) :: drop 7 (tokens env)).
    rewrite scan_tokens_hit by (rewrite H41; vm_compute; reflexivity).
    rewrite after_comp_error.
    match goal with
    | |- context [parse_inline_comment ?st] =>
        destruct (parse_inline_comment_total st) as [c ->]
    end.
    eexists. split; [reflexivity|]. repeat split.
  - apply startswith_shape in H42.
    rewrite <- (take_drop 7 (tokens env)).
    rewrite scan_tokens_skip by (rewrite H42; vm_compute; reflexivity).
    change (drop 7 (tokens env))
      with (("G42", (CUTTER_COMP_RIGHT, cutter_comp_error)) :: drop 8 (tokens env)).
    rewrite scan_tokens_hit by (rewrite H42; vm_compute; reflexivity).
    rewrite after_comp_error.
    match goal with
    | |- context [parse_inline_comment ?st] =>
        destruct (parse_inline_comment_total st) as [c ->]
    end.
    eexists. split; [reflexivity|]. repeat split.
Qed.

Lemma scan_bad_codes_spec codes :
  forall l parent,
    exists l' parent',
      scan_bad_codes codes (l, parent) = Ok (l', parent')
      /\ stderr parent' = (stderr parent ++ replicate (count_comp codes) comp_message)%list
      /\ is_hole l' = is_hole l
      /\ command l' = command l
      /\ ((0 < count_comp codes)%nat -> type l' = Some REMOVE).
Proof.
  induction codes as [|code codes IH]; intros l parent.
  - exists l, parent. cbn. rewrite app_nil_r. repeat split; auto. lia.
  - cbn [scan_bad_codes count_comp]. destruct (is_comp_code code).
    + destruct (IH (set_type REMOVE
                      (set_errors (<["compError" := comp_error_text]> (errors l)) l))
                  (print_stderr comp_message parent))
        as (l' & parent' & Hrun & Herr & Hh & Hc & Ht).
      exists l', parent'. split; [exact Hrun|].
      split; [rewrite Herr; cbn; rewrite <- app_assoc; reflexivity|].
      split; [exact Hh|]. split; [exact Hc|].
      intros _. destruct (count_comp codes) eqn:Hn; [|apply Ht; lia].
      destruct codes; [injection Hrun as <- _; reflexivity|].
      clear -Hrun Hn IH.
      assert (forall cs st st', count_comp cs = 0%nat ->
                scan_bad_codes cs st = Ok st' -> st' = st) as Hnone.
      { induction cs as [|c cs IHcs]; intros st st' H0 H; cbn in *.
        - congruence.
        - destruct (is_comp_code c); [discriminate H0|]. now apply IHcs. }
      apply Hnone in Hrun; [|exact Hn]. injection Hrun as -> _. reflexivity.
    + destruct (IH l parent) as (l' & parent' & Hrun & Herr & Hh & Hc & Ht).
      exists l', parent'. repeat split; auto.
Qed.

Lemma CodeLine_init_comp_multi env text parent :
  let codes := Re.findall re_multi_codes (Str.strip (Str.upper text)) in
  (1 < length codes)%nat ->
  (0 < count_comp codes)%nat ->
  (length (Re.findall re_tool_m6 (Str.strip (Str.upper text))) =? 2)%nat = false ->
  exists l0 parent',
    CodeLine_init env text parent = Ok (l0, parent')
    /\ stderr parent' = (stderr parent ++ replicate (count_comp codes) comp_message)%list
    /\ removed_line l0.
Proof.
  intros codes Hmulti Hcomp Hpair. unfold CodeLine_init. cbv zeta.
  fold codes. apply Nat.ltb_lt in Hmulti. rewrite Hmulti, Hpair.
  destruct (scan_bad_codes_spec codes (set_type PASSTHROUGH (new_CodeLine text)) parent)
    as (l' & parent' & Hrun & Herr & Hh & Hc & Ht).
  change ((set_type PASSTHROUGH (new_CodeLine text, parent).1, (new_CodeLine text, parent).2))
    with (set_type PASSTHROUGH (new_CodeLine text), parent).
  rewrite Hrun. exists l', parent'.
  split; [reflexivity|]. split; [exact Herr|].
  split; [now apply Ht|]. split; [exact Hh | exact Hc].
Qed.

Lemma parse_line_comp env line self :
  comp_detected line = true ->
  exists self' l,
    parse_line env line self = Ok self'
    /\ stderr self'
       = (stderr self ++ replicate (comp_occurrences line) comp_message)%list
    /\ _parsed self' = (_parsed self ++ [l])%list
    /\ removed_line l.
Proof.
  unfold comp_detected, comp_occurrences, command_tokens, tool_change_pair.
  intros Hdet.
  destruct (Nat.ltb_spec 1 (length (Re.findall re_multi_codes
             (Str.strip (Str.upper (Str.strip line)))))) as [Hmulti|Hone].
  - apply andb_prop in Hdet as [Hcomp Hpair].
    apply Nat.ltb_lt in Hcomp. apply negb_true_iff in Hpair.
    destruct (CodeLine_init_comp_multi env (Str.strip line) self Hmulti Hcomp Hpair)
      as (l0 & parent' & Hinit & Herr & Hrem).
    destruct (parse_line_of_init _ _ _ _ _ Hinit) as (self' & Hline & Hse & grps & Hp).
    exists self'. eexists. split; [exact Hline|].
    split; [congruence|]. split; [exact Hp|]. exact Hrem.
  - destruct (CodeLine_init_comp_prefix env (Str.strip line) self Hone Hdet)
      as (l0 & Hinit & Hrem).
    destruct (parse_line_of_init _ _ _ _ _ Hinit) as (self' & Hline & Hse & grps & Hp).
    exists self'. eexists. split; [exact Hline|].
    split; [rewrite Hse; reflexivity|]. split; [exact Hp|]. exact Hrem.
Qed.

(** C7, where the code meets it. A line whose only command is a
    compensation code it begins with (G41, G42, and with them G41.1 and
    G42.1), or that holds several commands, one of them such a code, and on
    which [T\s*\d+|M6] does not match exactly twice, is always classified;
    the program prints one diagnostic per occurrence on the error stream, and
    nothing is printed for the line, whether the hole detector runs or
    not. *)
Theorem cutter_comp_line_is_removed :
  forall env lines i line,
    lines !! i = Some line ->
    comp_detected line = true ->
    (forall self, exists self',
        parse_line env line self = Ok self'
        /\ stderr self'
           = (stderr self ++ replicate (comp_occurrences line) comp_message)%list)
    /\ (forall p,
          parse env lines (new_PreProcessor env) = Ok p ->
          exists l,
            _parsed p !! i = Some l
            /\ dump_line env l = Ok []
            /\ (forall p',
                  flag_holes env p = Ok p' ->
                  exists l', _parsed p' !! i = Some l' /\ dump_line env l' = Ok [])).
Proof.
  intros env lines i line Hi Hdet. split.
  - intros self.
    destruct (parse_line_comp env line self Hdet) as (s & l & Hs & Herr & _).
    eauto.
  - intros p Hparse.
    destruct (parse_nth _ _ _ _ _ Hparse Hi) as (before & after & l & Hline & Hl & Happ).
    destruct (parse_line_comp env line before Hdet) as (s & l0 & Hs & _ & Hsp & Hrem).
    assert (s = after) as -> by congruence.
    rewrite Hsp in Happ. apply app_inj_tail in Happ as [_ <-].
    exists l0. split; [exact Hl|]. split; [now apply dump_removed|].
    intros p' Hflag.
    destruct (flag_holes_marks_only _ _ _ _ _ Hflag Hl (removed_not_G3 _ Hrem))
      as (l' & Hl' & Hm).
    exists l'. split; [exact Hl'|].
    apply dump_removed. eapply removed_marked; eauto.
Qed.

Definition numbered_comp_line : string := "N10 G41".

(** C7, where the code fails it. After a line number G41 is not the prefix
    of the line: the line is one unrecognized command, printed as it is,
    and nothing is reported -- while the same code is removed and reported
    when it begins the line or stands among several commands. On a line
    with exactly two matches of [T\s*\d+|M6] the code is reported, and then
    the line is printed as it is, or the classifier raises. *)
Lemma numbered_comp_code_passes_through :
  command_tokens numbered_comp_line = ["G41"]
  /\ comp_detected numbered_comp_line = false
  /\ main example_env [numbered_comp_line] = Ok (["N10 G41"], [])
  /\ main example_env ["G41"] = Ok ([], [comp_message])
  /\ main example_env ["N10 G41 G1 X1"] = Ok ([], [comp_message])
  /\ main example_env ["G41 T1 M6"] = Ok (["G41 T1 M6"], [comp_message])
  /\ main example_env ["G41 T1 T2"] = Ok (["G41 T1 T2"], [comp_message])
  /\ main example_env ["G42 M62 P1 M66 P3"] = Raise IndexError.
Proof.
  split; [vm_compute; reflexivity|].
  split; [vm_compute; reflexivity|].
  split; [vm_compute; reflexivity|].
  split; [vm_compute; reflexivity|].
  split; [vm_compute; reflexivity|].
  split; [vm_compute; reflexivity|].
  split; vm_compute; reflexivity.
Qed.

Definition two_comp_line : string := "G1 X1 G42 G41.1".

(** Two codes on a line of three commands: two diagnostics, no output. *)
Lemma cutter_comp_example :
  (exists self',
     parse_line example_env two_comp_line (new_PreProcessor example_env) = Ok self'
     /\ stderr self'
        = (stderr (new_PreProcessor example_env)
           ++ replicate (comp_occurrences two_comp_line) comp_message)%list)
  /\ comp_occurrences two_comp_line = 2%nat
  /\ main example_env ["G41 D1"; two_comp_line] = Ok ([], [comp_message; comp_message; comp_message]).
Proof.
  split; [|split; vm_compute; reflexivity].
  apply (proj1 (cutter_comp_line_is_removed example_env ["G41 D1"; two_comp_line]
                  1 two_comp_line eq_refl ltac:(vm_compute; reflexivity))).
Defined.

(** ** Feed-rate lines (C6) *)



Lemma parse_feedrate_inv self parent l p :
  parse_feedrate (self, parent) = Ok (l, p) ->
  exists num v,
    item (Re.split1 [Re.lit "F"] (strip_inline_comment (raw self))) 1 = Ok num
    /\ Py.to_float num = Ok v
    /\ l = set_command (Some ("F", AFloat (default v (active_feedrate parent)))) self
    /\ p = parent.
Proof.
  unfold parse_feedrate. intros H.
  apply bind_inv in H as (num & Hnum & H).
  apply bind_inv in H as (v & Hv & H).
  injection H as <- <-. exists num, v.
  repeat split; auto.
Qed.









(** ** Tool-change lines (C4) *)

Lemma parse_toolchange_single env self parent num n :
  item (Re.split1 [Re.lit "T"] (strip_inline_comment (raw self))) 1 = Ok num ->
  Py.to_int num = Ok n ->
  parse_toolchange env false (self, parent)
  = match DB.cut_by_id (PLASMADB env) n with
    | [] =>
        Ok (set_raw (invalid_cutchart +:+ raw self)
              (set_type TOOLCHANGE (set_command (Some ("T", AInt n)) self)),
            parent)
    | c :: _ =>
        Ok (set_cutchart_id n
              (set_type TOOLCHANGE (set_command (Some ("T", AInt n)) self)),
            set_active_process n c parent)
    end.
Proof.
  intros Hnum Hn. unfold parse_toolchange. cbv zeta.
  rewrite Hnum. cbn [mbind exn_bind]. rewrite Hn. cbn [mbind exn_bind].
  destruct (DB.cut_by_id (PLASMADB env) n); reflexivity.
Qed.

(** The classifier on a single-command line that begins with T. *)
Lemma CodeLine_init_tool env text parent :
  (length (Re.findall re_multi_codes (Str.strip (Str.upper text))) <= 1)%nat ->
  Str.startswith "T" (Str.upper text) = true ->
  CodeLine_init env text parent
  = (st ← parse_toolchange env false
            (set_token "T" (set_type TOOLCHANGE (new_CodeLine text)), parent);
     st ← (if is_COMMENT (type st.1) then Ok st else parse_inline_comment st);
     if is_PASSTHROUGH (type st.1) then parse_XY_line st else Ok st).
Proof.
  intros Hone HT. unfold CodeLine_init. cbv zeta.
  apply Nat.ltb_ge in Hone. rewrite Hone.
  pose proof (startswith_shape _ _ HT) as Hshape.
  rewrite <- (take_drop 28 (tokens env)).
  rewrite scan_tokens_skip by (rewrite Hshape; vm_compute; reflexivity).
  change (drop 28 (tokens env))
    with [("T", (TOOLCHANGE, parse_toolchange env false))].
  rewrite scan_tokens_hit by (rewrite Hshape; vm_compute; reflexivity).
  set (X := (set_token "T" (set_type TOOLCHANGE (new_CodeLine text)), parent)).
  change (parse_toolchange env false _) with (parse_toolchange env false X).
  destruct (parse_toolchange env false X) as [st|e]; reflexivity.
Qed.

(** C4. On a single tool line, the number after the T being [n]: the line is
    always classified, as a tool change of command [T n]. With a record for
    [n] in the database the text of the line is left alone and the active
    process takes the fields of the record. Without one, the text kept in
    [raw] is rewritten as an error comment, the active process is left as it
    was -- and the line printed is the one rebuilt from the command, [T n]
    with the inline comment of the line: the error comment is never
    printed. *)
Theorem tool_line_lookup :
  forall env line self num n,
    (length (command_tokens line) <= 1)%nat ->
    Str.startswith "T" (Str.upper (Str.strip line)) = true ->
    item (Re.split1 [Re.lit "T"] (strip_inline_comment (Str.strip line))) 1 = Ok num ->
    Py.to_int num = Ok n ->
    exists self' l,
      parse_line env line self = Ok self'
      /\ _parsed self' = (_parsed self ++ [l])%list
      /\ command l = Some ("T", AInt n)
      /\ type l = Some TOOLCHANGE
      /\ match DB.cut_by_id (PLASMADB env) n with
         | c :: _ =>
             raw l = Str.strip line
             /\ active_cutchart self' = Some n
             /\ active_feedrate self' = Some (DB.cut_speed c)
             /\ active_thickness self' = Some (DB.thickness c)
             /\ active_thicknessid self' = Some (DB.thicknessid c)
             /\ active_materialid self' = Some (DB.materialid c)
             /\ active_machineid self' = Some (DB.machineid c)
         | [] =>
             raw l = invalid_cutchart +:+ Str.strip line
             /\ active_cutchart self' = active_cutchart self
             /\ active_feedrate self' = active_feedrate self
             /\ active_thickness self' = active_thickness self
             /\ dump_line env l
                = Ok [Str.strip ("T" +:+ Py.str_int n +:+ " " +:+ comment l)]
         end.
Proof.
  intros env line self num n Hone HT Hnum Hn. unfold parse_line.
  rewrite (CodeLine_init_tool env (Str.strip line) self Hone HT).
  rewrite (parse_toolchange_single env
             (set_token "T" (set_type TOOLCHANGE (new_CodeLine (Str.strip line))))
             self num n Hnum Hn).
  destruct (DB.cut_by_id (PLASMADB env) n) as [|c cs];
    cbn [mbind exn_bind];
    change (is_COMMENT _) with false; cbv iota;
    match goal with
    | |- context [parse_inline_comment ?st] =>
        destruct (parse_inline_comment_total st) as [cm ->]
    end;
    cbn [mbind exn_bind];
    change (is_PASSTHROUGH _) with false; cbv iota;
    cbn [mbind exn_bind];
    do 2 eexists; (split; [reflexivity|]); repeat split.
Qed.

(** Tool 99 is not in the database of the example. The line [T99] is
    printed as it came; only with an [M6] beside it is the error comment
    printed. *)
Lemma invalid_tool_example :
  (exists self' l,
     parse_line example_env "T99" (new_PreProcessor example_env) = Ok self'
     /\ _parsed self' = (_parsed (new_PreProcessor example_env) ++ [l])%list
     /\ raw l = invalid_cutchart +:+ Str.strip "T99"
     /\ dump_line example_env l
        = Ok [Str.strip ("T" +:+ Py.str_int 99 +:+ " " +:+ comment l)])
  /\ main example_env ["T99"] = Ok (["T99"], [])
  /\ main example_env ["T99 M6"]
     = Ok (["; ERROR: Invalid Cutchart ID in Tx. Check CAM Tools: T99 M6"], []).
Proof.
  split; [|split; vm_compute; reflexivity].
  destruct (tool_line_lookup example_env "T99" (new_PreProcessor example_env)
              "99" 99%Z
              ltac:(vm_compute; lia)
              ltac:(vm_compute; reflexivity)
              ltac:(vm_compute; reflexivity)
              ltac:(vm_compute; reflexivity))
    as (self' & l & Hline & Hp & Hc & Ht & Hdb).
  change (DB.cut_by_id (PLASMADB example_env) 99) with (@nil DB.cut) in Hdb.
  destruct Hdb as (Hraw & _ & _ & _ & Hdump).
  exists self', l. auto.
Defined.

(** ** The degenerate hole (C5) *)

(** C5 (amended). With an active feed rate and a compensation group in the
    snapshot of the line, a hole whose half kerf is strictly greater than its
    radius is answered by the explanatory comment alone: no feed, torch, move
    or arc element is built, and one comment line is printed. *)
Theorem half_kerf_above_radius_only_comment :
  forall env parent line x y d kerf leadin splits hidef self feed grp7,
    active_feedrate parent = Some feed ->
    active_g_modal_groups line !! 7%Z = Some grp7 ->
    (d / 2 <? kerf / 2) = true ->
    plasma_hole env parent line x y d kerf leadin splits hidef self
    = Ok {| torch_on := torch_on self;
            elements := [create_comment half_kerf_comment] |}
    /\ generate_hole_gcode env [create_comment half_kerf_comment]
       = Ok ["(1/2 Kerf > Hole Radius.  Smart Hole processing skipped.)"].
Proof.
  intros env parent line x y d kerf leadin splits hidef self feed grp7 Hf H7 Hlt.
  split; [|reflexivity].
  unfold plasma_hole, get_active_feedrate. rewrite Hf. cbn [feed_percent of_option mbind exn_bind].
  rewrite H7. cbn [of_option mbind exn_bind]. rewrite Hlt. reflexivity.
Qed.

(** A parent with process 1 active and a line with the seeded snapshot. *)
Definition parent_with_process : PreProcessor := parse_of example_env ["T1"].

Definition seeded_line : CodeLine :=
  save_g_modal_group (active_g_modal_grps (seeded example_env)) (new_CodeLine "").

(** Half kerf equal to the radius (d = 2, kerf = 2): the guard does not
    fire, and the whole hole is built -- lead-in, torch on, four arcs. *)
Lemma half_kerf_equal_radius_builds_hole :
  (2 / 2 <=? 2 / 2) = true
  /\ (b ← plasma_hole example_env parent_with_process seeded_line
             0 0 2 2 0x1p-1 [] false new_HoleBuilder;
      generate_hole_gcode example_env (elements b))
     = Ok [ "G90.1"; "F1600.0"; "M62 P2"; "G0 x0.0000 y0.0000"; "G40"; "M3 $0";
            "G1 x0.0000 y1.0000"; "(Hole...)";
            "G3 x-1.0000 y0.0000 i0.0000 j0.0000";
            "G3 x0.0000 y-1.0000 i0.0000 j0.0000";
            "G3 x1.0000 y0.0000 i0.0000 j0.0000";
            "G3 x0.0000 y1.0000 i0.0000 j0.0000";
            "M5 $-1"; "M63 P2"; "F2000.0"; "G91.1" ].
Proof. split; vm_compute; reflexivity. Qed.

Lemma half_kerf_example :
  plasma_hole example_env parent_with_process seeded_line
    0 0 2 3 0x1p-1 [4; 5; 6] false new_HoleBuilder
  = Ok {| torch_on := None; elements := [create_comment half_kerf_comment] |}.
Proof.
  apply (half_kerf_above_radius_only_comment example_env parent_with_process
           seeded_line 0 0 2 3 0x1p-1 [4; 5; 6] false new_HoleBuilder
           2000 "G40"
           ltac:(vm_compute; reflexivity)
           ltac:(vm_compute; reflexivity)
           ltac:(vm_compute; reflexivity)).
Defined.

(** ** Strategy selection (C2) *)

(** An inch machine: [UNITS_PER_MM] is 25.4. The maximal hole size is set to
    25.4, one inch after conversion; the only process has a thickness of
    0.05, and small-hole detection is off. *)
Definition inch_pins : Hal.pins :=
  {| Hal.plasma_hole_detect_enable := true;
     Hal.plasma_hole_thickness_ratio := 5;
     Hal.plasma_max_hole_size := 0x1.9666666666666p+4;
     Hal.plasma_arc1_percent := 60;
     Hal.plasma_arc2_distance := 4;
     Hal.plasma_arc2_percent := 50;
     Hal.plasma_arc3_distance := 3;
     Hal.plasma_arc3_percent := 40;
     Hal.plasma_leadin_percent := 80;
     Hal.plasma_leadin_radius := 0;
     Hal.param_kirfwidth := 0x1.8p+0;
     Hal.plasma_torch_off_distance := 2;
     Hal.plasma_small_hole_detect := false;
     Hal.plasma_small_hole_threshold := 3;
     Hal.spot_threshold := 1;
     Hal.spot_delay := 0x1p-1 |}.

Definition thin_cut : DB.cut :=
  {| DB.cut_speed := 80; DB.thickness := 0x1.999999999999ap-5 (* 0.05 *);
     DB.machineid := 1; DB.thicknessid := 2; DB.materialid := 3 |}.

Definition inch_env : Env :=
  {| ini_inch := true;
     PLASMADB := {| DB.cut_by_id := fun n => if (n =? 1)%Z then [thin_cut] else [];
                    DB.hidef_holes := fun _ _ _ => [] |};
     hal := inch_pins;
     math_cos := fun _ => nan; math_sin := fun _ => nan;
     libm_pow := exact_square |}.

(** A closed arc of radius 0.25 about (0.25, 0). *)
Definition half_inch_hole : list string :=
  ["T1"; "M3 $0 S1"; "G1 X0 Y0"; "G3 X0 Y0 I0.25 J0"; "M5 $0"].

Definition half_inch_geometry : geometry :=
  {| centre_x := 0x1p-2; centre_y := 0; radius := 0x1p-2; diameter := 0x1p-1;
     circumferance := 0x1p-1 * math_pi |}.

(** C2, at the input where the code fails it. The hole of diameter 0.5 is
    larger than thickness times ratio (0.25) and smaller than the maximal
    hole size (1.0 once converted): the claim makes it a standard smart
    hole. [flag_holes] divides the converted size by [UNITS_PER_MM] a second
    time, compares 0.5 with 1/25.4, and leaves the arc unmodified. *)
Theorem max_hole_size_is_divided_twice :
  let p := parse_of inch_env half_inch_hole in
  let cfg := read_settings inch_env p in
  UNITS_PER_MM p = 0x1.9666666666666p+4
  /\ max_hole_size cfg = 1
  /\ hole_geometry inch_env (default (new_CodeLine "") (_parsed p !! 3%nat)) 0 0
     = Ok half_inch_geometry
  /\ (diameter half_inch_geometry <=? max_hole_size cfg) = true
  /\ (diameter half_inch_geometry <? small_hole_size cfg) = false
  /\ hidef_lookup inch_env p (diameter half_inch_geometry) = Ok None
  /\ select_strategy cfg p half_inch_geometry None = Ok Unmodified
  /\ main inch_env half_inch_hole
     = Ok (["T1"; "M3 $0 S1"; "G1 X0.0 Y0.0"; "G3 X0.0 Y0.0 I0.25 J0.0"; "M5 $0"], []).
Proof.
  cbv zeta.
  split; [vm_compute; reflexivity|].
  split; [vm_compute; reflexivity|].
  split; [vm_compute; reflexivity|].
  split; [vm_compute; reflexivity|].
  split; [vm_compute; reflexivity|].
  split; [vm_compute; reflexivity|].
  split; vm_compute; reflexivity.
Qed.

(** ** Hole detection (C1) *)

(** *** Group 1, once set, stays set *)





(** *** The cursor carried forward, in the words of the specification *)













(** *** What the turns of the loop write, line by line *)




















(** An environment in which small holes are marked: the threshold is 12. *)
Definition mark_pins : Hal.pins :=
  {| Hal.plasma_hole_detect_enable := true;
     Hal.plasma_hole_thickness_ratio := 5;
     Hal.plasma_max_hole_size := 30;
     Hal.plasma_arc1_percent := 60;
     Hal.plasma_arc2_distance := 4;
     Hal.plasma_arc2_percent := 50;
     Hal.plasma_arc3_distance := 3;
     Hal.plasma_arc3_percent := 40;
     Hal.plasma_leadin_percent := 80;
     Hal.plasma_leadin_radius := 0;
     Hal.param_kirfwidth := 0x1.8p+0;
     Hal.plasma_torch_off_distance := 2;
     Hal.plasma_small_hole_detect := true;
     Hal.plasma_small_hole_threshold := 12;
     Hal.spot_threshold := 1;
     Hal.spot_delay := 0x1p-1 |}.

Definition mark_env : Env :=
  {| ini_inch := false; PLASMADB := example_db; hal := mark_pins;
     math_cos := fun _ => nan; math_sin := fun _ => nan;
     libm_pow := exact_square |}.

Definition flagged_of (env : Env) (lines : list string) : PreProcessor :=
  match flag_holes env (parse_of env lines) with
  | Ok p => p
  | Raise _ => new_PreProcessor env
  end.









(** * Further properties of the code *)

(** ** [HiDefHole.__init__]: when the table cannot be built *)

(** Walking down the sizes of the rows, a step from one size to the next
    that is zero. *)
Fixpoint zero_step (prev : float) (sizes : list float) : bool :=
  match sizes with
  | [] => false
  | s :: rest => is_zero (s - prev) || zero_step s rest
  end.

Definition has_zero_step (rows : list DB.hole) : bool :=
  match DB.hole_size <$> rows with
  | [] => false
  | s0 :: rest => zero_step s0 rest
  end.

Lemma scaled_zero prev e :
  is_zero (HiDefHole.hole e - HiDefHole.hole prev) = true ->
  HiDefHole.scaled prev e = Raise ZeroDivisionError.
Proof. intros H. unfold HiDefHole.scaled, Py.div. cbv zeta. now rewrite H. Qed.

Lemma scaled_nonzero prev e :
  is_zero (HiDefHole.hole e - HiDefHole.hole prev) = false ->
  exists e', HiDefHole.scaled prev e = Ok e'.
Proof.
  intros H. unfold HiDefHole.scaled, Py.div. cbv zeta. rewrite H.
  eexists. reflexivity.
Qed.

Lemma scale_from_steps :
  forall (ds : list DB.hole) (prev : DB.hole),
    if zero_step (DB.hole_size prev) (DB.hole_size <$> ds)
    then HiDefHole.scale_from (HiDefHole.of_row prev) (HiDefHole.of_row <$> ds)
         = Raise ZeroDivisionError
    else exists rest,
        HiDefHole.scale_from (HiDefHole.of_row prev) (HiDefHole.of_row <$> ds)
        = Ok rest
        /\ length rest = length ds.
Proof.
  induction ds as [|d ds IH]; intros prev.
  - exists []. split; reflexivity.
  - cbn [fmap list_fmap zero_step HiDefHole.scale_from].
    destruct (is_zero (DB.hole_size d - DB.hole_size prev)) eqn:Hz.
    + cbn [orb]. rewrite scaled_zero by exact Hz. reflexivity.
    + cbn [orb]. destruct (scaled_nonzero (HiDefHole.of_row prev) (HiDefHole.of_row d) Hz)
        as [e' He'].
      rewrite He'. cbn [mbind exn_bind].
      specialize (IH d).
      destruct (zero_step (DB.hole_size d) (DB.hole_size <$> ds)).
      * rewrite IH. reflexivity.
      * destruct IH as (rest & -> & Hlen). cbn [mbind exn_bind].
        eexists. split; [reflexivity|]. cbn [length]. now rewrite Hlen.
Qed.

(** X. The table of a HiDef hole cannot be built exactly when the hole size
    does not move from one row to the next (the difference of two adjacent
    sizes is zero): [__init__] then raises [ZeroDivisionError]. In every
    other case -- the empty table and the table of one row among them -- it
    returns one entry a row. *)
Theorem hidef_init_fails_on_zero_step :
  forall rows : list DB.hole,
    if has_zero_step rows
    then HiDefHole.init rows = Raise ZeroDivisionError
    else exists hole_list,
        HiDefHole.init rows = Ok hole_list /\ length hole_list = length rows.
Proof.
  intros [|d0 ds]; unfold has_zero_step, HiDefHole.init.
  - exists []. split; reflexivity.
  - cbn [fmap list_fmap]. pose proof (scale_from_steps ds d0) as H.
    destruct (zero_step (DB.hole_size d0) (DB.hole_size <$> ds)).
    + rewrite H. reflexivity.
    + destruct H as (rest & -> & Hlen). cbn [mbind exn_bind].
      eexists. split; [reflexivity|]. cbn [length]. now rewrite Hlen.
Qed.

(** ** The scans around a replaced hole *)

(** The line is an [M5]: its token begins with [M5]. *)
Definition is_M5 (l : CodeLine) : bool := Str.startswith "M5" (token l).

Lemma remove_forward_all ls :
  Forall (fun l => is_M5 l = false) ls ->
  remove_forward ls = set_type REMOVE <$> ls.
Proof.
  induction 1 as [|l ls Hl _ IH]; [reflexivity|].
  cbn [remove_forward fmap list_fmap]. unfold is_M5 in Hl. rewrite Hl.
  f_equal. exact IH.
Qed.

(** X. The forward scan after a replaced hole marks for removal every line
    up to the first [M5], that line included, and leaves every line after it
    as it is; when no [M5] follows the hole, every line down to the end of
    the program is marked. *)
Theorem remove_forward_stops_at_first_M5 :
  forall before m5 after,
    Forall (fun l => is_M5 l = false) before ->
    (is_M5 m5 = true ->
     remove_forward (before ++ m5 :: after)
     = ((set_type REMOVE <$> before) ++ set_type REMOVE m5 :: after)%list)
    /\ remove_forward before = set_type REMOVE <$> before.
Proof.
  intros before m5 after Hbefore. split; [|now apply remove_forward_all].
  intros Hm5. induction Hbefore as [|l ls Hl _ IH].
  - cbn [app remove_forward fmap list_fmap]. unfold is_M5 in Hm5. now rewrite Hm5.
  - cbn [app remove_forward fmap list_fmap]. unfold is_M5 in Hl. rewrite Hl.
    f_equal. exact IH.
Qed.

Definition line_with_token (k : string) : CodeLine :=
  set_token k (set_type PASSTHROUGH (new_CodeLine k)).

Lemma remove_forward_example :
  remove_forward [line_with_token "G1"; line_with_token "M5"; line_with_token "G0"]
  = [set_type REMOVE (line_with_token "G1"); set_type REMOVE (line_with_token "M5");
     line_with_token "G0"].
Proof.
  apply (proj1 (remove_forward_stops_at_first_M5 [line_with_token "G1"]
                  (line_with_token "M5") [line_with_token "G0"]
                  ltac:(repeat constructor))).
  reflexivity.
Defined.

(** ** A program without arcs *)

Lemma flag_from_no_arcs env cfg self ls :
  Forall (fun l => is_G3 l = false) ls ->
  forall n i cur, flag_from env cfg self n i (ls, cur) = Ok (ls, cur).
Proof.
  intros Hls. induction n as [|n IH]; intros i cur; [reflexivity|].
  cbn [flag_from]. unfold flag_line.
  destruct (ls !! i) as [line|] eqn:Hi.
  - rewrite (proj1 (Forall_lookup _ _) Hls i line Hi). cbn [mbind exn_bind]. apply IH.
  - cbn [mbind exn_bind]. apply IH.
Qed.

(** X. On a program none of whose parsed lines is a G3 arc the hole detector
    changes nothing and raises nothing -- whatever the pins and the database
    hold, with or without an active process --, so that the output of [main]
    does not depend on hole detection being enabled. *)
Theorem flag_holes_without_arcs_is_identity :
  forall env lines p,
    parse env lines (new_PreProcessor env) = Ok p ->
    Forall (fun l => is_G3 l = false) (_parsed p) ->
    flag_holes env p = Ok p
    /\ main env lines = (out ← dump_parsed env p; Ok (out, stderr p)).
Proof.
  intros env lines p Hparse Hno.
  assert (flag_holes env p = Ok p) as Hflag.
  { unfold flag_holes. cbv zeta. rewrite (flag_from_no_arcs _ _ _ _ Hno).
    cbn [mbind exn_bind]. destruct p; reflexivity. }
  split; [exact Hflag|].
  unfold main. rewrite Hparse. cbn [mbind exn_bind].
  destruct (Hal.plasma_hole_detect_enable (hal env)); [rewrite Hflag|]; reflexivity.
Qed.

Definition square_cut : list string :=
  ["T1"; "G0 X0 Y0"; "M3 $0 S1"; "G1 X10 Y0"; "G2 X0 Y0 I-5 J0"; "M5 $0"].

Lemma square_cut_parses :
  parse example_env square_cut (new_PreProcessor example_env)
  = Ok (parse_of example_env square_cut).
Proof. vm_compute. reflexivity. Qed.

(** A clockwise arc is no hole: the program goes through the detector
    untouched. *)
Lemma flag_holes_without_arcs_example :
  flag_holes example_env (parse_of example_env square_cut)
  = Ok (parse_of example_env square_cut).
Proof.
  apply (proj1 (flag_holes_without_arcs_is_identity example_env square_cut
                  (parse_of example_env square_cut) square_cut_parses
                  ltac:(vm_compute; repeat constructor))).
Defined.

(** ** What a hole builder prints *)

(** [{:.4f}] or [{:.6f}], as [element_to_gcode_line] picks it. *)
Definition fixed (env : Env) (v : float) : string := Py.format_fixed (PRECISION env) v.

Definition feed_text (r : option float) : string :=
  "F" +:+ match r with Some v => Py.repr v | None => "None" end.

(** X. The mark pulse that replaces a small hole is printed as nine lines,
    whatever the builder held before: the feed rate of the active process
    ([FNone] without one), a rapid to the centre, torch on, a move of 0.001
    along X, the wait for the marking voltage, the dwell, torch off, between
    two comments; and the builder records the torch as off. *)
Theorem plasma_mark_prints_nine_lines :
  forall env parent x y time self,
    generate_hole_gcode env (elements (plasma_mark parent x y time self))
    = Ok [ "(---- Marking Start ----)";
           feed_text (active_feedrate parent);
           "G0 x" +:+ fixed env x +:+ " y" +:+ fixed env y;
           "M3 $0";
           "G1 x" +:+ fixed env (x + 0x1.0624dd2f1a9fcp-10) +:+ " y" +:+ fixed env y;
           "M66 P3 L3 Q10";
           "G4 P" +:+ Py.repr time;
           "M5 $-1";
           "(---- Marking End ----)" ]
    /\ torch_on (plasma_mark parent x y time self) = Some false.
Proof. intros. split; reflexivity. Qed.

(** ** The torch in a generated hole *)

(** The torch command of an element: [M3 $0] switches it on, [M5 $-1] off. *)
Definition torch_event (e : element) : option bool :=
  match e_code e with
  | Some c =>
      if String.eqb c "M3 $0" then Some true
      else if String.eqb c "M5 $-1" then Some false
      else None
  | None => None
  end.

(** The torch commands of a list of elements, in order. *)
Definition torch_events (es : list element) : list bool := omap torch_event es.

(** The torch commands built so far and the state the builder records. *)
Definition torch_state (b : HoleBuilder) : list bool * option bool :=
  (torch_events (elements b), torch_on b).

(** An element that is no torch command. *)
Definition quiet (e : element) : Prop := torch_event e = None.

Lemma torch_state_append e b :
  quiet e -> torch_state (append e b) = torch_state b.
Proof.
  unfold quiet, torch_state, torch_events, append. cbn [elements torch_on].
  intros He. rewrite omap_app. cbn [omap list_omap]. rewrite He.
  now rewrite app_nil_r.
Qed.

Lemma torch_state_cut on b :
  torch_state (append_cut_on_off on b) = ((torch_state b).1 ++ [on], Some on)%list.
Proof.
  unfold torch_state, torch_events, append_cut_on_off. cbn [elements torch_on fst].
  rewrite omap_app. destruct on; reflexivity.
Qed.

Lemma torch_state_clear b : torch_state (clear_elements b) = ([], torch_on b).
Proof. reflexivity. Qed.

Lemma quiet_comment txt : quiet (create_comment txt).
Proof. reflexivity. Qed.
Lemma quiet_debug txt : quiet (create_debug_comment txt).
Proof. reflexivity. Qed.
Lemma quiet_feed r : quiet (create_feed r).
Proof. reflexivity. Qed.
Lemma quiet_line x y rapid : quiet (create_line_gcode x y rapid).
Proof. destruct rapid; reflexivity. Qed.
Lemma quiet_ccw x y i j : quiet (create_ccw_arc_gcode x y i j).
Proof. reflexivity. Qed.
Lemma quiet_cw x y i j : quiet (create_cw_arc_gcode x y i j).
Proof. reflexivity. Qed.
Lemma quiet_kerf_off : quiet create_kerf_off_gcode.
Proof. reflexivity. Qed.
Lemma quiet_absolute : quiet create_absolute_arc.
Proof. reflexivity. Qed.
Lemma quiet_relative : quiet create_relative_arc.
Proof. reflexivity. Qed.
Lemma quiet_thc_off : quiet create_thc_off_synch.
Proof. reflexivity. Qed.
Lemma quiet_thc_on : quiet create_thc_on_synch.
Proof. reflexivity. Qed.

Create HintDb quiet.
#[local] Hint Resolve quiet_comment quiet_debug quiet_feed quiet_line quiet_ccw
  quiet_cw quiet_kerf_off quiet_absolute quiet_relative quiet_thc_off
  quiet_thc_on : quiet.

(** Runs the torch state through the statements of a builder. *)
Ltac torch_run :=
  cbn [run fold_left];
  repeat first
    [ rewrite torch_state_append by auto with quiet
    | rewrite torch_state_cut
    | rewrite torch_state_clear ];
  cbn [fst snd app].

(** The arcs of the sectors: the third one, if the loop comes to it,
    switches the torch off. *)
Lemma sectors_torch env x y r f1 f2 f3 :
  forall angles n self b,
    sectors env angles n x y r f1 f2 f3 self = Ok b ->
    torch_state b
    = if (n <=? 2)%nat && (2 <? n + length angles)%nat
      then ((torch_state self).1 ++ [false], Some false)%list
      else torch_state self.
Proof.
  induction angles as [|sang rest IH]; intros n self b H.
  - cbn [sectors] in H. injection H as <-. cbn [length].
    replace (2 <? n + 0)%nat with (negb (n <=? 2)%nat)
      by (destruct (Nat.leb_spec n 2), (Nat.ltb_spec 2 (n + 0)); simpl; lia).
    destruct (n <=? 2)%nat; reflexivity.
  - cbn [sectors] in H. cbv zeta in H.
    apply bind_inv in H as (c & _ & H). apply bind_inv in H as (s & _ & H).
    apply IH in H. rewrite H. clear H IH. cbn [length].
    destruct n as [|[|[|n]]].
    + torch_run. destruct rest as [|? [|? ?]]; reflexivity.
    + torch_run. destruct rest as [|? ?]; reflexivity.
    + torch_run. reflexivity.
    + torch_run.
      replace (S (S (S n)) <=? 2)%nat with false by (symmetry; apply Nat.leb_gt; lia).
      replace (S (S (S (S n))) <=? 2)%nat with false by (symmetry; apply Nat.leb_gt; lia).
      reflexivity.
Qed.

(** X. A hole that is not answered by the comment alone fires the torch
    once: among the elements built there is one [M3 $0], one [M5 $-1] after
    it and no other torch command, whatever the lead-in, the number of
    sectors and the modal state; and the builder records the torch as off. *)
Theorem plasma_hole_fires_the_torch_once :
  forall env parent line x y d kerf leadin_radius splits hidef self b,
    plasma_hole env parent line x y d kerf leadin_radius splits hidef self = Ok b ->
    (d / 2 <? kerf / 2) = false ->
    torch_events (elements b) = [true; false] /\ torch_on b = Some false.
Proof.
  intros env parent line x y d kerf leadin_radius splits hidef self b H Hguard.
  enough (torch_state b = ([true; false], Some false)) as Hb
    by (injection Hb as -> ->; split; reflexivity).
  unfold plasma_hole in H. cbv zeta in H.
  apply bind_inv in H as (arc1_feed & _ & H).
  apply bind_inv in H as (arc2_feed & _ & H).
  apply bind_inv in H as (arc3_feed & _ & H).
  apply bind_inv in H as (leadin_feed & _ & H).
  apply bind_inv in H as (grp7 & _ & H).
  rewrite Hguard in H.
  apply bind_inv in H as (split_angles & _ & H).
  apply bind_inv in H as (grp4 & _ & H).
  apply bind_inv in H as (holed & Hholed & H).
  apply bind_inv in H as (torch & Htorch & H).
  injection H as <-.
  (* the state after the lead-in and the comment that opens the hole *)
  match type of Hholed with
  | context [append (create_comment "Hole...") ?lead] =>
      assert (torch_state (append (create_comment "Hole...") lead)
              = ([true], Some true)) as Hlead;
      [| set (opened := append (create_comment "Hole...") lead) in *; clearbody opened ]
  end.
  { repeat match goal with
           | |- context [if ?c then _ else _] => destruct c
           end; torch_run; reflexivity. }
  assert (torch_state holed = ([true], Some true)
          \/ torch_state holed = ([true; false], Some false)) as Hh.
  { destruct split_angles as [|a angles].
    - injection Hholed as <-. left. torch_run. rewrite Hlead. reflexivity.
    - apply sectors_torch in Hholed. rewrite Hholed, Hlead. cbn [fst app].
      destruct (_ && _); [right | left]; reflexivity. }
  destruct Hh as [Hh|Hh].
  - assert (torch = true) as ->.
    { unfold torch_state in Hh. injection Hh as _ Hon. rewrite Hon in Htorch.
      now injection Htorch as <-. }
    destruct (String.eqb grp4 "G91.1"); torch_run; rewrite Hh; reflexivity.
  - assert (torch = false) as ->.
    { unfold torch_state in Hh. injection Hh as _ Hon. rewrite Hon in Htorch.
      now injection Htorch as <-. }
    destruct (String.eqb grp4 "G91.1"); torch_run; rewrite Hh; reflexivity.
Qed.

(** The hole of diameter 2 cut with a kerf of 2, in four arcs. *)
Definition four_arc_hole : HoleBuilder :=
  match plasma_hole example_env parent_with_process seeded_line
          0 0 2 2 0x1p-1 [] false new_HoleBuilder with
  | Ok b => b
  | Raise _ => new_HoleBuilder
  end.

Lemma four_arc_hole_built :
  plasma_hole example_env parent_with_process seeded_line
    0 0 2 2 0x1p-1 [] false new_HoleBuilder
  = Ok four_arc_hole.
Proof. vm_compute. reflexivity. Qed.

Lemma plasma_hole_torch_example :
  torch_events (elements four_arc_hole) = [true; false]
  /\ torch_on four_arc_hole = Some false.
Proof.
  apply (plasma_hole_fires_the_torch_once example_env parent_with_process
           seeded_line 0 0 2 2 0x1p-1 [] false new_HoleBuilder four_arc_hole
           four_arc_hole_built ltac:(vm_compute; reflexivity)).
Defined.

(** ** What the classifier makes of a line *)

(** *** The handler that ran *)

(** [scan_tokens] read backwards: either no key matched, or the first key
    that matched ran its handler on the fresh line, and the inline comment
    was looked for unless the handler made the line a comment. *)
Lemma scan_tokens_inv line parent :
  forall toks l st',
    scan_tokens toks line (l, parent) = Ok st' ->
    (st' = (match toks with [] => l | _ => set_type PASSTHROUGH l end, parent)
     /\ find (fun k => token_matches k (Str.upper line)) toks.*1 = None)
    \/ exists k ty h l0 st1,
         In (k, (ty, h)) toks
         /\ find (fun k => token_matches k (Str.upper line)) toks.*1 = Some k
         /\ token_matches k (Str.upper line) = true
         /\ (l0 = l \/ l0 = set_type PASSTHROUGH l)
         /\ h (set_token k (set_type ty l0), parent) = Ok st1
         /\ (is_COMMENT (type st1.1) = true /\ st' = st1
             \/ exists c, is_COMMENT (type st1.1) = false
                          /\ st' = (set_comment c st1.1, st1.2)).
Proof.
  induction toks as [|[k [ty h]] toks IH]; intros l st' H.
  - left. cbn [scan_tokens] in H. injection H as <-. split; reflexivity.
  - cbn [scan_tokens] in H. cbn [fst snd] in H.
    cbn [fmap list_fmap fst find].
    destruct (token_matches k (Str.upper line)) eqn:Hk.
    + right. apply bind_inv in H as (st1 & H1 & H).
      exists k, ty, h, l, st1. split; [now left|]. split; [reflexivity|].
      split; [exact Hk|].
      split; [now left|]. split; [exact H1|].
      destruct (is_COMMENT (type st1.1)); [left; now injection H as <-|].
      right. destruct (parse_inline_comment_total st1) as [c Hc].
      exists c. split; [reflexivity | congruence].
    + apply IH in H
        as [[-> Hnone]|(k' & ty' & h' & l0 & st1 & Hin & Hf & Hm & Hl0 & Hh & Hst')].
      * left. split; [destruct toks; reflexivity | exact Hnone].
      * right. exists k', ty', h', l0, st1. split; [now right|]. split; [exact Hf|].
        split; [exact Hm|].
        split; [|split; [exact Hh | exact Hst']].
        destruct Hl0 as [->| ->]; [now right|]. now right.
Qed.

(** [scan_tokens] read forwards: the handler of the first key that matches
    runs, on the line with the token and the type of the key. *)
Lemma scan_tokens_at line parent :
  forall toks l k ty h,
    NoDup toks.*1 ->
    find (fun k => token_matches k (Str.upper line)) toks.*1 = Some k ->
    In (k, (ty, h)) toks ->
    scan_tokens toks line (l, parent)
    = (st ← h (set_token k (set_type ty l), parent);
       if is_COMMENT (type st.1) then Ok st else parse_inline_comment st).
Proof.
  induction toks as [|[k0 [ty0 h0]] toks IH]; intros l k ty h Hnd Hf Hin;
    [contradiction Hin|].
  cbn [fmap list_fmap fst find] in Hf, Hnd. apply NoDup_cons in Hnd as [Hk0 Hnd].
  cbn [scan_tokens fst snd].
  destruct (token_matches k0 (Str.upper line)) eqn:Hm.
  - injection Hf as <-. destruct Hin as [Hin|Hin].
    + now injection Hin as <- <-.
    + exfalso. apply Hk0. apply list_elem_of_In.
      change k0 with (k0, (ty, h)).1. apply in_map. exact Hin.
  - destruct Hin as [Hin|Hin].
    + injection Hin as -> _ _. apply find_some in Hf as [_ Hf]. congruence.
    + exact (IH (set_type PASSTHROUGH l) k ty h Hnd Hf Hin).
Qed.

(** *** Keys in lower case *)

Lemma upper_char_not_h c : Ascii.eqb "h" (Str.upper_char c) = false.
Proof. destruct c as [[] [] [] [] [] [] [] []]; vm_compute; reflexivity. Qed.
Lemma upper_char_not_o c : Ascii.eqb "o" (Str.upper_char c) = false.
Proof. destruct c as [[] [] [] [] [] [] [] []]; vm_compute; reflexivity. Qed.
Lemma upper_char_not_p c : Ascii.eqb "p" (Str.upper_char c) = false.
Proof. destruct c as [[] [] [] [] [] [] [] []]; vm_compute; reflexivity. Qed.

(** A key [#<x...] whose third character [x] no upper-cased text holds
    matches no upper-cased text. *)
Lemma lower_key_never_matches x rest text :
  Ascii.eqb x "." = false ->
  (forall c, Ascii.eqb x (Str.upper_char c) = false) ->
  token_matches (String "#" (String "<" (String x rest))) (Str.upper text) = false.
Proof.
  intros Hdot Hx. unfold token_matches, token_pattern.
  change (String.eqb (String "#" (String "<" (String x rest))) "(") with false.
  cbv iota. cbn [key_atoms]. rewrite Hdot.
  change (if Ascii.eqb "#" "." then Re.dot else Re.chr "#") with (Re.chr "#").
  change (if Ascii.eqb "<" "." then Re.dot else Re.chr "<") with (Re.chr "<").
  rewrite match_here_cons.
  destruct text as [|a [|b [|c text]]]; cbn [Str.upper Str.map];
    try reflexivity; rewrite ?match_seq_one.
  - destruct (Re.chr "#" _); reflexivity.
  - destruct (Re.chr "#" _); [|reflexivity].
    destruct (Re.chr "<" _); reflexivity.
  - destruct (Re.chr "#" _); [|reflexivity].
    destruct (Re.chr "<" _); [|reflexivity].
    unfold Re.chr at 1. rewrite Hx. reflexivity.
Qed.

(** *** The parameters of a line *)

(** The keys of a dictionary of parameters are single letters of a given
    set, each of them once. *)
Definition keys_ok (letters : ascii -> bool) (ps : list (string * float)) : Prop :=
  NoDup ps.*1
  /\ Forall (fun k => exists c, k = String c EmptyString /\ letters c = true) ps.*1.

Lemma keys_ok_nil letters : keys_ok letters [].
Proof. split; constructor. Qed.

Lemma dict_set_keys {A} k (v : A) d :
  (dict_set k v d).*1 = d.*1
  \/ (~ k ∈ d.*1) /\ (dict_set k v d).*1 = (d.*1 ++ [k])%list.
Proof.
  induction d as [|[k' v'] d IH]; cbn [dict_set].
  - right. split; [apply not_elem_of_nil | reflexivity].
  - destruct (String.eqb_spec k k') as [->|Hne]; [left; reflexivity|].
    cbn [fmap list_fmap fst]. destruct IH as [->|[Hk ->]]; [left; reflexivity|].
    right. split; [|reflexivity]. rewrite not_elem_of_cons. auto.
Qed.

Lemma keys_ok_set letters c v ps :
  letters c = true -> keys_ok letters ps ->
  keys_ok letters (dict_set (String c EmptyString) v ps).
Proof.
  intros Hc [Hnd Hall]. unfold keys_ok.
  destruct (dict_set_keys (String c EmptyString) v ps) as [->|[Hk ->]];
    [split; assumption|].
  split.
  - apply NoDup_app. split; [exact Hnd|]. split; [|apply NoDup_singleton].
    intros x Hx Hx'. apply list_elem_of_singleton in Hx'. now subst.
  - apply Forall_app. split; [exact Hall|]. apply Forall_singleton. eauto.
Qed.

Lemma keys_ok_weaken (l1 l2 : ascii -> bool) ps :
  (forall c, l1 c = true -> l2 c = true) -> keys_ok l1 ps -> keys_ok l2 ps.
Proof.
  intros H [Hnd Hall]. split; [exact Hnd|].
  eapply Forall_impl; [exact Hall|]. intros k (c & -> & Hc). eauto.
Qed.

(** The first character of a word. *)
Definition word_head (letters : ascii -> bool) (tok : string) : Prop :=
  match tok with
  | EmptyString => True
  | String c _ => letters c = true
  end.

Lemma findall_from_Forall (P : string -> Prop) re :
  (forall s n, Re.match_here re s = Some n -> P (Str.take n s)) ->
  forall s skip, Forall P (Re.findall_from re s skip).
Proof.
  intros HP. induction s as [|c s IH]; intros skip.
  - destruct skip; cbn [Re.findall_from]; [|constructor].
    destruct (Re.match_here re "") as [n|] eqn:Hm; [|constructor].
    constructor; [|constructor]. exact (HP _ _ Hm).
  - destruct skip; cbn [Re.findall_from]; [|apply IH].
    destruct (Re.match_here re (String c s)) as [n|] eqn:Hm; [|apply IH].
    constructor; [exact (HP _ _ Hm) | apply IH].
Qed.

Lemma take_word_head letters c r n :
  letters c = true -> word_head letters (Str.take n (String c r)).
Proof. intros Hc. destruct n; [exact I | exact Hc]. Qed.

(** The letter of an axis word, and the letter of a word of an arc. *)
Definition is_arc_letter (c : ascii) : bool :=
  Ascii.eqb c "X" || Ascii.eqb c "Y" || Ascii.eqb c "I" || Ascii.eqb c "J"
  || Ascii.eqb c "P".

Lemma is_XY_arc_letter c : is_XY c = true -> is_arc_letter c = true.
Proof.
  unfold is_XY, is_arc_letter. intros H. apply orb_prop in H as [->| ->];
    [reflexivity|]. now rewrite orb_true_r.
Qed.

Lemma xy_words_head s : Forall (word_head is_XY) (Re.findall re_xy s).
Proof.
  apply findall_from_Forall. intros [|c r] n Hm; [destruct n; exact I|].
  apply take_word_head. destruct (is_XY c) eqn:Hc; [reflexivity|].
  apply (proj2 (match_here_xy c r)) in Hc. congruence.
Qed.

Lemma arc_words_head s : Forall (word_head is_arc_letter) (Re.findall re_arc s).
Proof.
  apply findall_from_Forall. intros [|c r] n Hm; [destruct n; exact I|].
  apply take_word_head. unfold re_arc in Hm.
  rewrite !match_here_cons, !match_seq_one in Hm. unfold Re.chr in Hm.
  unfold is_arc_letter. rewrite !(Ascii.eqb_sym c).
  destruct (Ascii.eqb "X" c); [reflexivity|].
  destruct (Ascii.eqb "Y" c); [reflexivity|].
  destruct (Ascii.eqb "I" c); [reflexivity|].
  destruct (Ascii.eqb "J" c); [reflexivity|].
  destruct (Ascii.eqb "P" c); [reflexivity|].
  discriminate Hm.
Qed.

Lemma length_tail_sub (s : string) :
  (String.length s - String.length s = 0)%nat.
Proof. lia. Qed.

(** A word that begins with a letter is cut after the letter. *)
Lemma xy_parts_head c r :
  is_XY c = true ->
  Re.findall re_xy_parts (String c r)
  = String c EmptyString :: Re.findall_from re_xy_parts r 0.
Proof.
  intros Hc. unfold Re.findall. cbn [Re.findall_from].
  assert (Re.match_here re_xy_parts (String c r) = Some 1%nat) as ->.
  { unfold re_xy_parts. rewrite !match_here_cons, !match_seq_one.
    unfold Re.chr. unfold is_XY in Hc. rewrite !(Ascii.eqb_sym c) in Hc.
    cbn [Re.match_seq String.length].
    destruct (Ascii.eqb "X" c); [f_equal; lia|].
    destruct (Ascii.eqb "Y" c); [f_equal; lia|]. discriminate Hc. }
  reflexivity.
Qed.

Lemma arc_parts_head c r :
  is_arc_letter c = true ->
  Re.findall re_arc_parts (String c r)
  = String c EmptyString :: Re.findall_from re_arc_parts r 0.
Proof.
  intros Hc. unfold Re.findall. cbn [Re.findall_from].
  assert (Re.match_here re_arc_parts (String c r) = Some 1%nat) as ->.
  { unfold re_arc_parts. rewrite !match_here_cons, !match_seq_one.
    unfold Re.chr. unfold is_arc_letter in Hc. rewrite !(Ascii.eqb_sym c) in Hc.
    cbn [Re.match_seq String.length].
    destruct (Ascii.eqb "X" c); [f_equal; lia|].
    destruct (Ascii.eqb "Y" c); [f_equal; lia|].
    destruct (Ascii.eqb "I" c); [f_equal; lia|].
    destruct (Ascii.eqb "J" c); [f_equal; lia|].
    destruct (Ascii.eqb "P" c); [f_equal; lia|]. discriminate Hc. }
  reflexivity.
Qed.

(** The loop of the parameter readers writes the parameters alone, under
    the letters of its words. *)
Lemma store_params_effect letters parts :
  (forall c r, letters c = true ->
     Re.findall parts (String c r)
     = String c EmptyString :: Re.findall_from parts r 0) ->
  forall toks self self',
    Forall (word_head letters) toks ->
    store_params parts toks self = Ok self' ->
    exists ps,
      self' = set_params ps self
      /\ (keys_ok letters (params self) -> keys_ok letters ps).
Proof.
  intros Hparts. induction toks as [|tok toks IH]; intros self self' Hheads H.
  - cbn [store_params] in H. injection H as <-. exists (params self).
    split; [destruct self; reflexivity | auto].
  - apply Forall_cons in Hheads as [Hhead Hheads]. cbn [store_params] in H.
    destruct tok as [|c r].
    + change (Re.findall parts "") with (Re.findall_from parts "" 0) in H.
      cbn [Re.findall_from] in H.
      destruct (Re.match_here parts "") as [n|];
        exact (IH _ _ Hheads H).
    + cbn [word_head] in Hhead. rewrite (Hparts c r Hhead) in H.
      destruct (Re.findall_from parts r 0) as [|p1 [|p2 rest]];
        try exact (IH _ _ Hheads H).
      apply bind_inv in H as (v & _ & H).
      destruct (IH _ _ Hheads H) as (ps & -> & Hps).
      exists ps. split; [reflexivity|].
      intros Hok. apply Hps. cbn [params set_params]. now apply keys_ok_set.
Qed.

Lemma store_params_xy_effect :
  forall toks self self',
    Forall (word_head is_XY) toks ->
    store_params_xy toks self = Ok self' ->
    exists ps,
      (self' = set_params ps self /\ toks = []
       \/ self' = set_type XY (set_params ps self))
      /\ (keys_ok is_XY (params self) -> keys_ok is_XY ps).
Proof.
  induction toks as [|tok toks IH]; intros self self' Hheads H.
  - cbn [store_params_xy] in H. injection H as <-. exists (params self).
    split; [left; split; [destruct self|]; reflexivity | auto].
  - apply Forall_cons in Hheads as [Hhead Hheads]. cbn [store_params_xy] in H.
    apply bind_inv in H as (self1 & H1 & H).
    assert (exists ps1, self1 = set_params ps1 self
                        /\ (keys_ok is_XY (params self) -> keys_ok is_XY ps1))
      as (ps1 & -> & Hps1).
    { destruct tok as [|c r].
      - change (Re.findall re_xy_parts "") with (Re.findall_from re_xy_parts "" 0) in H1.
        cbn [Re.findall_from] in H1.
        assert (self1 = self) as ->
            by (destruct (Re.match_here re_xy_parts ""); now injection H1 as <-).
        exists (params self). split; [destruct self; reflexivity | auto].
      - cbn [word_head] in Hhead. rewrite (xy_parts_head c r Hhead) in H1.
        destruct (Re.findall_from re_xy_parts r 0) as [|p1 [|p2 rest]].
        + injection H1 as <-. exists (params self).
          split; [destruct self; reflexivity | auto].
        + apply bind_inv in H1 as (v & _ & H1). injection H1 as <-.
          eexists. split; [reflexivity|]. intros Hok. now apply keys_ok_set.
        + injection H1 as <-. exists (params self).
          split; [destruct self; reflexivity | auto]. }
    destruct (IH _ _ Hheads H) as (ps & Hself' & Hps).
    exists ps. split; [|intros Hok; apply Hps; cbn; auto].
    right. destruct Hself' as [[-> _]| ->]; reflexivity.
Qed.

(** *** The effect of the handlers *)

Lemma parse_linear_effect l p st1 :
  parse_linear (l, p) = Ok st1 ->
  exists n ps,
    Py.to_int (Str.drop 1 (token l)) = Ok n
    /\ st1 = (set_params ps (set_command (Some ("G", AInt n)) l), p)
    /\ (keys_ok is_XY (params l) -> keys_ok is_XY ps).
Proof.
  unfold parse_linear. intros H.
  apply bind_inv in H as (n & Hn & H). cbv zeta in H.
  apply bind_inv in H as (after & _ & H).
  apply bind_inv in H as (self' & Hstore & H). injection H as <-.
  apply (store_params_effect is_XY re_xy_parts xy_parts_head) in Hstore
    as (ps & -> & Hps); [|apply xy_words_head].
  exists n, ps. split; [exact Hn|]. split; [reflexivity | exact Hps].
Qed.

Lemma parse_arc_effect l p st1 :
  parse_arc (l, p) = Ok st1 ->
  exists n ps,
    Py.to_int (Str.drop 1 (token l)) = Ok n
    /\ st1 = (set_params ps (set_command (Some ("G", AInt n)) l), p)
    /\ (keys_ok is_arc_letter (params l) -> keys_ok is_arc_letter ps).
Proof.
  unfold parse_arc. intros H.
  apply bind_inv in H as (n & Hn & H). cbv zeta in H.
  apply bind_inv in H as (after & _ & H).
  apply bind_inv in H as (self' & Hstore & H). injection H as <-.
  apply (store_params_effect is_arc_letter re_arc_parts arc_parts_head) in Hstore
    as (ps & -> & Hps); [|apply arc_words_head].
  exists n, ps. split; [exact Hn|]. split; [reflexivity | exact Hps].
Qed.

Lemma parse_XY_line_effect l p st1 :
  parse_XY_line (l, p) = Ok st1 ->
  exists ps,
    (st1 = (set_params ps l, p) \/ st1 = (set_type XY (set_params ps l), p))
    /\ (keys_ok is_XY (params l) -> keys_ok is_XY ps).
Proof.
  unfold parse_XY_line. intros H. cbv zeta in H.
  apply bind_inv in H as (self' & Hstore & H). injection H as <-.
  apply store_params_xy_effect in Hstore as (ps & Hself' & Hps);
    [|apply xy_words_head].
  exists ps. split; [|exact Hps].
  destruct Hself' as [[-> _]| ->]; [left | right]; reflexivity.
Qed.

Lemma parse_toolchange_effect env combo l p st1 :
  parse_toolchange env combo (l, p) = Ok st1 ->
  exists tool,
    let l' := if combo then set_type PASSTHROUGH l
              else set_type TOOLCHANGE (set_command (Some ("T", AInt tool)) l) in
    (DB.cut_by_id (PLASMADB env) tool = []
     /\ st1 = (set_raw (invalid_cutchart +:+ raw l) l', p))
    \/ (exists c cs,
          DB.cut_by_id (PLASMADB env) tool = c :: cs
          /\ st1 = (set_cutchart_id tool l', set_active_process tool c p)).
Proof.
  unfold parse_toolchange. intros H. cbv zeta in H.
  apply bind_inv in H as ([tool l'] & H1 & H). exists tool.
  assert (l' = (if combo then set_type PASSTHROUGH l
                else set_type TOOLCHANGE (set_command (Some ("T", AInt tool)) l))
          /\ raw l' = raw l) as [-> Hraw].
  { destruct combo; inv_bind H1; injection H1 as <- <-; split; reflexivity. }
  destruct (DB.cut_by_id (PLASMADB env) tool) as [|c cs].
  - left. split; [reflexivity|]. injection H as <-. now rewrite Hraw.
  - right. exists c, cs. split; [reflexivity|]. now injection H as <-.
Qed.

Lemma scan_bad_codes_effect :
  forall codes l p st1,
    scan_bad_codes codes (l, p) = Ok st1 ->
    exists n,
      st1.2 = Nat.iter n (print_stderr comp_message) p
      /\ (st1.1 = l /\ n = 0%nat
          \/ exists e, st1.1 = set_type REMOVE (set_errors e l)).
Proof.
  induction codes as [|code codes IH]; intros l p st1 H; cbn [scan_bad_codes] in H.
  - injection H as <-. exists 0%nat. split; [reflexivity | left; split; reflexivity].
  - destruct (is_comp_code code).
    + cbn [cutter_comp_error mbind exn_bind] in H.
      apply IH in H as (n & Hp & Hl). exists (S n). split.
      * rewrite Hp. exact (Nat.iter_swap n _ (print_stderr comp_message) p).
      * right. destruct Hl as [[-> _]|[e ->]]; eexists; reflexivity.
    + cbn [mbind exn_bind] in H. exact (IH _ _ _ H).
Qed.

Lemma stderr_iter n p :
  stderr (Nat.iter n (print_stderr comp_message) p)
  = (stderr p ++ replicate n comp_message)%list.
Proof.
  induction n as [|n IH]; [cbn [Nat.iter replicate]; now rewrite app_nil_r|].
  change (Nat.iter (S n) (print_stderr comp_message) p)
    with (print_stderr comp_message (Nat.iter n (print_stderr comp_message) p)).
  unfold print_stderr at 1. cbn [stderr].
  rewrite IH, <- app_assoc. f_equal. symmetry. apply replicate_S_end.
Qed.

(** *** The line and the parent after [__init__] *)

(** The type of a line and its command, as the handlers pair them. *)
Definition kind_ok (t : option Commands) (c : option (string * cmdarg)) : bool :=
  match t, c with
  | Some COMMENT, Some (k, ANone) => String.eqb k ";"
  | Some MOVE_LINEAR, Some (k, AInt n) => String.eqb k "G" && ((n =? 0) || (n =? 1))%Z
  | Some MOVE_ARC, Some (k, AInt n) => String.eqb k "G" && ((n =? 2) || (n =? 3))%Z
  | Some UNITS, Some (k, AInt n) => String.eqb k "G" && ((n =? 20) || (n =? 21))%Z
  | Some TOOLCHANGE, Some (k, AInt _) => String.eqb k "T"
  | Some FEEDRATE_LINE, Some (k, AFloat _) => String.eqb k "F"
  | Some PASSTHROUGH, None | Some XY, None | Some REMOVE, None
  | Some CUTTER_COMP_OFF, None => true
  | _, _ => false
  end.

(** The letters the parameters of a line of a given type can have. *)
Definition type_letters (t : option Commands) : ascii -> bool :=
  match t with
  | Some MOVE_ARC => is_arc_letter
  | _ => is_XY
  end.

(** The active process of the parser: the six fields a tool change sets. *)
Definition process (p : PreProcessor) :=
  (active_cutchart p, active_feedrate p, active_thickness p,
   active_machineid p, active_thicknessid p, active_materialid p).

Definition process_of (tool : Z) (c : DB.cut) :=
  (Some tool, Some (DB.cut_speed c), Some (DB.thickness c),
   Some (DB.machineid c), Some (DB.thicknessid c), Some (DB.materialid c)).

(** The key of a line: on a line of one command at most, the first key of
    the table whose pattern matches the upper-cased text. *)
Definition key_of (text : string) : string :=
  if (1 <? length (Re.findall re_multi_codes (Str.strip (Str.upper text))))%nat
  then ""
  else match find (fun k => token_matches k (Str.upper text)) token_keys with
       | Some k => k
       | None => ""
       end.

(** The diagnostics a line sends to the error stream: one for every
    compensation code among the commands of a line of several commands, one
    for a line of one command whose key is a compensation code. *)
Definition messages_of (text : string) : nat :=
  let codes := Re.findall re_multi_codes (Str.strip (Str.upper text)) in
  if (1 <? length codes)%nat then count_comp codes
  else if is_comp_code (key_of text) then 1%nat else 0%nat.

(** What [CodeLine(text, parent)] leaves: the line, and its parent. *)
Definition shape (env : Env) (text : string) (parent : PreProcessor)
    (st : state) : Prop :=
  is_hole st.1 = false
  /\ hole_builder st.1 = None
  /\ active_g_modal_groups st.1 = ∅
  /\ (raw st.1 = text \/ raw st.1 = invalid_cutchart +:+ text)
  /\ kind_ok (type st.1) (command st.1) = true
  /\ keys_ok (type_letters (type st.1)) (params st.1)
  /\ token st.1 = key_of text
  /\ active_m_modal_grps st.2 = active_m_modal_grps parent
  /\ stderr st.2 = (stderr parent ++ replicate (messages_of text) comp_message)%list
  /\ UNITS_PER_MM st.2
     = (if String.eqb (token st.1) "G20" then 0x1.9666666666666p+4
        else if String.eqb (token st.1) "G21" then 1
        else UNITS_PER_MM parent)
  /\ match cutchart_id st.1 with
     | Some tool =>
         exists c cs, DB.cut_by_id (PLASMADB env) tool = c :: cs
                      /\ process st.2 = process_of tool c
     | None => process st.2 = process parent
     end.

(** Splits the conjunctions that are written out in the goal. *)
Ltac splits := repeat match goal with |- _ /\ _ => split end.

Ltac fields :=
  cbn [is_hole hole_builder active_g_modal_groups raw type command params token
       cutchart_id comment errors set_command set_params set_comment set_raw
       set_errors set_type set_hole set_token set_cutchart_id save_g_modal_group
       new_CodeLine _parsed active_g_modal_grps active_m_modal_grps
       active_cutchart active_feedrate active_thickness active_machineid
       active_thicknessid active_materialid UNITS_PER_MM stderr set_units
       print_stderr set_active_process fst snd process process_of] in *.

Lemma shape_comment env text parent l p c :
  shape env text parent (l, p) -> shape env text parent (set_comment c l, p).
Proof. unfold shape. fields. tauto. Qed.

Lemma shape_xy env text parent l p st :
  shape env text parent (l, p) ->
  type l = Some PASSTHROUGH ->
  parse_XY_line (l, p) = Ok st ->
  shape env text parent st.
Proof.
  intros Hsh Hty Hxy. unfold shape in Hsh. fields.
  destruct Hsh as (Hh & Hb & Hs & Hr & Hk & Hps & Ht & Hm & He & Hu & Hc).
  apply parse_XY_line_effect in Hxy as (ps & Hst & Hkeys).
  rewrite Hty in Hps, Hk. cbn [type_letters] in Hps.
  destruct (command l) as [[k a]|] eqn:Hcmd; [discriminate Hk|].
  destruct Hst as [-> | ->]; unfold shape; fields; try rewrite Hty; try rewrite Hcmd;
    cbn [type_letters]; splits; auto.
Qed.

Lemma iter_stderr_frame n q :
  UNITS_PER_MM (Nat.iter n (print_stderr comp_message) q) = UNITS_PER_MM q
  /\ active_m_modal_grps (Nat.iter n (print_stderr comp_message) q)
     = active_m_modal_grps q
  /\ process (Nat.iter n (print_stderr comp_message) q) = process q.
Proof.
  induction n as [|n IHn]; [splits; reflexivity|].
  cbn [Nat.iter]. fields. exact IHn.
Qed.

Lemma no_message (p : PreProcessor) :
  stderr p = (stderr p ++ replicate 0 comp_message)%list.
Proof. symmetry. apply app_nil_r. Qed.

Lemma one_message (p : PreProcessor) :
  (stderr p ++ [comp_message])%list = (stderr p ++ replicate 1 comp_message)%list.
Proof. reflexivity. Qed.

(** Decides whether the key at hand is a compensation code. *)
Ltac comp_key :=
  repeat match goal with
         | |- context [is_comp_code ?k] =>
             let b := eval vm_compute in (is_comp_code k) in
             change (is_comp_code k) with b
         end;
  cbv iota.

(** The number a motion key stands for. *)
Ltac motion_number H :=
  fields; vm_compute in H; injection H as <-.

Lemma CodeLine_init_shape env text parent st :
  CodeLine_init env text parent = Ok st -> shape env text parent st.
Proof.
  unfold CodeLine_init. cbv zeta. intros H.
  destruct (1 <? length _)%nat eqn:Hmulti.
  - (* several commands *)
    assert (key_of text = "") as Hkey by (unfold key_of; now rewrite Hmulti).
    assert (messages_of text
            = count_comp (Re.findall re_multi_codes (Str.strip (Str.upper text))))
      as Hmsg by (unfold messages_of; cbv zeta; now rewrite Hmulti).
    apply bind_inv in H as (st1 & H1 & H). cbn [fst snd] in H1.
    destruct (scan_bad_codes_spec
                (Re.findall re_multi_codes (Str.strip (Str.upper text)))
                (set_type PASSTHROUGH (new_CodeLine text)) parent)
      as (l1' & p1' & Hrun & Herr & _).
    rewrite Hrun in H1. injection H1 as <-.
    apply scan_bad_codes_effect in Hrun as (n & Hp & Hl).
    cbn [fst snd] in Hp, Hl. rewrite <- Hmsg in Herr.
    assert (shape env text parent (l1', p1')
            /\ raw l1' = text /\ cutchart_id l1' = None
            /\ command l1' = None /\ params l1' = []) as (Hshape & Hraw & Hid & Hcmd & Hps).
    { destruct (iter_stderr_frame n parent) as (Hu & Hm & Hpr).
      rewrite <- Hp in Hu, Hm, Hpr.
      destruct Hl as [[-> _]|[e ->]];
        (split; [unfold shape; fields; rewrite Hu, Hm, Herr, Hkey;
                 splits; eauto using keys_ok_nil
                | splits; reflexivity]). }
    destruct (length _ =? 2)%nat; [|now injection H as <-].
    unfold shape in Hshape. fields.
    destruct Hshape as (Hh & Hb & Hs & _ & _ & _ & Ht & Hm & He & Hu & Hpr).
    rewrite Hid in Hpr.
    apply parse_toolchange_effect in H as (tool & [[Hdb ->]|(c & cs & Hdb & ->)]);
      unfold shape; fields; rewrite ?Hraw, ?Hcmd, ?Hps, ?Hid;
      splits; eauto using keys_ok_nil.
  - (* one command at most *)
    apply bind_inv in H as (st' & Hscan & H).
    enough (shape env text parent st') as Hst'.
    { destruct st' as [l' p']. cbn [fst] in H.
      destruct (type l') as [[]|] eqn:Hty; cbn [is_PASSTHROUGH] in H;
        try (injection H as <-; exact Hst').
      exact (shape_xy _ _ _ _ _ _ Hst' Hty H). }
    clear H.
    assert (messages_of text = if is_comp_code (key_of text) then 1%nat else 0%nat)
      as Hmsg by (unfold messages_of; cbv zeta; now rewrite Hmulti).
    apply scan_tokens_inv in Hscan
      as [[-> Hf]|(k & ty & h & l0 & st1 & Hin & Hf & Hm & Hl0 & Hh & Hst')];
      change ((tokens env).*1) with token_keys in Hf.
    { assert (key_of text = "") as Hkey
          by (unfold key_of; now rewrite Hmulti, Hf).
      unfold shape, tokens. fields. rewrite Hmsg, Hkey. comp_key.
      splits; eauto using keys_ok_nil, no_message, one_message. }
    assert (key_of text = k) as Hkey by (unfold key_of; now rewrite Hmulti, Hf).
    rewrite Hkey in Hmsg. clear Hf Hmulti.
    enough (shape env text parent st1) as Hst1.
    { destruct Hst' as [[_ ->]|(c & _ & ->)]; [exact Hst1|].
      destruct st1. now apply shape_comment. }
    unfold tokens in Hin. cbn [In] in Hin.
    repeat destruct Hin as [Hin|Hin]; try contradiction;
      injection Hin as <- <- <-; destruct Hl0 as [->| ->];
      try (apply parse_linear_effect in Hh as (n & ps & Hn & -> & Hps);
           motion_number Hn; unfold shape; fields; rewrite Hmsg, Hkey; comp_key;
           splits; eauto using keys_ok_nil, no_message, one_message);
      try (apply parse_arc_effect in Hh as (n & ps & Hn & -> & Hps);
           motion_number Hn; unfold shape; fields; rewrite Hmsg, Hkey; comp_key;
           splits;
           eauto using keys_ok_nil, keys_ok_weaken, is_XY_arc_letter, no_message,
             one_message);
      try (destruct st1 as [l1 p1];
           apply parse_feedrate_inv in Hh as (num & v & _ & _ & -> & ->);
           unfold shape; fields; rewrite Hmsg, Hkey; comp_key;
           splits; eauto using keys_ok_nil, no_message, one_message);
      try (apply parse_toolchange_effect in Hh
             as (tool & [[Hdb ->]|(c & cs & Hdb & ->)]);
           unfold shape; fields; rewrite Hmsg, Hkey; comp_key;
           splits; eauto using keys_ok_nil, no_message, one_message);
      try (rewrite lower_key_never_matches in Hm
             by (try reflexivity; auto using upper_char_not_h, upper_char_not_o,
                   upper_char_not_p);
           discriminate Hm);
      try (injection Hh as <-; unfold shape; fields; rewrite Hmsg, Hkey; comp_key;
           splits; eauto using keys_ok_nil, no_message, one_message).
Qed.

(** ** Invariants of the parser *)

Lemma parse_line_inv env line self self' :
  parse_line env line self = Ok self' ->
  exists l0 parent',
    CodeLine_init env (Str.strip line) self = Ok (l0, parent')
    /\ shape env (Str.strip line) self (l0, parent')
    /\ process self' = process parent'
    /\ UNITS_PER_MM self' = UNITS_PER_MM parent'
    /\ stderr self' = stderr parent'
    /\ active_m_modal_grps self' = active_m_modal_grps parent'
    /\ _parsed self'
       = (_parsed self ++ [save_g_modal_group (active_g_modal_grps self') l0])%list.
Proof.
  intros H. destruct (parse_line_step _ _ _ _ H) as (l0 & parent' & Hinit & _ & Hp).
  exists l0, parent'. split; [exact Hinit|].
  split; [exact (CodeLine_init_shape _ _ _ _ Hinit)|].
  unfold parse_line in H. rewrite Hinit in H. cbn [mbind exn_bind] in H.
  injection H as <-. splits; try reflexivity. exact Hp.
Qed.

(** A property of the parser's state that every line keeps holds at the end
    of the file. *)
Lemma parse_lines_ind (P : PreProcessor -> Prop) env :
  (forall line self self', P self -> parse_line env line self = Ok self' -> P self') ->
  forall lines self p, P self -> parse_lines env lines self = Ok p -> P p.
Proof.
  intros Hstep. induction lines as [|line lines IH]; intros self p HP H;
    cbn [parse_lines] in H.
  - now injection H as <-.
  - apply bind_inv in H as (self1 & H1 & H). eauto.
Qed.

(** The parsed line of an input line is the line the classifier made of its
    stripped text, with the modal snapshot added. *)
Lemma parsed_line_shape env lines p i line :
  parse env lines (new_PreProcessor env) = Ok p ->
  lines !! i = Some line ->
  exists before l0 parent' grps,
    shape env (Str.strip line) before (l0, parent')
    /\ _parsed p !! i = Some (save_g_modal_group grps l0).
Proof.
  intros Hparse Hi.
  destruct (parse_nth _ _ _ _ _ Hparse Hi) as (before & after & l & Hline & Hl & Happ).
  destruct (parse_line_inv _ _ _ _ Hline)
    as (l0 & parent' & _ & Hshape & _ & _ & _ & _ & Hp).
  rewrite Hp in Happ. apply app_inj_tail in Happ as [_ <-].
  eauto 10.
Qed.

Lemma parsed_length env lines p :
  parse env lines (new_PreProcessor env) = Ok p ->
  length (_parsed p) = length lines.
Proof.
  intros Hparse. destruct (parse_lines_nth _ _ _ _ Hparse) as (ls & Hp & Hlen & _).
  cbn in Hp. now rewrite Hp.
Qed.

Lemma parsed_line_source env lines p l :
  parse env lines (new_PreProcessor env) = Ok p ->
  l ∈ _parsed p ->
  exists line before l0 parent' grps,
    line ∈ lines
    /\ shape env (Str.strip line) before (l0, parent')
    /\ l = save_g_modal_group grps l0.
Proof.
  intros Hparse Hl. apply list_elem_of_lookup in Hl as [i Hi].
  assert (i < length lines)%nat as Hlt.
  { rewrite <- (parsed_length _ _ _ Hparse). eapply lookup_lt_Some; eauto. }
  apply lookup_lt_is_Some in Hlt as [line Hline].
  destruct (parsed_line_shape _ _ _ _ _ Hparse Hline)
    as (before & l0 & parent' & grps & Hshape & Hl').
  exists line, before, l0, parent', grps.
  split; [eapply list_elem_of_lookup_2; eauto|]. split; [exact Hshape|]. congruence.
Qed.

(** X. The parser makes one parsed line of every input line, in order: the
    line keeps the stripped text of its input line in [raw] -- behind the
    error comment when its tool number is not in the database --, and it is
    no hole and has no builder before the hole detector runs. *)
Theorem parse_gives_one_line_per_input :
  forall env lines p,
    parse env lines (new_PreProcessor env) = Ok p ->
    length (_parsed p) = length lines
    /\ forall i line,
         lines !! i = Some line ->
         exists l,
           _parsed p !! i = Some l
           /\ (raw l = Str.strip line
               \/ raw l = invalid_cutchart +:+ Str.strip line)
           /\ is_hole l = false
           /\ hole_builder l = None.
Proof.
  intros env lines p Hparse. split; [exact (parsed_length _ _ _ Hparse)|].
  intros i line Hi.
  destruct (parsed_line_shape _ _ _ _ _ Hparse Hi)
    as (before & l0 & parent' & grps & Hshape & Hl).
  unfold shape in Hshape. fields.
  destruct Hshape as (Hh & Hb & _ & Hr & _).
  eexists. split; [exact Hl|]. fields. auto.
Qed.

Definition tools_program : list string := ["T1"; "  G0 X1 Y2  "; "T99 M6"; "M5 $0"].

Lemma tools_program_parses :
  parse example_env tools_program (new_PreProcessor example_env)
  = Ok (parse_of example_env tools_program).
Proof. vm_compute. reflexivity. Qed.

Lemma parse_one_line_per_input_example :
  length (_parsed (parse_of example_env tools_program)) = 4%nat
  /\ (raw <$> _parsed (parse_of example_env tools_program))
     = ["T1"; "G0 X1 Y2"; invalid_cutchart +:+ "T99 M6"; "M5 $0"].
Proof.
  split.
  - exact (proj1 (parse_gives_one_line_per_input example_env tools_program
                    (parse_of example_env tools_program) tools_program_parses)).
  - vm_compute. reflexivity.
Defined.

(** X. Every parsed line has one of ten types, with the command that goes
    with the type: a comment ([;], no number), a linear move (G0, G1), an arc
    (G2, G3), a units line (G20, G21), a tool change (T and a number), a feed
    line (F and a number), or no command at all on a line passed through,
    taken for an X/Y line, removed, or read as [G40]. No line is ever left
    without a type or given the type [OTHER] or one of the types of the keys
    [#<holes>] to [#<pierce-only>], which match no upper-cased text. *)
Theorem parsed_line_kinds :
  forall env lines p l,
    parse env lines (new_PreProcessor env) = Ok p ->
    l ∈ _parsed p ->
    kind_ok (type l) (command l) = true.
Proof.
  intros env lines p l Hparse Hl.
  destruct (parsed_line_source _ _ _ _ Hparse Hl)
    as (line & before & l0 & parent' & grps & _ & Hshape & ->).
  unfold shape in Hshape. fields. tauto.
Qed.

Definition kinds_program : list string :=
  ["(a comment)"; "G0 X1 Y2"; "G3 X1 Y2 I1 J0"; "G21"; "T1"; "F100"; "G40";
   "#<holes> = 2"; "G41 D1"; "X5"; "M30"].

Lemma kinds_program_parses :
  parse example_env kinds_program (new_PreProcessor example_env)
  = Ok (parse_of example_env kinds_program).
Proof. vm_compute. reflexivity. Qed.

Lemma parsed_line_kinds_example :
  Forall (fun l => kind_ok (type l) (command l) = true)
    (_parsed (parse_of example_env kinds_program))
  /\ (type <$> _parsed (parse_of example_env kinds_program))
     = [Some COMMENT; Some MOVE_LINEAR; Some MOVE_ARC; Some UNITS; Some TOOLCHANGE;
        Some FEEDRATE_LINE; Some CUTTER_COMP_OFF; Some PASSTHROUGH; Some REMOVE;
        Some XY; Some PASSTHROUGH].
Proof.
  split; [|vm_compute; reflexivity].
  apply Forall_forall. intros l Hl.
  exact (parsed_line_kinds example_env kinds_program
           (parse_of example_env kinds_program) l kinds_program_parses Hl).
Defined.

(** X. The parameters of a parsed line are kept under single letters, each
    letter once: X, Y, I, J or P on an arc, X or Y on any other line. Every
    other word of a move (Z, F, S, ...) is dropped. *)
Theorem parsed_line_params :
  forall env lines p l,
    parse env lines (new_PreProcessor env) = Ok p ->
    l ∈ _parsed p ->
    keys_ok (type_letters (type l)) (params l).
Proof.
  intros env lines p l Hparse Hl.
  destruct (parsed_line_source _ _ _ _ Hparse Hl)
    as (line & before & l0 & parent' & grps & _ & Hshape & ->).
  unfold shape in Hshape. fields. tauto.
Qed.

Definition words_program : list string :=
  ["G1 X1 Y2 Z-3 X4 F500"; "G3 X1 Y2 I1 J0 P2 Z1"].

Lemma words_program_parses :
  parse example_env words_program (new_PreProcessor example_env)
  = Ok (parse_of example_env words_program).
Proof. vm_compute. reflexivity. Qed.

Lemma parsed_line_params_example :
  Forall (fun l => keys_ok (type_letters (type l)) (params l))
    (_parsed (parse_of example_env words_program))
  /\ ((fun l => (params l).*1) <$> _parsed (parse_of example_env words_program))
     = [["X"; "Y"]; ["X"; "Y"; "I"; "J"; "P"]]
  /\ main example_env words_program
     = Ok (["G1 X4.0 Y2.0"; "G3 X1.0 Y2.0 I1.0 J0.0 P2.0"], []).
Proof.
  split; [|split; vm_compute; reflexivity].
  apply Forall_forall. intros l Hl.
  exact (parsed_line_params example_env words_program
           (parse_of example_env words_program) l words_program_parses Hl).
Defined.

(** *** Keys and prefixes *)

(** The pattern of a key, run on a text. *)
Definition key_matches (k u : string) : bool :=
  match Re.match_seq (key_atoms k) u with
  | Some _ => true
  | None => false
  end.

Lemma token_matches_key k u :
  String.eqb k "(" = false -> token_matches k u = key_matches k u.
Proof.
  intros Hk. unfold token_matches, token_pattern, key_matches. rewrite Hk.
  rewrite match_here_cons. destruct (Re.match_seq (key_atoms k) u); reflexivity.
Qed.

(** A key without a dot matches the texts that begin with it. *)
Lemma key_matches_startswith k :
  Str.contains_char (fun c => Ascii.eqb c ".") k = false ->
  forall u, key_matches k u = Str.startswith k u.
Proof.
  unfold key_matches. induction k as [|c k IH]; intros Hdot u; [reflexivity|].
  cbn [Str.contains_char] in Hdot. apply orb_false_elim in Hdot as [Hc Hk].
  cbn [key_atoms]. rewrite Hc.
  destruct u as [|b u]; [reflexivity|].
  rewrite match_seq_one. cbn [Str.startswith]. unfold Re.chr.
  destruct (Ascii.eqb c b); [apply IH; exact Hk | reflexivity].
Qed.

(** A text a key matches is matched by every key the key begins with. *)
Lemma key_matches_prefix k1 k2 :
  forall u, key_matches (k1 +:+ k2) u = true -> key_matches k1 u = true.
Proof.
  unfold key_matches. induction k1 as [|c k1 IH]; intros u H; [reflexivity|].
  change (String c k1 +:+ k2) with (String c (k1 +:+ k2)) in H.
  cbn [key_atoms] in *.
  destruct u as [|b u]; [discriminate H|].
  rewrite match_seq_one in *.
  destruct ((if Ascii.eqb c "." then Re.dot else Re.chr c) b);
    [apply IH; exact H | discriminate H].
Qed.

(** The keys that can be the key of a line. *)
Definition live_keys : list string :=
  [ "G0"; "G1"; "G20"; "G21"; "G2"; "G3"; "G41"; "G42"; "G40"; "G64"; "M52";
    "M3"; "M5"; "M190"; "M66"; "G91.1"; "G90.1"; "F#"; "F"; ";"; "("; "T" ].

Lemma key_of_live text : key_of text ∈ "" :: live_keys.
Proof.
  unfold key_of. destruct (1 <? length _)%nat; [apply list_elem_of_here|].
  unfold token_keys. cbn [find].
  repeat match goal with
         | |- context [if token_matches ?k ?u then _ else _] =>
             destruct (token_matches k u) eqn:?;
             [ first [ solve [unfold live_keys;
                              repeat first [apply list_elem_of_here
                                           | apply list_elem_of_further]]
                     | exfalso ]
             | ]
         end;
    try apply list_elem_of_here.
  - (* G41.1 after G41 *)
    rewrite token_matches_key in * by reflexivity.
    match goal with
    | H : key_matches "G41.1" _ = true |- _ =>
        apply (key_matches_prefix "G41" ".1") in H; congruence
    end.
  - rewrite token_matches_key in * by reflexivity.
    match goal with
    | H : key_matches "G42.1" _ = true |- _ =>
        apply (key_matches_prefix "G42" ".1") in H; congruence
    end.
  - match goal with
    | H : token_matches "#<holes>" _ = true |- _ =>
        rewrite lower_key_never_matches in H
          by (try reflexivity; apply upper_char_not_h); discriminate H
    end.
  - match goal with
    | H : token_matches "#<h_diameter>" _ = true |- _ =>
        rewrite lower_key_never_matches in H
          by (try reflexivity; apply upper_char_not_h); discriminate H
    end.
  - match goal with
    | H : token_matches "#<h_velocity>" _ = true |- _ =>
        rewrite lower_key_never_matches in H
          by (try reflexivity; apply upper_char_not_h); discriminate H
    end.
  - match goal with
    | H : token_matches "#<oclength>" _ = true |- _ =>
        rewrite lower_key_never_matches in H
          by (try reflexivity; apply upper_char_not_o); discriminate H
    end.
  - match goal with
    | H : token_matches "#<pierce-only>" _ = true |- _ =>
        rewrite lower_key_never_matches in H
          by (try reflexivity; apply upper_char_not_p); discriminate H
    end.
Qed.

(** X. The token of a parsed line is the first key of the table, in the
    order of the source, whose pattern matches the upper-cased text of the
    line, and the empty text on a line of several commands and on a line no
    key matches. Seven keys of the table are never recorded: [G41.1] and
    [G42.1], which come after [G41] and [G42], and the five keys written in
    lower case, which no upper-cased text matches. *)
Theorem parsed_line_token :
  forall env lines p i line,
    parse env lines (new_PreProcessor env) = Ok p ->
    lines !! i = Some line ->
    exists l,
      _parsed p !! i = Some l
      /\ token l = key_of (Str.strip line)
      /\ token l ∈ "" :: live_keys.
Proof.
  intros env lines p i line Hparse Hi.
  destruct (parsed_line_shape _ _ _ _ _ Hparse Hi)
    as (before & l0 & parent' & grps & Hshape & Hl).
  unfold shape in Hshape. fields.
  destruct Hshape as (_ & _ & _ & _ & _ & _ & Ht & _).
  eexists. split; [exact Hl|]. fields. rewrite Ht.
  split; [reflexivity | apply key_of_live].
Qed.

Definition keys_program : list string :=
  ["G17"; "G42.1 D1"; "#<holes> = 2"; "m30"; "G1 X1 G90"].

Lemma keys_program_parses :
  parse example_env keys_program (new_PreProcessor example_env)
  = Ok (parse_of example_env keys_program).
Proof. vm_compute. reflexivity. Qed.

(** [G17] is read under the key [G1], [G42.1] under [G42], [m30] under
    [M3]. *)
Lemma parsed_line_token_example :
  (exists l,
     _parsed (parse_of example_env keys_program) !! 0%nat = Some l
     /\ token l = key_of (Str.strip "G17")
     /\ token l ∈ "" :: live_keys)
  /\ (token <$> _parsed (parse_of example_env keys_program))
     = ["G1"; "G42"; ""; "M3"; ""].
Proof.
  split; [|vm_compute; reflexivity].
  exact (parsed_line_token example_env keys_program
           (parse_of example_env keys_program) 0 "G17" keys_program_parses eq_refl).
Defined.

(** *** Units *)

(** The value a key gives [UNITS_PER_MM]. *)
Definition units_of_key (k : string) (u : float) : float :=
  if String.eqb k "G20" then 0x1.9666666666666p+4
  else if String.eqb k "G21" then 1
  else u.

Lemma parse_line_units env line self self' :
  parse_line env line self = Ok self' ->
  UNITS_PER_MM self' = units_of_key (key_of (Str.strip line)) (UNITS_PER_MM self).
Proof.
  intros H. destruct (parse_line_inv _ _ _ _ H)
    as (l0 & parent' & _ & Hshape & _ & Hu & _).
  unfold shape in Hshape. fields.
  destruct Hshape as (_ & _ & _ & _ & _ & _ & Ht & _ & _ & Hunits & _).
  rewrite Hu, Hunits, Ht. reflexivity.
Qed.

Lemma parse_lines_units env :
  forall lines self p,
    parse_lines env lines self = Ok p ->
    UNITS_PER_MM p
    = fold_left (fun u line => units_of_key (key_of (Str.strip line)) u) lines
        (UNITS_PER_MM self).
Proof.
  induction lines as [|line lines IH]; intros self p H; cbn [parse_lines] in H.
  - now injection H as <-.
  - apply bind_inv in H as (self1 & H1 & H). cbn [fold_left].
    rewrite (IH _ _ H), (parse_line_units _ _ _ _ H1). reflexivity.
Qed.

(** The lines that have a given units key. *)
Lemma key_of_units text k :
  k = "G20" \/ k = "G21" ->
  key_of text = k
  <-> (length (Re.findall re_multi_codes (Str.strip (Str.upper text))) <= 1)%nat
      /\ Str.startswith k (Str.upper text) = true.
Proof.
  intros Hk. unfold key_of. split.
  - destruct (Nat.ltb_spec 1 (length (Re.findall re_multi_codes
                                        (Str.strip (Str.upper text))))) as [|Hone];
      [destruct Hk as [->| ->]; discriminate|].
    intros H. split; [exact Hone|].
    destruct (find _ token_keys) as [k'|] eqn:Hf;
      [|destruct Hk as [->| ->]; discriminate].
    subst k'. apply find_some in Hf as [_ Hm].
    destruct Hk as [->| ->];
      rewrite token_matches_key, key_matches_startswith in Hm by reflexivity;
      exact Hm.
  - intros [Hone Hstart]. apply Nat.ltb_ge in Hone. rewrite Hone.
    apply startswith_shape in Hstart.
    remember (Str.upper text) as u eqn:Hu. clear Hu.
    destruct Hk as [->| ->]; rewrite Hstart;
      generalize (Str.drop (String.length "G20") u); intros rest;
      vm_compute; reflexivity.
Qed.

(** X. [UNITS_PER_MM] at the end of the parse is what the lines of the
    file make of its initial value, one after the other: a line of one
    command that begins with G20 sets it to 25.4, one that begins with G21
    to 1, every other line -- a line of several commands among them, even if
    G20 or G21 is one of them -- leaves it as it is. *)
Theorem units_follow_the_units_lines :
  forall env lines p,
    parse env lines (new_PreProcessor env) = Ok p ->
    UNITS_PER_MM p
    = fold_left (fun u line => units_of_key (key_of (Str.strip line)) u) lines
        (UNITS_PER_MM_init env)
    /\ forall text k,
         k = "G20" \/ k = "G21" ->
         key_of text = k
         <-> (length (Re.findall re_multi_codes (Str.strip (Str.upper text))) <= 1)%nat
             /\ Str.startswith k (Str.upper text) = true.
Proof.
  intros env lines p Hparse. split; [|exact key_of_units].
  unfold parse in Hparse. now rewrite (parse_lines_units _ _ _ _ Hparse).
Qed.

Definition units_program : list string :=
  ["G21 (metric)"; "g20"; "N30 G21"; "G21 G90"].

Lemma units_program_parses :
  parse example_env units_program (new_PreProcessor example_env)
  = Ok (parse_of example_env units_program).
Proof. vm_compute. reflexivity. Qed.

(** Of the four lines only the first two change the units: the last one to
    do so is [g20], and the parse ends in inches. *)
Lemma units_example :
  UNITS_PER_MM (parse_of example_env units_program) = 0x1.9666666666666p+4
  /\ (key_of <$> units_program) = ["G21"; "G20"; ""; ""].
Proof.
  split; [|vm_compute; reflexivity].
  rewrite (proj1 (units_follow_the_units_lines example_env units_program
                    (parse_of example_env units_program) units_program_parses)).
  vm_compute. reflexivity.
Defined.

(** *** The active process *)

(** [set_ui_hal_cutchart_pin]: the text written to the pin
    [qtpyvcp.cutchart-id], [None] when the pin is left alone. *)
Definition set_ui_hal_cutchart_pin (self : PreProcessor) : option string :=
  Py.str_int <$> active_cutchart self.

(** The active process is a record of the database, or there is none. *)
Definition process_ok (env : Env) (p : PreProcessor) : Prop :=
  process p = (None, None, None, None, None, None)
  \/ exists tool c cs,
       DB.cut_by_id (PLASMADB env) tool = c :: cs /\ process p = process_of tool c.

Lemma parse_line_process env line self self' :
  process_ok env self -> parse_line env line self = Ok self' -> process_ok env self'.
Proof.
  intros Hok H. destruct (parse_line_inv _ _ _ _ H)
    as (l0 & parent' & _ & Hshape & Hpr & _).
  unfold shape in Hshape. cbn [fst snd] in Hshape.
  destruct Hshape as (_ & _ & _ & _ & _ & _ & _ & _ & _ & _ & Hproc).
  unfold process_ok. rewrite Hpr.
  destruct (cutchart_id l0) as [tool|].
  - right. destruct Hproc as (c & cs & Hdb & Hp). eauto.
  - rewrite Hproc. exact Hok.
Qed.

(** X. At the end of the parse the active process is none at all -- no
    cut chart, feed rate, thickness or id is set, and the pin of the user
    interface is left alone -- or it is a record of the database: the six
    fields are the number of the record and its cut speed, thickness,
    machine, thickness and material ids, and the pin is given the number. *)
Theorem active_process_is_a_database_record :
  forall env lines p,
    parse env lines (new_PreProcessor env) = Ok p ->
    (process p = (None, None, None, None, None, None)
     /\ set_ui_hal_cutchart_pin p = None)
    \/ exists tool c cs,
         DB.cut_by_id (PLASMADB env) tool = c :: cs
         /\ process p = process_of tool c
         /\ set_ui_hal_cutchart_pin p = Some (Py.str_int tool).
Proof.
  intros env lines p Hparse.
  assert (process_ok env p) as [Hnone|(tool & c & cs & Hdb & Hp)].
  { unfold parse in Hparse.
    refine (parse_lines_ind (process_ok env) env _ lines _ p _ Hparse);
      [intros line self self'; apply parse_line_process | left; reflexivity]. }
  - left. split; [exact Hnone|]. unfold set_ui_hal_cutchart_pin.
    unfold process in Hnone. injection Hnone as -> _ _ _ _ _. reflexivity.
  - right. exists tool, c, cs. split; [exact Hdb|]. split; [exact Hp|].
    unfold set_ui_hal_cutchart_pin. unfold process, process_of in Hp.
    injection Hp as -> _ _ _ _ _. reflexivity.
Qed.

(** After [T1], an unknown tool and a tool change in a line of two commands
    the process is still the first record. *)
Lemma active_process_example :
  set_ui_hal_cutchart_pin (parse_of example_env ["T1"; "T99"; "T7 M6"]) = Some "1"
  /\ process (parse_of example_env ["T1"; "T99"; "T7 M6"]) = process_of 1 example_cut.
Proof.
  destruct (active_process_is_a_database_record example_env ["T1"; "T99"; "T7 M6"]
              (parse_of example_env ["T1"; "T99"; "T7 M6"])
              ltac:(vm_compute; reflexivity))
    as [[Hnone _]|(tool & c & cs & Hdb & Hp & Hpin)].
  - vm_compute in Hnone. discriminate Hnone.
  - split; vm_compute; reflexivity.
Defined.

(** *** The error stream *)

Lemma parse_lines_stderr env :
  forall lines self p,
    parse_lines env lines self = Ok p ->
    stderr p
    = (stderr self
       ++ replicate (fold_left (fun n line => (n + messages_of (Str.strip line))%nat)
                       lines 0%nat) comp_message)%list.
Proof.
  assert (forall lines k,
            fold_left (fun n line => (n + messages_of (Str.strip line))%nat) lines k
            = (k + fold_left (fun n line => (n + messages_of (Str.strip line))%nat)
                     lines 0)%nat) as Hfold.
  { induction lines as [|line lines IH]; intros k; cbn [fold_left]; [lia|].
    rewrite (IH (k + _)%nat), (IH (0 + _)%nat). lia. }
  induction lines as [|line lines IH]; intros self p H; cbn [parse_lines] in H.
  - injection H as <-. cbn [fold_left replicate]. now rewrite app_nil_r.
  - apply bind_inv in H as (self1 & H1 & H). cbn [fold_left].
    rewrite (IH _ _ H). destruct (parse_line_inv _ _ _ _ H1)
      as (l0 & parent' & _ & Hshape & _ & _ & Herr & _).
    unfold shape in Hshape. cbn [fst snd] in Hshape.
    destruct Hshape as (_ & _ & _ & _ & _ & _ & _ & _ & He & _).
    rewrite Herr, He, <- app_assoc, <- replicate_add. do 2 f_equal.
    rewrite (Hfold lines (0 + messages_of (Str.strip line))%nat). lia.
Qed.

(** X. What the calls of [print] in [main] write on the error stream --
    the records of the logger aside -- is the cutter-compensation message
    and nothing else, as many times as the lines of the file count
    compensation codes: on a line of several commands every G41 and G42
    among them, on a line of one command the code the line begins with. No
    other call of [print] writes there: an unknown tool number is handed to
    the logger only. *)
Theorem error_stream_counts_compensation_codes :
  forall env lines out err,
    main env lines = Ok (out, err) ->
    err = replicate (fold_left (fun n line => (n + messages_of (Str.strip line))%nat)
                       lines 0%nat) comp_message.
Proof.
  intros env lines out err H. unfold main in H.
  apply bind_inv in H as (p & Hparse & H).
  apply bind_inv in H as (p' & Hflag & H).
  apply bind_inv in H as (out' & _ & H). injection H as _ <-.
  assert (stderr p' = stderr p) as ->.
  { destruct (Hal.plasma_hole_detect_enable (hal env)); [|now injection Hflag as <-].
    unfold flag_holes in Hflag. cbv zeta in Hflag.
    apply bind_inv in Hflag as ([parsed cur] & _ & Hflag). now injection Hflag as <-. }
  unfold parse in Hparse. rewrite (parse_lines_stderr _ _ _ _ Hparse). reflexivity.
Qed.

Definition comp_program : list string :=
  ["G41 D1"; "G1 X1 G42 G41"; "T99"; "N10 G41"; "G40"].

Lemma error_stream_example :
  main example_env comp_program
  = Ok (["T99"; "N10 G41"; ""], replicate 3 comp_message).
Proof.
  assert (exists out err, main example_env comp_program = Ok (out, err))
    as (out & err & H) by (eexists _, _; vm_compute; reflexivity).
  pose proof (error_stream_counts_compensation_codes example_env comp_program
                out err H) as Herr.
  rewrite H. vm_compute in H. injection H as <- _. rewrite Herr.
  vm_compute. reflexivity.
Defined.

(** ** What the hole detector writes *)

(** A relation between a line before the pass and the line at its place
    later that the three writes of [flag_holes] respect: the type of a line,
    the hole flag cleared, the hole flag set with the builder of the hole. *)
Section detector_frame.
Variable env : Env.
Variable R : CodeLine -> CodeLine -> Prop.
Hypothesis R_type : forall o n t, R o n -> R o (set_type t n).
Hypothesis R_clear : forall o n b, R o n -> R o (set_hole false b n).
Hypothesis R_built :
  forall o n cfg self g s b,
    R o n -> build_hole env cfg self n g s = Ok (Some b) ->
    R o (set_hole true (Some b) n).

Lemma frame_set_line_type orig ls t j :
  Forall2 R orig ls -> Forall2 R orig (set_line_type t j ls).
Proof.
  intros H. apply Forall2_alter_r; [exact H|]. intros x y _ _. apply R_type.
Qed.

Lemma frame_remove_back orig :
  forall j found_m3 ls,
    Forall2 R orig ls -> Forall2 R orig (remove_back j found_m3 ls).
Proof.
  induction j as [|j IH]; intros found_m3 ls H; simpl;
    destruct (ls !! _) as [prev|]; auto;
    repeat match goal with
           | |- context [if ?b then _ else _] => destruct b
           | |- context [match ?x with Some _ => _ | None => _ end] => destruct x
           end;
    auto using frame_set_line_type.
Qed.

Lemma frame_remove_forward orig nexts :
  Forall2 R orig nexts -> Forall2 R orig (remove_forward nexts).
Proof.
  induction 1 as [|o l orig nexts Hl H IH]; cbn [remove_forward]; constructor.
  - now apply R_type.
  - destruct (Str.startswith _ _); assumption.
Qed.

Lemma frame_remove_around orig i ls :
  Forall2 R orig ls -> Forall2 R orig (remove_around i ls).
Proof.
  intros H. unfold remove_around.
  assert (Forall2 R orig
            match i with O => ls | S j => remove_back j false ls end) as H'.
  { destruct i; auto using frame_remove_back. }
  rewrite <- (take_drop (S i) orig).
  apply Forall2_app.
  - now apply Forall2_take.
  - apply frame_remove_forward. now apply Forall2_drop.
Qed.

Lemma frame_insert orig ls i line line' :
  Forall2 R orig ls -> ls !! i = Some line ->
  (forall o, R o line -> R o line') ->
  Forall2 R orig (<[i := line']> ls).
Proof.
  intros H Hi Hline.
  apply Forall2_same_length_lookup. split.
  - rewrite length_insert. now apply Forall2_length in H.
  - intros k x y Hx Hy.
    destruct (decide (i = k)) as [<-|Hne].
    + rewrite list_lookup_insert_eq in Hy
        by (apply lookup_lt_Some in Hi; exact Hi).
      injection Hy as <-. apply Hline.
      eapply Forall2_lookup_lr; eauto.
    + rewrite list_lookup_insert_ne in Hy by exact Hne.
      eapply Forall2_lookup_lr; eauto.
Qed.

Lemma frame_flag_line cfg self orig i parsed cur parsed' cur' :
  Forall2 R orig parsed ->
  flag_line env cfg self i (parsed, cur) = Ok (parsed', cur') ->
  Forall2 R orig parsed'.
Proof.
  intros H Hflag. unfold flag_line in Hflag.
  destruct (parsed !! i) as [line|] eqn:Hi; [|injection Hflag as <- _; exact H].
  destruct (is_G3 line) eqn:HG; [|injection Hflag as <- _; exact H].
  apply bind_inv in Hflag as ([[hole [endx endy]] cur1] & _ & Hflag).
  destruct hole.
  - apply bind_inv in Hflag as (g & _ & Hflag).
    apply bind_inv in Hflag as (hidef & _ & Hflag).
    apply bind_inv in Hflag as (s & _ & Hflag).
    apply bind_inv in Hflag as (b & Hb & Hflag).
    destruct b as [b|]; injection Hflag as <- _.
    + apply frame_remove_around. eapply frame_insert; eauto.
    + eapply frame_insert; eauto.
  - injection Hflag as <- _. eapply frame_insert; eauto.
Qed.

Lemma frame_flag_from cfg self orig :
  forall n i parsed cur parsed' cur',
    Forall2 R orig parsed ->
    flag_from env cfg self n i (parsed, cur) = Ok (parsed', cur') ->
    Forall2 R orig parsed'.
Proof.
  induction n as [|n IH]; intros i parsed cur parsed' cur' H Hflag; simpl in Hflag.
  - injection Hflag as <- _. exact H.
  - apply bind_inv in Hflag as ([parsed1 cur1] & H1 & Hflag).
    eapply IH; [|exact Hflag].
    eapply frame_flag_line; eauto.
Qed.

Lemma frame_flag_holes p p' :
  Forall2 R (_parsed p) (_parsed p) ->
  flag_holes env p = Ok p' ->
  Forall2 R (_parsed p) (_parsed p')
  /\ p' = set_parsed (_parsed p') p.
Proof.
  unfold flag_holes. intros Hrefl H.
  apply bind_inv in H as ([parsed cur] & Hflag & H). injection H as <-.
  split; [|reflexivity]. cbn [_parsed set_parsed].
  eapply frame_flag_from; [exact Hrefl | exact Hflag].
Qed.

End detector_frame.

(** Every field of a line but its type, its hole flag and its builder. *)
Definition same_text (old new : CodeLine) : Prop :=
  command new = command old
  /\ params new = params old
  /\ comment new = comment old
  /\ raw new = raw old
  /\ errors new = errors old
  /\ token new = token old
  /\ active_g_modal_groups new = active_g_modal_groups old
  /\ cutchart_id new = cutchart_id old.

(** X. The hole detector writes three fields of the parsed lines -- the
    type, the hole flag and the builder -- and nothing else: the text, the
    command, the parameters, the comment, the token and the modal snapshot
    of every line, the number and the order of the lines, the active process
    and the units are as the parser left them. A line that is not a G3 arc
    even keeps its flag and its builder, and its type or the type
    [REMOVE]. *)
Theorem flag_holes_writes_three_fields :
  forall env p p',
    flag_holes env p = Ok p' ->
    p' = set_parsed (_parsed p') p
    /\ length (_parsed p') = length (_parsed p)
    /\ forall i l,
         _parsed p !! i = Some l ->
         exists l',
           _parsed p' !! i = Some l'
           /\ same_text l l'
           /\ (is_G3 l = false -> l' = l \/ l' = set_type REMOVE l).
Proof.
  intros env p p' Hflag.
  destruct (frame_flag_holes env same_text) with (p := p) (p' := p')
    as [Hall Hp']; try exact Hflag;
    try (intros; unfold same_text in *; fields; tauto).
  { induction (_parsed p); constructor; [unfold same_text; tauto | assumption]. }
  split; [exact Hp'|]. split; [symmetry; exact (Forall2_length _ _ _ Hall)|].
  intros i l Hl.
  destruct (Forall2_lookup_l _ _ _ _ _ Hall Hl) as (l' & Hl' & Hsame).
  exists l'. split; [exact Hl'|]. split; [exact Hsame|].
  intros HG. destruct (flag_holes_marks_only _ _ _ _ _ Hflag Hl HG) as (l'' & Hl'' & Hm).
  assert (l'' = l') as -> by congruence. exact Hm.
Qed.

(** A hole of diameter 10 between two cuts. *)
Definition marked_hole : list string :=
  ["T1"; "G0 X0 Y0"; "M3 $0 S1"; "G1 X0 Y0"; "G3 X0 Y0 I5 J0"; "M5 $0";
   "G0 X20 Y0 (next)"].

Lemma marked_hole_flagged :
  flag_holes mark_env (parse_of mark_env marked_hole)
  = Ok (flagged_of mark_env marked_hole).
Proof. vm_compute. reflexivity. Qed.

(** The hole is replaced and the lines of its cut are removed; the texts of
    the lines are those of the file. *)
Lemma flag_holes_three_fields_example :
  length (_parsed (flagged_of mark_env marked_hole)) = 7%nat
  /\ (raw <$> _parsed (flagged_of mark_env marked_hole)) = marked_hole
  /\ ((fun l => (type l, is_hole l)) <$> _parsed (flagged_of mark_env marked_hole))
     = [(Some TOOLCHANGE, false); (Some REMOVE, false); (Some REMOVE, false);
        (Some REMOVE, false); (Some MOVE_ARC, true); (Some REMOVE, false);
        (Some MOVE_LINEAR, false)].
Proof.
  destruct (flag_holes_writes_three_fields mark_env (parse_of mark_env marked_hole)
              (flagged_of mark_env marked_hole) marked_hole_flagged)
    as (_ & Hlen & _).
  split; [rewrite Hlen; vm_compute; reflexivity|].
  split; vm_compute; reflexivity.
Defined.

(** ** The serializer never raises *)

(** An element with [i] and [j] has [x] and [y]. *)
Definition well_formed (e : element) : bool :=
  match e_ij e, e_xy e with
  | Some _, None => false
  | _, _ => true
  end.

Definition wf_builder (b : HoleBuilder) : Prop :=
  Forall (fun e => well_formed e = true) (elements b).

Lemma wf_append e b : well_formed e = true -> wf_builder b -> wf_builder (append e b).
Proof.
  intros He Hb. unfold wf_builder, append. cbn [elements].
  apply Forall_app. split; [exact Hb|]. now apply Forall_singleton.
Qed.

Lemma wf_cut on b : wf_builder b -> wf_builder (append_cut_on_off on b).
Proof.
  intros Hb. unfold wf_builder, append_cut_on_off. cbn [elements].
  apply Forall_app. split; [exact Hb|]. now apply Forall_singleton.
Qed.

Lemma wf_clear b : wf_builder (clear_elements b).
Proof. constructor. Qed.

(** Takes the statements of a builder off one by one. *)
Ltac wf_run :=
  cbn [run fold_left];
  repeat first
    [ apply wf_clear
    | assumption
    | apply wf_cut
    | apply wf_append; [first [reflexivity | destruct_line]|]
    | match goal with
      | |- wf_builder (if ?c then _ else _) => destruct c
      | |- wf_builder (match ?n with O => _ | S _ => _ end) => destruct n
      end ]
with destruct_line :=
  match goal with
  | |- well_formed (create_line_gcode _ _ ?r) = true => destruct r; reflexivity
  end.

Lemma sectors_wf env x y r f1 f2 f3 :
  forall angles n self b,
    wf_builder self ->
    sectors env angles n x y r f1 f2 f3 self = Ok b ->
    wf_builder b.
Proof.
  induction angles as [|sang rest IH]; intros n self b Hself H.
  - cbn [sectors] in H. now injection H as <-.
  - cbn [sectors] in H. cbv zeta in H.
    apply bind_inv in H as (c & _ & H). apply bind_inv in H as (s & _ & H).
    apply IH in H; [exact H|]. wf_run.
Qed.

Lemma plasma_hole_wf env parent line x y d kerf leadin_radius splits hidef self b :
  plasma_hole env parent line x y d kerf leadin_radius splits hidef self = Ok b ->
  wf_builder b.
Proof.
  intros H. unfold plasma_hole in H. cbv zeta in H.
  apply bind_inv in H as (arc1_feed & _ & H).
  apply bind_inv in H as (arc2_feed & _ & H).
  apply bind_inv in H as (arc3_feed & _ & H).
  apply bind_inv in H as (leadin_feed & _ & H).
  apply bind_inv in H as (grp7 & _ & H).
  destruct (_ <? _); [injection H as <-; wf_run|].
  apply bind_inv in H as (split_angles & _ & H).
  apply bind_inv in H as (grp4 & _ & H).
  apply bind_inv in H as (holed & Hholed & H).
  apply bind_inv in H as (torch & _ & H).
  injection H as <-.
  assert (wf_builder holed) as Hh.
  { destruct split_angles as [|a angles].
    - injection Hholed as <-. wf_run.
    - apply sectors_wf in Hholed; [exact Hholed|]. wf_run. }
  wf_run.
Qed.

Lemma build_hole_wf env cfg self line g s b :
  build_hole env cfg self line g s = Ok (Some b) -> wf_builder b.
Proof.
  destruct s as [|v|r|]; cbn [build_hole]; intros H.
  - injection H as <-. unfold plasma_mark. wf_run.
  - apply bind_inv in H as (b' & Hb & H). injection H as <-.
    exact (plasma_hole_wf _ _ _ _ _ _ _ _ _ _ _ _ Hb).
  - apply bind_inv in H as (b' & Hb & H). injection H as <-.
    exact (plasma_hole_wf _ _ _ _ _ _ _ _ _ _ _ _ Hb).
  - discriminate H.
Qed.

Lemma generate_hole_gcode_total env es :
  Forall (fun e => well_formed e = true) es ->
  exists out, generate_hole_gcode env es = Ok out.
Proof.
  induction 1 as [|e es He _ [out IH]]; [exists []; reflexivity|].
  cbn [generate_hole_gcode]. rewrite IH.
  destruct (e_code e) as [c|]; [|eauto].
  unfold element_to_gcode_line, well_formed in *. cbv zeta.
  destruct (e_ij e) as [[i j]|], (e_xy e) as [[x' y']|];
    try discriminate He; cbn [mbind exn_bind]; eauto.
Qed.

(** A line the serializer can print: a hole has a builder, of well-formed
    elements. *)
Definition printable (l : CodeLine) : Prop :=
  is_hole l = true ->
  exists b, hole_builder l = Some b /\ wf_builder b.

Lemma dump_line_total env l :
  printable l -> exists out, dump_line env l = Ok out.
Proof.
  intros Hl. unfold dump_line. unfold printable in Hl. destruct (is_hole l).
  - destruct (Hl eq_refl) as (b & -> & Hb). cbn [of_option mbind exn_bind].
    destruct (generate_hole_gcode_total env _ Hb) as [body ->].
    cbn [mbind exn_bind]. eauto.
  - destruct (type l) as [[]|]; eauto.
Qed.

Lemma dump_lines_total env ls :
  Forall printable ls -> exists out, dump_lines env ls = Ok out.
Proof.
  induction 1 as [|l ls Hl _ [rest IH]]; [exists []; reflexivity|].
  cbn [dump_lines]. destruct (dump_line_total env l Hl) as [out ->].
  rewrite IH. cbn [mbind exn_bind]. eauto.
Qed.

Lemma parsed_printable env lines p :
  parse env lines (new_PreProcessor env) = Ok p -> Forall printable (_parsed p).
Proof.
  intros Hparse. apply Forall_forall. intros l Hl.
  destruct (parsed_line_source _ _ _ _ Hparse Hl)
    as (line & before & l0 & parent' & grps & _ & Hshape & ->).
  unfold shape in Hshape. fields. destruct Hshape as (Hh & _).
  intros Hhole. fields. congruence.
Qed.

Lemma flagged_printable env p p' :
  Forall printable (_parsed p) ->
  flag_holes env p = Ok p' ->
  Forall printable (_parsed p').
Proof.
  intros Hp Hflag.
  destruct (frame_flag_holes env (fun _ n => printable n)) with (p := p) (p' := p')
    as [Hall _]; try exact Hflag.
  - intros o n t Hn. exact Hn.
  - intros o n b Hn Hhole. discriminate Hhole.
  - intros o n cfg self g s b _ Hb _. exists b. split; [reflexivity|].
    exact (build_hole_wf _ _ _ _ _ _ _ Hb).
  - clear -Hp. induction Hp; constructor; assumption.
  - clear -Hall. induction Hall; constructor; assumption.
Qed.

(** X. The serializer raises nothing on what the two passes before it
    hand over: a run of [main] that ends on an exception ends in the parser
    or in the hole detector. Before the detector no line is a hole; after
    it every hole has its builder, and every arc element of a builder has
    its end point beside its centre. *)
Theorem serializer_never_raises :
  forall env lines p,
    parse env lines (new_PreProcessor env) = Ok p ->
    (exists out, dump_parsed env p = Ok out)
    /\ (forall p', flag_holes env p = Ok p' -> exists out, dump_parsed env p' = Ok out)
    /\ ((Hal.plasma_hole_detect_enable (hal env) = true ->
         exists p', flag_holes env p = Ok p') ->
        exists out err, main env lines = Ok (out, err)).
Proof.
  intros env lines p Hparse.
  pose proof (parsed_printable _ _ _ Hparse) as Hp.
  assert (forall p', flag_holes env p = Ok p' -> exists out, dump_parsed env p' = Ok out)
    as Hflagged.
  { intros p' Hflag. apply dump_lines_total. eapply flagged_printable; eauto. }
  split; [now apply dump_lines_total|]. split; [exact Hflagged|].
  intros Hdet. unfold main. rewrite Hparse. cbn [mbind exn_bind].
  destruct (Hal.plasma_hole_detect_enable (hal env)).
  - destruct (Hdet eq_refl) as [p' Hflag]. rewrite Hflag. cbn [mbind exn_bind].
    destruct (Hflagged p' Hflag) as [out ->]. cbn [mbind exn_bind]. eauto.
  - cbn [mbind exn_bind]. destruct (dump_lines_total env _ Hp) as [out Hout].
    unfold dump_parsed. rewrite Hout. cbn [mbind exn_bind]. eauto.
Qed.

Lemma marked_hole_parses :
  parse mark_env marked_hole (new_PreProcessor mark_env)
  = Ok (parse_of mark_env marked_hole).
Proof. vm_compute. reflexivity. Qed.

(** The marked hole, printed: the tool line, the mark pulse between the
    comments of a hole, the rapid to the next cut. *)
Lemma serializer_example :
  main mark_env marked_hole
  = Ok ([ "T1"; "(---- Smart Hole Start ----)"; "(---- Marking Start ----)";
          "F2000.0"; "G0 x5.0000 y0.0000"; "M3 $0"; "G1 x5.0010 y0.0000";
          "M66 P3 L3 Q10"; "G4 P0.5"; "M5 $-1"; "(---- Marking End ----)";
          "(---- Smart Hole End ----)"; ""; "G0 X20.0 Y0.0 (next)" ], []).
Proof.
  destruct (proj2 (proj2 (serializer_never_raises mark_env marked_hole
                            (parse_of mark_env marked_hole) marked_hole_parses)))
    as (out & err & H).
  - intros _. exists (flagged_of mark_env marked_hole). exact marked_hole_flagged.
  - rewrite H. vm_compute in H. injection H as <- <-. reflexivity.
Defined.

(** ** Line by line: what becomes of the lines of each key *)

Lemma token_keys_NoDup : NoDup token_keys.
Proof. apply (bool_decide_unpack _). vm_compute. exact I. Qed.

(** The first key that matches a text, if any. *)
Definition first_key (text : string) : option string :=
  find (fun k => token_matches k (Str.upper text)) token_keys.

(** The classifier on a line of one command at most whose first matching
    key is [k]: the handler of the key, the search for an inline comment,
    and the search for X and Y words on a line passed through. *)
Lemma CodeLine_init_at_key env text parent k ty h :
  (length (Re.findall re_multi_codes (Str.strip (Str.upper text))) <= 1)%nat ->
  first_key text = Some k ->
  In (k, (ty, h)) (tokens env) ->
  CodeLine_init env text parent
  = (st ← (st ← h (set_token k (set_type ty (new_CodeLine text)), parent);
           if is_COMMENT (type st.1) then Ok st else parse_inline_comment st);
     if is_PASSTHROUGH (type st.1) then parse_XY_line st else Ok st).
Proof.
  intros Hone Hf Hin. unfold CodeLine_init. cbv zeta.
  apply Nat.ltb_ge in Hone. rewrite Hone.
  rewrite (scan_tokens_at text parent (tokens env) (new_CodeLine text) k ty h);
    [reflexivity | exact token_keys_NoDup | exact Hf | exact Hin].
Qed.

(** Finds the first key that matches a text of a known beginning. *)
Ltac find_key Hshape :=
  unfold first_key, token_keys; cbn [find];
  repeat match goal with
         | |- context [if token_matches ?k ?u then _ else _] =>
             first
               [ replace (token_matches k u) with false
                   by (symmetry; rewrite Hshape; vm_compute; reflexivity)
               | replace (token_matches k u) with true
                   by (symmetry; rewrite Hshape; vm_compute; reflexivity) ];
             cbv iota
         end;
  try reflexivity.

(** The parsed line of an input line has what every line of the classifier
    on its stripped text has. *)
Lemma parsed_line_of_init env lines p i line (Q : CodeLine -> Prop) :
  parse env lines (new_PreProcessor env) = Ok p ->
  lines !! i = Some line ->
  (forall self l0 parent',
      CodeLine_init env (Str.strip line) self = Ok (l0, parent') -> Q l0) ->
  exists l0 grps,
    _parsed p !! i = Some (save_g_modal_group grps l0)
    /\ Q l0
    /\ exists before, grps = set_modal_in G_MODAL_GROUPS (token l0) before.
Proof.
  intros Hparse Hi HQ.
  destruct (parse_nth _ _ _ _ _ Hparse Hi) as (before & after & l & Hline & Hl & Happ).
  destruct (parse_line_step _ _ _ _ Hline) as (l0 & parent' & Hinit & Hg & Hp).
  rewrite Hp in Happ. apply app_inj_tail in Happ as [_ <-].
  exists l0, (active_g_modal_grps after). split; [exact Hl|].
  split; [exact (HQ _ _ _ Hinit)|]. eauto.
Qed.

(** What the hole detector can do to the print of a line that is no arc. *)
Lemma dump_after_detection env p p' i l out :
  flag_holes env p = Ok p' ->
  _parsed p !! i = Some l ->
  is_G3 l = false ->
  is_hole l = false ->
  dump_line env l = Ok out ->
  exists l', _parsed p' !! i = Some l'
             /\ (dump_line env l' = Ok out \/ dump_line env l' = Ok []).
Proof.
  intros Hflag Hl HG Hh Hout.
  destruct (flag_holes_marks_only _ _ _ _ _ Hflag Hl HG) as (l' & Hl' & Hm).
  exists l'. split; [exact Hl'|]. eapply dump_marked; eauto.
Qed.

(** *** Comment lines *)

Definition comment_line (text : string) : CodeLine :=
  set_params [] (set_command (Some (";", ANone))
    (set_comment text (set_token (Str.take 1 text)
       (set_type COMMENT (new_CodeLine text))))).

Lemma upper_semicolon c : Ascii.eqb ";" (Str.upper_char c) = Ascii.eqb ";" c.
Proof. destruct c as [[] [] [] [] [] [] [] []]; vm_compute; reflexivity. Qed.
Lemma upper_paren c : Ascii.eqb "(" (Str.upper_char c) = Ascii.eqb "(" c.
Proof. destruct c as [[] [] [] [] [] [] [] []]; vm_compute; reflexivity. Qed.

Lemma CodeLine_init_comment env text parent :
  (length (Re.findall re_multi_codes (Str.strip (Str.upper text))) <= 1)%nat ->
  Str.startswith ";" text || Str.startswith "(" text = true ->
  CodeLine_init env text parent = Ok (comment_line text, parent).
Proof.
  intros Hone Hstart.
  destruct text as [|c text]; [discriminate Hstart|].
  cbn [Str.startswith] in Hstart.
  destruct (Ascii.eqb ";" c) eqn:Hsemi.
  - apply Ascii.eqb_eq in Hsemi. subst c.
    assert (Str.upper (String ";" text) = ";" +:+ Str.upper text) as Hshape
        by reflexivity.
    rewrite (CodeLine_init_at_key env _ parent ";" COMMENT parse_comment Hone);
      [reflexivity | find_key Hshape | unfold tokens; cbn [In]; tauto].
  - cbn [orb] in Hstart. destruct (Ascii.eqb "(" c) eqn:Hpar; [|discriminate Hstart].
    apply Ascii.eqb_eq in Hpar. subst c.
    assert (Str.upper (String "(" text) = "(" +:+ Str.upper text) as Hshape
        by reflexivity.
    rewrite (CodeLine_init_at_key env _ parent "(" COMMENT parse_comment Hone);
      [reflexivity | find_key Hshape | unfold tokens; cbn [In]; tauto].
Qed.

(** X. A line of one command at most whose stripped text begins with [;]
    or with [(] is always classified, as a comment, and is printed as its
    stripped text, letter for letter; the hole detector, when it runs, can
    only remove it. *)
Theorem comment_line_is_printed_verbatim :
  forall env lines i line,
    lines !! i = Some line ->
    (length (command_tokens line) <= 1)%nat ->
    Str.startswith ";" (Str.strip line) || Str.startswith "(" (Str.strip line) = true ->
    (forall self, exists self', parse_line env line self = Ok self')
    /\ (forall p,
          parse env lines (new_PreProcessor env) = Ok p ->
          exists l,
            _parsed p !! i = Some l
            /\ type l = Some COMMENT
            /\ dump_line env l = Ok [Str.strip line]
            /\ (forall p',
                  flag_holes env p = Ok p' ->
                  exists l', _parsed p' !! i = Some l'
                             /\ (dump_line env l' = Ok [Str.strip line]
                                 \/ dump_line env l' = Ok []))).
Proof.
  intros env lines i line Hi Hone Hstart. split.
  - intros self.
    destruct (parse_line_of_init env line self _ _
                (CodeLine_init_comment env _ self Hone Hstart)) as (self' & H & _).
    eauto.
  - intros p Hparse.
    destruct (parsed_line_of_init env lines p i line
                (fun l0 => l0 = comment_line (Str.strip line)) Hparse Hi)
      as (l0 & grps & Hl & -> & _).
    { intros self l0 parent' H.
      rewrite (CodeLine_init_comment env _ self Hone Hstart) in H. congruence. }
    eexists. split; [exact Hl|]. split; [reflexivity|]. split; [reflexivity|].
    intros p' Hflag.
    exact (dump_after_detection _ _ _ _ _ _ Hflag Hl eq_refl eq_refl eq_refl).
Qed.

Definition comment_program : list string :=
  ["; set-up"; "  (Cut the Box at x=5, y=7)  "; "G0 X1 Y1"].

Lemma comment_program_parses :
  parse example_env comment_program (new_PreProcessor example_env)
  = Ok (parse_of example_env comment_program).
Proof. vm_compute. reflexivity. Qed.

Lemma comment_line_example :
  (exists l,
     _parsed (parse_of example_env comment_program) !! 1%nat = Some l
     /\ type l = Some COMMENT
     /\ dump_line example_env l = Ok ["(Cut the Box at x=5, y=7)"])
  /\ main example_env comment_program
     = Ok (["; set-up"; "(Cut the Box at x=5, y=7)"; "G0 X1.0 Y1.0"], []).
Proof.
  split; [|vm_compute; reflexivity].
  destruct (proj2 (comment_line_is_printed_verbatim example_env comment_program 1
                     "  (Cut the Box at x=5, y=7)  " eq_refl
                     ltac:(vm_compute; lia) ltac:(vm_compute; reflexivity))
              (parse_of example_env comment_program) comment_program_parses)
    as (l & Hl & Hty & Hdump & _).
  exists l. auto.
Defined.

(** *** Inline comments *)

(** The characters that open a comment. *)
Definition opens_comment (c : ascii) : bool := Ascii.eqb c ";" || Ascii.eqb c "(".

(** A text from its first [;] or [(] on, and the text before it. *)
Fixpoint from_comment (s : string) : string :=
  match s with
  | EmptyString => EmptyString
  | String c s' => if opens_comment c then s else from_comment s'
  end.

Fixpoint before_comment (s : string) : string :=
  match s with
  | EmptyString => EmptyString
  | String c s' =>
      if opens_comment c then EmptyString else String c (before_comment s')
  end.

Lemma match_here_comment c s :
  Re.match_here re_comment (String c s)
  = if opens_comment c then Some 1%nat else None.
Proof.
  unfold re_comment, opens_comment. rewrite !match_here_cons, !match_seq_one.
  unfold Re.chr. rewrite !(Ascii.eqb_sym c). cbn [Re.match_seq String.length].
  destruct (Ascii.eqb ";" c); [cbn [orb]; f_equal; lia|].
  destruct (Ascii.eqb "(" c); [cbn [orb]; f_equal; lia|]. reflexivity.
Qed.

(** Where [re.search(";|\(", s)] finds its match. *)
Lemma search_comment_spec :
  forall s pos,
    match Re.search_from re_comment s pos with
    | Some (i, n) =>
        n = 1%nat /\ (pos <= i)%nat
        /\ Str.take (i - pos) s = before_comment s
        /\ Str.drop (i - pos) s = from_comment s
        /\ exists c, String.get (i - pos) s = Some c
                     /\ from_comment s = String c (Str.drop (i - pos + 1) s)
    | None => from_comment s = EmptyString /\ before_comment s = s
    end.
Proof.
  induction s as [|c s IH]; intros pos.
  - cbn. split; reflexivity.
  - cbn [Re.search_from]. rewrite match_here_comment.
    cbn [from_comment before_comment].
    destruct (opens_comment c).
    + rewrite Nat.sub_diag. cbn [Str.take Str.drop String.get Nat.add].
      repeat split; eauto.
    + specialize (IH (S pos)).
      destruct (Re.search_from re_comment s (S pos)) as [[i n]|].
      * destruct IH as (Hn & Hle & Htake & Hdrop & ch & Hget & Hfrom).
        replace (i - pos)%nat with (S (i - S pos)) by lia.
        cbn [Str.take Str.drop String.get Nat.add].
        split; [exact Hn|]. split; [lia|].
        split; [now rewrite Htake|]. split; [exact Hdrop|].
        exists ch. split; [exact Hget | exact Hfrom].
      * destruct IH as [Hfrom Hbefore]. split; [exact Hfrom | now rewrite Hbefore].
Qed.

Lemma before_from_comment s : before_comment s +:+ from_comment s = s.
Proof.
  induction s as [|c s IH]; [reflexivity|]. cbn [before_comment from_comment].
  destruct (opens_comment c); [reflexivity|].
  change (String c (before_comment s +:+ from_comment s) = String c s).
  now rewrite IH.
Qed.

Lemma parse_inline_comment_spec l p :
  parse_inline_comment (l, p)
  = Ok (set_comment (from_comment (Str.drop 1 (raw l))) l, p).
Proof.
  unfold parse_inline_comment, Re.split1, Re.search.
  pose proof (search_comment_spec (Str.drop 1 (raw l)) 0) as Hs.
  destruct (Re.search_from re_comment (Str.drop 1 (raw l)) 0) as [[i n]|].
  - destruct Hs as (-> & _ & _ & _ & ch & Hget & Hfrom).
    rewrite Nat.sub_0_r in Hget, Hfrom.
    destruct (raw l) as [|a r] eqn:Hraw; [discriminate Hget|].
    cbn [Str.drop] in *.
    change (String.get (S i) (String a r)) with (String.get i r).
    rewrite Hget. cbn [of_option mbind exn_bind item lookup list_lookup].
    rewrite Hfrom. reflexivity.
  - destruct Hs as [-> _]. reflexivity.
Qed.

Lemma strip_inline_comment_spec s :
  strip_inline_comment s = Str.strip (before_comment s).
Proof.
  unfold strip_inline_comment, Re.split1, Re.search.
  pose proof (search_comment_spec s 0) as Hs.
  destruct (Re.search_from re_comment s 0) as [[i n]|].
  - destruct Hs as (_ & _ & Htake & _). rewrite Nat.sub_0_r in Htake.
    now rewrite Htake.
  - destruct Hs as [_ ->]. reflexivity.
Qed.

(** X. The two methods that deal with inline comments cut a text at its
    first [;] or [(]: [strip_inline_comment] returns what comes before it,
    stripped, and the whole text stripped when there is none; and
    [parse_inline_comment], which never raises, looks for it from the second
    character of the raw line on and stores the rest of the line from there
    as the comment, the empty text when there is none. The two parts make up
    the text. *)
Theorem inline_comment_is_cut_at_the_first_opener :
  (forall l p,
      parse_inline_comment (l, p)
      = Ok (set_comment (from_comment (Str.drop 1 (raw l))) l, p))
  /\ (forall s, strip_inline_comment s = Str.strip (before_comment s))
  /\ (forall s, before_comment s +:+ from_comment s = s)
  /\ (forall s, Str.contains_char opens_comment (before_comment s) = false).
Proof.
  split; [exact parse_inline_comment_spec|].
  split; [exact strip_inline_comment_spec|].
  split; [exact before_from_comment|].
  induction s as [|c s IH]; [reflexivity|]. cbn [before_comment].
  destruct (opens_comment c) eqn:Hc; [reflexivity|].
  cbn [Str.contains_char]. now rewrite Hc, IH.
Qed.

(** *** Lines passed through under a key *)

(** The keys whose handler is [parse_passthrough]. *)
Definition passthrough_keys : list string :=
  ["G64"; "M52"; "M3"; "M5"; "M190"; "M66"; "G91.1"; "G90.1"; "F#"].

Definition passed_line (k text : string) : CodeLine :=
  set_comment (from_comment (Str.drop 1 text))
    (set_type PASSTHROUGH (set_token k (new_CodeLine text))).

Lemma CodeLine_init_passthrough env text parent k :
  (length (Re.findall re_multi_codes (Str.strip (Str.upper text))) <= 1)%nat ->
  first_key text = Some k ->
  k ∈ passthrough_keys ->
  Str.contains_char is_XY (Str.upper text) = false ->
  CodeLine_init env text parent = Ok (passed_line k text, parent).
Proof.
  intros Hone Hf Hk Hxy.
  assert (exists ty, In (k, (ty, parse_passthrough)) (tokens env)) as [ty Hin].
  { unfold passthrough_keys in Hk.
    repeat (apply elem_of_cons in Hk as [->|Hk];
            [eexists; unfold tokens; cbn [In]; tauto|]).
    apply elem_of_nil in Hk. contradiction. }
  rewrite (CodeLine_init_at_key env text parent k ty parse_passthrough Hone Hf Hin).
  cbn [parse_passthrough mbind exn_bind fst snd type set_type set_token].
  cbn [is_COMMENT]. rewrite parse_inline_comment_spec.
  cbn [mbind exn_bind fst snd type set_type set_token set_comment is_PASSTHROUGH raw
       new_CodeLine].
  unfold parse_XY_line. cbv zeta.
  cbn [raw set_comment set_type set_token new_CodeLine].
  rewrite (proj2 (findall_xy_nil _))
    by (rewrite contains_strip; [exact Hxy | exact is_XY_not_space]).
  reflexivity.
Qed.

(** X. A line of one command at most whose first matching key is one of the
    keys passed through -- G64, M52, M3, M5, M190, M66, G91.1, G90.1, F# --
    and whose text has no letter X or Y is always classified, and printed as
    its stripped text; the token of the line is the key. The hole detector
    can only remove the line. *)
Theorem passthrough_key_line_is_printed_stripped :
  forall env lines i line k,
    lines !! i = Some line ->
    (length (command_tokens line) <= 1)%nat ->
    first_key (Str.strip line) = Some k ->
    k ∈ passthrough_keys ->
    Str.contains_char is_XY (Str.upper (Str.strip line)) = false ->
    (forall self, exists self', parse_line env line self = Ok self')
    /\ (forall p,
          parse env lines (new_PreProcessor env) = Ok p ->
          exists l,
            _parsed p !! i = Some l
            /\ token l = k
            /\ dump_line env l = Ok [Str.strip line]
            /\ (forall p',
                  flag_holes env p = Ok p' ->
                  exists l', _parsed p' !! i = Some l'
                             /\ (dump_line env l' = Ok [Str.strip line]
                                 \/ dump_line env l' = Ok []))).
Proof.
  intros env lines i line k Hi Hone Hf Hk Hxy. split.
  - intros self.
    destruct (parse_line_of_init env line self _ _
                (CodeLine_init_passthrough env _ self k Hone Hf Hk Hxy))
      as (self' & H & _).
    eauto.
  - intros p Hparse.
    destruct (parsed_line_of_init env lines p i line
                (fun l0 => l0 = passed_line k (Str.strip line)) Hparse Hi)
      as (l0 & grps & Hl & -> & _).
    { intros self l0 parent' H.
      rewrite (CodeLine_init_passthrough env _ self k Hone Hf Hk Hxy) in H.
      congruence. }
    eexists. split; [exact Hl|]. split; [reflexivity|]. split; [reflexivity|].
    intros p' Hflag.
    exact (dump_after_detection _ _ _ _ _ _ Hflag Hl eq_refl eq_refl eq_refl).
Qed.

Definition torch_program : list string :=
  ["M3 $0 S1 (torch on)"; "m5 $0"; "M66 P3 L3 Q1"; "M30"].

Lemma torch_program_parses :
  parse example_env torch_program (new_PreProcessor example_env)
  = Ok (parse_of example_env torch_program).
Proof. vm_compute. reflexivity. Qed.

Lemma passthrough_key_example :
  (exists l,
     _parsed (parse_of example_env torch_program) !! 0%nat = Some l
     /\ token l = "M3"
     /\ dump_line example_env l = Ok ["M3 $0 S1 (torch on)"])
  /\ main example_env torch_program
     = Ok (["M3 $0 S1 (torch on)"; "m5 $0"; "M66 P3 L3 Q1"; "M30"], []).
Proof.
  split; [|vm_compute; reflexivity].
  destruct (proj2 (passthrough_key_line_is_printed_stripped example_env
                     torch_program 0 "M3 $0 S1 (torch on)" "M3" eq_refl
                     ltac:(vm_compute; lia) ltac:(vm_compute; reflexivity)
                     ltac:(vm_compute; repeat constructor)
                     ltac:(vm_compute; reflexivity))
              (parse_of example_env torch_program) torch_program_parses)
    as (l & Hl & Ht & Hdump & _).
  exists l. auto.
Defined.
